(** * SBDKelas: the ledger of the financial tracker

    A shallow embedding of the request handlers that keep the four
    collections of the application (Account, Transaction, Category, Goal)
    consistent with each other, the properties C1 to C10 of its
    specification, each settled on the embedding, and further properties
    of the handlers.

    What is embedded:

    - [src/controller/TransactionController.js]: [updateCategoryBalances],
      [createTransaction], [updateTransaction], [deleteTransaction], and
      the reads [getAllTransactions], [getTransactionById],
      [getTransactionsByAccount];
    - the goal controller: [createGoal], [updateGoal], [deleteGoal],
      [allocateFunds], [withdrawFunds], and the reads [getUserGoals],
      [getGoalById], [getGoalsSummary];
    - the category controller: [generateCategoriesFromTags],
      [createCategory], [deleteCategory], and the reads
      [getUserCategories], [getCategoryById], [getCategorySummary];
    - [src/controller/accountController.js]: [deleteAccount],
      [getAccountById], [getAccountBalance];
    - [src/scripts/setupDefaultGoals.js]: the script [setupDefaultGoals];
    - the Mongoose schemas of Transaction, Category, Goal and Account:
      their validators, the [pre('save')] hook of Goal and its virtuals.

    Left out: [updateCategory], which stores a type without validation
    and so breaks what [category.save] relies on; [getCategorizedTransactions],
    which sorts by a timestamp; [createAccount] and [updateAccount], whose
    fields other than the balance play no part in the ledger.

    Modelling conventions.

    - A JavaScript [Number] holding an amount is an integer of [Z]: the
      amounts are whole currency units, and on integers below 2^53 the
      arithmetic of the handlers ([+=], [-=], comparisons) is exact.  The
      properties that need several of these operations to cancel are
      stated for such amounts ([whole_units]).  A quotient of amounts is a
      binary64 Number, computed as [SpecFloat] does, and [Math.round] is
      the floor of its value plus one half.
    - A string is a sequence of bytes; [trim], [toLowerCase] and [\s] are
      those of the ASCII range.
    - An [ObjectId] is a [nat]; a fresh one is drawn from the counter
      [next_id] of the database.
    - A request body is a plain object of typed fields, each present or
      absent; Mongo update operators inside a body are outside the model.
    - The Category collection carries a unique compound index on
      (user_id, name, type): it is a finite map from that key to the
      balance of the document.
    - The Transaction collection is the list of its documents in insertion
      order, which is the order [Transaction.find] iterates in.
    - Timestamps ([created_at], [updated_at], [target_date]) are not
      modelled.
    - A handler runs inside one Mongo session: every write is staged, and
      [abortTransaction] drops the staged writes.  A handler is a function
      from the committed database to the committed database and the HTTP
      response.  A read the source makes outside the session comes before
      any staged write to the collection it reads. *)

From Stdlib Require Import Ascii QArith Qround Qminmax SpecFloat.
From stdpp Require Import base numbers option list strings gmap fin_maps sorting.

Local Close Scope Q_scope.
Local Open Scope Z_scope.

(** ** Documents *)

Abbreviation ObjectId := nat (only parsing).

Record Account := {
  username : string;
  balance : Z
}.

Record Transaction := {
  _id : ObjectId;
  id_akun : ObjectId;
  tipe : string;
  deskripsi : string;
  nominal : Z;
  category : string;
  tags : list string
}.

Record Goal := {
  user_id : ObjectId;
  title : string;
  description : string;
  target_amount : Z;
  saved_amount : Z;
  status : string
}.

(** The natural key of a Category document: (user_id, name, type). *)
Abbreviation CategoryKey := (ObjectId * string * string)%type (only parsing).

Record Db := {
  accounts : gmap ObjectId Account;
  transactions : list Transaction;
  categories : gmap CategoryKey Z;
  goals : gmap ObjectId Goal;
  next_id : ObjectId
}.

Definition set_accounts (a : gmap ObjectId Account) (s : Db) : Db :=
  {| accounts := a; transactions := transactions s;
     categories := categories s; goals := goals s; next_id := next_id s |}.

Definition set_transactions (l : list Transaction) (s : Db) : Db :=
  {| accounts := accounts s; transactions := l;
     categories := categories s; goals := goals s; next_id := next_id s |}.

Definition set_categories (c : gmap CategoryKey Z) (s : Db) : Db :=
  {| accounts := accounts s; transactions := transactions s;
     categories := c; goals := goals s; next_id := next_id s |}.

Definition set_goals (g : gmap ObjectId Goal) (s : Db) : Db :=
  {| accounts := accounts s; transactions := transactions s;
     categories := categories s; goals := g; next_id := next_id s |}.

Definition set_next_id (n : ObjectId) (s : Db) : Db :=
  {| accounts := accounts s; transactions := transactions s;
     categories := categories s; goals := goals s; next_id := n |}.

(** ** Responses *)

Inductive Payload :=
| Message (message : string)
| TransactionDoc (t : Transaction)
| GoalDoc (g : option Goal)
| Insufficient (message : string) (available : Z)
| Generated (created updated : nat) (cats : list (CategoryKey * Z)).

Record Response := Json { code : nat; payload : Payload }.

(** ** The session monad

    The body of a handler's [try] block.  It either runs to the end with
    the staged database, or leaves early: by [return res.status(..)] after
    an explicit [abortTransaction], or by a thrown error that the [catch]
    block turns into a response.  Both early exits abort the session. *)

Inductive Exit :=
| Return (r : Response)
| Throw (message : string).

Inductive Outcome (A : Type) :=
| Done (a : A) (s : Db)
| Exited (e : Exit).
Arguments Done {A} a s.
Arguments Exited {A} e.

Definition M (A : Type) : Type := Db → Outcome A.

Definition ret {A} (a : A) : M A := λ s, Done a s.

Definition bind {A B} (c : M A) (k : A → M B) : M B :=
  λ s, match c s with
       | Done a s' => k a s'
       | Exited e => Exited e
       end.

Notation "'let*' x ':=' c 'in' k" := (bind c (λ x, k))
  (at level 10, x pattern, c at level 100, k at level 200, only parsing).
Notation "c ';;' k" := (bind c (λ _, k))
  (at level 100, k at level 200, only parsing).

Definition get {A} (f : Db → A) : M A := λ s, Done (f s) s.
Definition modify (f : Db → Db) : M unit := λ s, Done tt (f s).
Definition throw {A} (message : string) : M A := λ _, Exited (Throw message).
Definition respond {A} (r : Response) : M A := λ _, Exited (Return r).

(** [startSession / startTransaction ... commitTransaction], with the
    [catch] block answering [catch_code]. *)
Definition with_session (catch_code : nat) (body : M Response) (db : Db)
  : Db * Response :=
  match body db with
  | Done r s => (s, r)
  | Exited (Return r) => (db, r)
  | Exited (Throw message) => (db, Json catch_code (Message message))
  end.

(** ** JavaScript helpers *)

(** [!s.trim()]: the string is empty once the white space at both ends is
    removed, that is, it holds white space only (the white space of the
    ASCII range: tab, line feed, vertical tab, form feed, carriage return
    and space). *)
Fixpoint blank (s : string) : bool :=
  match s with
  | EmptyString => true
  | String c r => Ascii.is_space c && blank r
  end.

(** [x || d] on strings: the empty string and [undefined] are falsy. *)
Definition or_string (x : option string) (d : string) : string :=
  match x with
  | Some s => if decide (s = "") then d else s
  | None => d
  end.

(** [x || d] on numbers: [0] and [undefined] are falsy. *)
Definition or_number (x : option Z) (d : Z) : Z :=
  match x with
  | Some n => if decide (n = 0) then d else n
  | None => d
  end.

(** The enum ['income', 'expense'] of [Transaction.tipe] and
    [Category.type]. *)
Definition is_tipe (s : string) : bool :=
  bool_decide (s = "income") || bool_decide (s = "expense").

(** ** Collections *)

Definition fresh_id : M ObjectId :=
  let* n := get next_id in
  modify (set_next_id (S n));;
  ret n.

Definition Account_findById (id : option ObjectId) : M (option Account) :=
  get (λ s, id ≫= λ i, accounts s !! i).

Definition set_balance (b : Z) (a : Account) : Account :=
  {| username := username a; balance := b |}.

(** [Account.findByIdAndUpdate(id, { balance }, { session })]. *)
Definition Account_findByIdAndUpdate (id : ObjectId) (b : Z) : M unit :=
  modify (λ s, set_accounts (alter (set_balance b) id (accounts s)) s).

Definition has_id (id : ObjectId) (t : Transaction) : bool :=
  bool_decide (_id t = id).

Definition Transaction_findById (id : ObjectId) : M (option Transaction) :=
  get (λ s, List.find (has_id id) (transactions s)).

(** [new Transaction({...}).save({ session })]: the schema validators run
    ([id_akun], [tipe], [deskripsi] and [nominal] are required, a required
    string is not empty, [tipe] is in the enum; [nominal] has no range
    validator), then the document is inserted. *)
Definition Transaction_save
    (id_akun' : option ObjectId) (tipe' deskripsi' : option string)
    (nominal' : option Z) (category' : string) (tags' : list string)
  : M Transaction :=
  match id_akun', tipe', deskripsi', nominal' with
  | Some a, Some t, Some d, Some n =>
      if is_tipe t && negb (bool_decide (d = "")) then
        let* id := fresh_id in
        let doc := {| _id := id; id_akun := a; tipe := t; deskripsi := d;
                      nominal := n; category := category'; tags := tags' |} in
        modify (λ s, set_transactions (transactions s ++ [doc]) s);;
        ret doc
      else throw "Transaction validation failed"
  | _, _, _, _ => throw "Transaction validation failed"
  end.

(** A request body of the transaction routes; an absent field is [None]. *)
Record TransactionBody := {
  b_id_akun : option ObjectId;
  b_tipe : option string;
  b_deskripsi : option string;
  b_nominal : option Z;
  b_category : option string;
  b_tags : option (list string)
}.

(** The document after [$set]ting the fields the body carries.  No
    validator runs on this path ([runValidators] is not set). *)
Definition merge_body (body : TransactionBody) (t : Transaction) : Transaction :=
  {| _id := _id t;
     id_akun := default (id_akun t) (b_id_akun body);
     tipe := default (tipe t) (b_tipe body);
     deskripsi := default (deskripsi t) (b_deskripsi body);
     nominal := default (nominal t) (b_nominal body);
     category := default (category t) (b_category body);
     tags := default (tags t) (b_tags body) |}.

Fixpoint replace_first (id : ObjectId) (f : Transaction → Transaction)
    (l : list Transaction) : list Transaction :=
  match l with
  | [] => []
  | t :: r => if has_id id t then f t :: r else t :: replace_first id f r
  end.

Fixpoint remove_first (id : ObjectId) (l : list Transaction) : list Transaction :=
  match l with
  | [] => []
  | t :: r => if has_id id t then r else t :: remove_first id r
  end.

(** [Transaction.findByIdAndUpdate(id, body, { new: true, session })]. *)
Definition Transaction_findByIdAndUpdate (id : ObjectId) (body : TransactionBody)
  : M (option Transaction) :=
  modify (λ s, set_transactions (replace_first id (merge_body body) (transactions s)) s);;
  Transaction_findById id.

Definition Transaction_findByIdAndDelete (id : ObjectId) : M unit :=
  modify (λ s, set_transactions (remove_first id (transactions s)) s).

Definition Category_findOne (k : CategoryKey) : M (option Z) :=
  get (λ s, categories s !! k).

(** [category.save({ session })] on a document that was found: its name
    and type passed the validators when it was created, and only the
    balance changes. *)
Definition Category_save (k : CategoryKey) (b : Z) : M unit :=
  modify (λ s, set_categories (<[k := b]> (categories s)) s).

(** [new Category({...}).save({ session })]: [name] is required, [type] is
    in the enum, and the unique index rejects a second document with the
    same key. *)
Definition Category_create (k : CategoryKey) (b : Z) : M unit :=
  let '(_, name, type) := k in
  if is_tipe type && negb (bool_decide (name = "")) then
    let* existing := Category_findOne k in
    match existing with
    | Some _ => throw "E11000 duplicate key error"
    | None => Category_save k b
    end
  else throw "Category validation failed".

(** ** TransactionController.js *)

Fixpoint updateCategoryBalances_loop (transaction : Transaction) (amount : Z)
    (l : list string) : M unit :=
  match l with
  | [] => ret tt
  | tagName :: rest =>
      if blank tagName then updateCategoryBalances_loop transaction amount rest
      else
        let k := (id_akun transaction, tagName, tipe transaction) in
        let* category := Category_findOne k in
        match category with
        | Some b => Category_save k (b + amount)
        | None => Category_create k amount
        end;;
        updateCategoryBalances_loop transaction amount rest
  end.

Definition updateCategoryBalances (transaction : Transaction)
    (reverseAmount : bool) : M unit :=
  match tags transaction with
  | [] => ret tt
  | _ =>
      let multiplier := if reverseAmount then -1 else 1 in
      let amount := nominal transaction * multiplier in
      updateCategoryBalances_loop transaction amount (tags transaction)
  end.

(** [if (tipe === 'income') b += n; else if (tipe === 'expense') b -= n]. *)
Definition apply_effect (tipe' : string) (n : Z) (b : Z) : Z :=
  if decide (tipe' = "income") then b + n
  else if decide (tipe' = "expense") then b - n
  else b.

(** [if (tipe === 'income') b -= n; else if (tipe === 'expense') b += n]. *)
Definition revert_effect (tipe' : string) (n : Z) (b : Z) : Z :=
  if decide (tipe' = "income") then b - n
  else if decide (tipe' = "expense") then b + n
  else b.

Definition createTransaction (body : TransactionBody) : Db → Db * Response :=
  with_session 400 (
    let* newTransaction :=
      Transaction_save (b_id_akun body) (b_tipe body) (b_deskripsi body)
        (b_nominal body) (or_string (b_category body) "lainnya")
        (default [] (b_tags body)) in
    let* account := Account_findById (b_id_akun body) in
    match account with
    | None => respond (Json 404 (Message "Account not found"))
    | Some account =>
        (* the validators passed: the body holds a tipe and a nominal *)
        let b := apply_effect (default "" (b_tipe body))
                   (default 0 (b_nominal body)) (balance account) in
        Account_findByIdAndUpdate (id_akun newTransaction) b;;
        updateCategoryBalances newTransaction false;;
        ret (Json 201 (TransactionDoc newTransaction))
    end).

Definition updateTransaction (id : ObjectId) (body : TransactionBody)
  : Db → Db * Response :=
  with_session 400 (
    let* originalTransaction := Transaction_findById id in
    match originalTransaction with
    | None => respond (Json 404 (Message "Transaction not found"))
    | Some originalTransaction =>
        let* account := Account_findById (Some (id_akun originalTransaction)) in
        match account with
        | None => respond (Json 404 (Message "Account not found"))
        | Some account =>
            let b1 := revert_effect (tipe originalTransaction)
                        (nominal originalTransaction) (balance account) in
            updateCategoryBalances originalTransaction true;;
            let* updatedTransaction := Transaction_findByIdAndUpdate id body in
            let newTipe := or_string (b_tipe body) (tipe originalTransaction) in
            let newNominal := or_number (b_nominal body) (nominal originalTransaction) in
            let b2 := apply_effect newTipe newNominal b1 in
            Account_findByIdAndUpdate (id_akun originalTransaction) b2;;
            match updatedTransaction with
            | None => throw "Cannot read properties of null"
            | Some updatedTransaction =>
                updateCategoryBalances updatedTransaction false;;
                ret (Json 200 (TransactionDoc updatedTransaction))
            end
        end
    end).

Definition deleteTransaction (id : ObjectId) : Db → Db * Response :=
  with_session 500 (
    let* transaction := Transaction_findById id in
    match transaction with
    | None => respond (Json 404 (Message "Transaction not found"))
    | Some transaction =>
        let* account := Account_findById (Some (id_akun transaction)) in
        match account with
        | None => respond (Json 404 (Message "Account not found"))
        | Some account =>
            let b := revert_effect (tipe transaction) (nominal transaction)
                       (balance account) in
            updateCategoryBalances transaction true;;
            Transaction_findByIdAndDelete id;;
            Account_findByIdAndUpdate (id_akun transaction) b;;
            ret (Json 200 (Message "Transaction deleted successfully"))
        end
    end).

(** ** The Goal schema *)

(** The enum ['active', 'completed', 'paused'] of [Goal.status]. *)
Definition is_status (s : string) : bool :=
  bool_decide (s = "active") || bool_decide (s = "completed")
  || bool_decide (s = "paused").

Definition set_status (st : string) (g : Goal) : Goal :=
  {| user_id := user_id g; title := title g; description := description g;
     target_amount := target_amount g; saved_amount := saved_amount g;
     status := st |}.

Definition set_saved_amount (a : Z) (g : Goal) : Goal :=
  {| user_id := user_id g; title := title g; description := description g;
     target_amount := target_amount g; saved_amount := a;
     status := status g |}.

(** [goalSchema.pre('save', ...)]: the status is promoted to ['completed']
    when the saved amount has reached the target, and left alone
    otherwise. *)
Definition pre_save (g : Goal) : Goal :=
  if bool_decide (target_amount g ≤ saved_amount g)
  then set_status "completed" g
  else g.

(** The validators of the schema: [title] is required, [target_amount] and
    [saved_amount] have [min: 0], [status] is in its enum. *)
Definition Goal_valid (g : Goal) : bool :=
  negb (bool_decide (title g = ""))
  && bool_decide (0 ≤ target_amount g)
  && bool_decide (0 ≤ saved_amount g)
  && is_status (status g).

(** [goal.save(...)]: validation, the [pre('save')] hook, the write. *)
Definition Goal_save (id : ObjectId) (g : Goal) : M unit :=
  if Goal_valid g
  then modify (λ s, set_goals (<[id := pre_save g]> (goals s)) s)
  else throw "Goal validation failed".

Definition Goal_findById (id : ObjectId) : M (option Goal) :=
  get (λ s, goals s !! id).

(** A quotient of amounts is no whole number.  The division and the
    multiplication of [(saved / target) * 100] are those of a JavaScript
    Number, binary64 with rounding to the nearest even, as [SpecFloat]
    computes them. *)
Definition Number : Type := spec_float.

Definition Number_of_Z (z : Z) : Number := binary_normalize 53 1024 z 0 false.

Definition Number_add : Number → Number → Number := SFadd 53 1024.
Definition Number_sub : Number → Number → Number := SFsub 53 1024.
Definition Number_mul : Number → Number → Number := SFmul 53 1024.
Definition Number_div : Number → Number → Number := SFdiv 53 1024.

(** The value of a Number.  An infinite one stands beyond every amount.
    [NaN] has no value; it is the quotient 0 / 0 only, and the code divides
    by a target after checking that it is not 0. *)
Definition Number_value (x : Number) : Q :=
  match x with
  | S754_zero _ | S754_nan => 0%Q
  | S754_infinity s => inject_Z (if s then - 2 ^ 1024 else 2 ^ 1024)
  | S754_finite s m e =>
      let z := if s then Z.neg m else Z.pos m in
      if bool_decide (0 ≤ e) then inject_Z (z * 2 ^ e)
      else Qmake z (Z.to_pos (2 ^ (- e)))
  end.

(** [Math.round]: the nearest integer, the upper one of two that are
    equally near; that is the floor of [x + 1/2]. *)
Definition Math_round (x : Q) : Z := Qfloor (x + (1 # 2))%Q.

(** [(saved / target) * 100]. *)
Definition percentage (saved target : Z) : Q :=
  Number_value
    (Number_mul (Number_div (Number_of_Z saved) (Number_of_Z target))
       (Number_of_Z 100)).

(** [Math.round((saved / target) * 100)]. *)
Definition round_percent (saved target : Z) : Z :=
  Math_round (percentage saved target).

(** The virtual [progress]. *)
Definition progress (g : Goal) : Z :=
  if decide (target_amount g = 0) then 0
  else Z.min (round_percent (saved_amount g) (target_amount g)) 100.


(** ** The goal controller *)

Record GoalBody := {
  g_title : option string;
  g_description : option string;
  g_target_amount : option Z;
  g_saved_amount : option Z;
  g_status : option string
}.

Definition createGoal (userId : ObjectId) (body : GoalBody) (db : Db)
  : Db * Response :=
  match accounts db !! userId with
  | None => (db, Json 404 (Message "User account not found"))
  | Some _ =>
      match g_target_amount body with
      | None => (db, Json 400 (Message "Goal validation failed"))
      | Some target =>
          let goal := {| user_id := userId;
                         title := default "" (g_title body);
                         description := or_string (g_description body) "";
                         target_amount := target;
                         saved_amount := or_number (g_saved_amount body) 0;
                         status := "active" |} in
          match (let* id := fresh_id in Goal_save id goal;; Goal_findById id) db with
          | Done newGoal s => (s, Json 201 (GoalDoc newGoal))
          | Exited (Return r) => (db, r)
          | Exited (Throw message) => (db, Json 400 (Message message))
          end
      end
  end.

(** The update validators ([runValidators: true]) look at the paths the
    body sets. *)
Definition GoalBody_valid (body : GoalBody) : bool :=
  from_option (λ t, negb (bool_decide (t = ""))) true (g_title body)
  && from_option (λ a, bool_decide (0 ≤ a)) true (g_target_amount body)
  && from_option (λ a, bool_decide (0 ≤ a)) true (g_saved_amount body)
  && from_option is_status true (g_status body).

Definition merge_goal (body : GoalBody) (g : Goal) : Goal :=
  {| user_id := user_id g;
     title := default (title g) (g_title body);
     description := default (description g) (g_description body);
     target_amount := default (target_amount g) (g_target_amount body);
     saved_amount := default (saved_amount g) (g_saved_amount body);
     status := default (status g) (g_status body) |}.

(** [Goal.findByIdAndUpdate(id, body, { new: true, runValidators: true })]:
    a query, so the [pre('save')] hook does not run. *)
Definition updateGoal (id : ObjectId) (body : GoalBody) (db : Db)
  : Db * Response :=
  if GoalBody_valid body then
    match goals db !! id with
    | None => (db, Json 404 (Message "Goal not found"))
    | Some g =>
        let updatedGoal := merge_goal body g in
        (set_goals (<[id := updatedGoal]> (goals db)) db,
         Json 200 (GoalDoc (Some updatedGoal)))
    end
  else (db, Json 400 (Message "Validation failed")).

Definition deleteGoal (id : ObjectId) (db : Db) : Db * Response :=
  match goals db !! id with
  | None => (db, Json 404 (Message "Goal not found"))
  | Some _ =>
      (set_goals (delete id (goals db)) db,
       Json 200 (Message "Goal deleted successfully"))
  end.

(** The body of the allocate and withdraw routes.  [Number(body.amount)]
    is [NaN] for an absent or non-numeric amount: that is [None]. *)
Record FundsBody := {
  amount : option Z;
  note : option string;
  create_transaction : bool
}.

Definition toLowerCase_ascii (c : ascii) : ascii :=
  let n := nat_of_ascii c in
  if bool_decide (65 ≤ n)%nat && bool_decide (n ≤ 90)%nat
  then ascii_of_nat (n + 32) else c.

(** [s.toLowerCase().replace(/\s+/g, '-')]; [in_run] says that the
    previous character was white space. *)
Fixpoint slug_from (in_run : bool) (s : string) : string :=
  match s with
  | EmptyString => EmptyString
  | String c r =>
      if Ascii.is_space c
      then (if in_run then slug_from true r else String "-" (slug_from true r))
      else String (toLowerCase_ascii c) (slug_from false r)
  end.

Definition slug (s : string) : string := slug_from false s.

(** [text + (note ? ` - ${note}` : '')]. *)
Definition with_note (text : string) (n : option string) : string :=
  text +:+ match n with
           | Some s => if decide (s = "") then "" else " - " +:+ s
           | None => ""
           end.

Definition allocateFunds (id : ObjectId) (body : FundsBody)
  : Db → Db * Response :=
    with_session 400 (
      let* goal := Goal_findById id in
      match goal with
      | None => respond (Json 404 (Message "Goal not found"))
      | Some goal =>
          match amount body with
          | None => respond (Json 400 (Message "Invalid allocation amount"))
          | Some amount =>
              if bool_decide (amount ≤ 0)
              then respond (Json 400 (Message "Invalid allocation amount"))
              else
                let goal := set_saved_amount (saved_amount goal + amount) goal in
                Goal_save id goal;;
                (if create_transaction body then
                   Transaction_save (Some (user_id goal)) (Some "expense")
                     (Some (with_note ("Goal allocation: " +:+ title goal) (note body)))
                     (Some amount) "savings"
                     ["goal"; "savings"; slug (title goal)];;
                   let* account := Account_findById (Some (user_id goal)) in
                   match account with
                   | Some account =>
                       Account_findByIdAndUpdate (user_id goal)
                         (balance account - amount)
                   | None => ret tt
                   end
                 else ret tt);;
                (* [Goal.findById] after the commit reads what the session wrote *)
                let* updatedGoal := Goal_findById id in
                ret (Json 200 (GoalDoc updatedGoal))
          end
      end).

Definition withdrawFunds (id : ObjectId) (body : FundsBody)
  : Db → Db * Response :=
    with_session 400 (
      let* goal := Goal_findById id in
      match goal with
      | None => respond (Json 404 (Message "Goal not found"))
      | Some goal =>
          match amount body with
          | None => respond (Json 400 (Message "Invalid withdrawal amount"))
          | Some amount =>
              if bool_decide (amount ≤ 0)
              then respond (Json 400 (Message "Invalid withdrawal amount"))
              else if bool_decide (saved_amount goal < amount)
              then respond (Json 400
                     (Insufficient "Withdrawal amount exceeds saved amount"
                        (saved_amount goal)))
              else
                let goal := set_saved_amount (saved_amount goal - amount) goal in
                Goal_save id goal;;
                (if create_transaction body then
                   Transaction_save (Some (user_id goal)) (Some "income")
                     (Some (with_note ("Goal withdrawal: " +:+ title goal) (note body)))
                     (Some amount) "savings"
                     ["goal"; "withdrawal"; slug (title goal)];;
                   let* account := Account_findById (Some (user_id goal)) in
                   match account with
                   | Some account =>
                       Account_findByIdAndUpdate (user_id goal)
                         (balance account + amount)
                   | None => ret tt
                   end
                 else ret tt);;
                (* [Goal.findById] after the commit reads what the session wrote *)
                let* updatedGoal := Goal_findById id in
                ret (Json 200 (GoalDoc updatedGoal))
          end
      end).

(** ** The category controller *)

(** A value of the [tagData] map: [{ name, type, balance }]. *)
Record TagData := {
  td_name : string;
  td_type : string;
  td_balance : Z
}.

(** A JavaScript [Map] with string keys, in insertion order. *)
Definition JsMap (V : Type) : Type := list (string * V).

Fixpoint Map_get {V} (k : string) (m : JsMap V) : option V :=
  match m with
  | [] => None
  | (k', v) :: r => if decide (k' = k) then Some v else Map_get k r
  end.

Definition Map_has {V} (k : string) (m : JsMap V) : bool :=
  bool_decide (is_Some (Map_get k m)).

(** [m.set(k, v)]: a present key keeps its place, a new key goes last. *)
Fixpoint Map_set {V} (k : string) (v : V) (m : JsMap V) : JsMap V :=
  match m with
  | [] => [(k, v)]
  | (k', v') :: r =>
      if decide (k' = k) then (k, v) :: r else (k', v') :: Map_set k v r
  end.

Definition Map_values {V} (m : JsMap V) : list V := m.*2.

(** The body of [transaction.tags.forEach(tag => ...)]. *)
Definition collect_tag (transaction : Transaction) (tagData : JsMap TagData)
    (tag : string) : JsMap TagData :=
  if blank tag then tagData
  else
    let key := tag +:+ "-" +:+ tipe transaction in
    let tagData :=
      if Map_has key tagData then tagData
      else Map_set key {| td_name := tag; td_type := tipe transaction;
                          td_balance := 0 |} tagData in
    match Map_get key tagData with
    | Some data =>
        (* data.balance += transaction.nominal, on the object the map holds *)
        Map_set key {| td_name := td_name data; td_type := td_type data;
                       td_balance := td_balance data + nominal transaction |}
          tagData
    | None => tagData
    end.

(** The body of [transactions.forEach(transaction => ...)]. *)
Definition collect_transaction (tagData : JsMap TagData)
    (transaction : Transaction) : JsMap TagData :=
  foldl (collect_tag transaction) tagData (tags transaction).

Definition collect (l : list Transaction) : JsMap TagData :=
  foldl collect_transaction [] l.

(** The running lists of the [for (const categoryData of tagData.values())]
    loop: [categories], and the lengths of [newCategories] and
    [updatedCategories]. *)
Record Processed := {
  p_categories : list (CategoryKey * Z);
  p_created : nat;
  p_updated : nat
}.

Fixpoint generate_loop (userId : ObjectId) (existingCategories : gmap CategoryKey Z)
    (l : list TagData) (acc : Processed) : M Processed :=
  match l with
  | [] => ret acc
  | categoryData :: rest =>
      let k := (userId, td_name categoryData, td_type categoryData) in
      match existingCategories !! k with
      | Some _ =>
          Category_save k (td_balance categoryData);;
          generate_loop userId existingCategories rest
            {| p_categories := p_categories acc ++ [(k, td_balance categoryData)];
               p_created := p_created acc;
               p_updated := S (p_updated acc) |}
      | None =>
          Category_create k (td_balance categoryData);;
          generate_loop userId existingCategories rest
            {| p_categories := p_categories acc ++ [(k, td_balance categoryData)];
               p_created := S (p_created acc);
               p_updated := p_updated acc |}
      end
  end.

Definition of_account (userId : ObjectId) (t : Transaction) : bool :=
  bool_decide (id_akun t = userId).

Definition generateCategoriesFromTags (userId : ObjectId) : Db → Db * Response :=
  with_session 500 (
    let* transactions := get (λ s, filter (λ t, of_account userId t) (transactions s)) in
    let* existingCategories := get categories in
    let tagData := collect transactions in
    let* done := generate_loop userId existingCategories (Map_values tagData)
                   {| p_categories := []; p_created := 0; p_updated := 0 |} in
    ret (Json 200 (Generated (p_created done) (p_updated done) (p_categories done)))).

(** ** The account controller *)

Definition deleteAccount (id : ObjectId) (db : Db) : Db * Response :=
  match accounts db !! id with
  | None => (db, Json 404 (Message "Account not found"))
  | Some _ =>
      (set_accounts (delete id (accounts db)) db,
       Json 200 (Message "Account deleted successfully"))
  end.

(** ** Requests *)

Inductive Request :=
| CreateTransaction (body : TransactionBody)
| UpdateTransaction (id : ObjectId) (body : TransactionBody)
| DeleteTransaction (id : ObjectId)
| GenerateCategoriesFromTags (userId : ObjectId)
| CreateGoal (userId : ObjectId) (body : GoalBody)
| UpdateGoal (id : ObjectId) (body : GoalBody)
| DeleteGoal (id : ObjectId)
| AllocateFunds (id : ObjectId) (body : FundsBody)
| WithdrawFunds (id : ObjectId) (body : FundsBody)
| DeleteAccount (id : ObjectId).

Definition handle (r : Request) : Db → Db * Response :=
  match r with
  | CreateTransaction body => createTransaction body
  | UpdateTransaction id body => updateTransaction id body
  | DeleteTransaction id => deleteTransaction id
  | GenerateCategoriesFromTags userId => generateCategoriesFromTags userId
  | CreateGoal userId body => createGoal userId body
  | UpdateGoal id body => updateGoal id body
  | DeleteGoal id => deleteGoal id
  | AllocateFunds id body => allocateFunds id body
  | WithdrawFunds id body => withdrawFunds id body
  | DeleteAccount id => deleteAccount id
  end.

(** The database after a sequence of requests, served one after the other. *)
Definition run (l : list Request) (db : Db) : Db :=
  foldl (λ s r, fst (handle r s)) db l.

(** * Specification vocabulary *)

(** [keeps f c]: the computation [c] leaves the component [f] of the staged
    database as it found it. *)
Definition keeps {A B} (f : Db → B) (c : M A) : Prop :=
  ∀ s a s', c s = Done a s' → f s' = f s.

(** Every stored goal passes the validators of its schema. *)
Definition Goals_valid (db : Db) : Prop :=
  ∀ id g, goals db !! id = Some g → Goal_valid g = true.

(** The documents that [allocateFunds] and [withdrawFunds] record when the
    request asks for a transaction. *)
Definition allocation_doc (id : ObjectId) (goal : Goal) (body : FundsBody)
    (a : Z) : Transaction :=
  {| _id := id; id_akun := user_id goal; tipe := "expense";
     deskripsi := with_note ("Goal allocation: " +:+ title goal) (note body);
     nominal := a; category := "savings";
     tags := ["goal"; "savings"; slug (title goal)] |}.

Definition withdrawal_doc (id : ObjectId) (goal : Goal) (body : FundsBody)
    (a : Z) : Transaction :=
  {| _id := id; id_akun := user_id goal; tipe := "income";
     deskripsi := with_note ("Goal withdrawal: " +:+ title goal) (note body);
     nominal := a; category := "savings";
     tags := ["goal"; "withdrawal"; slug (title goal)] |}.

Definition add_balance (delta : Z) (acc : Account) : Account :=
  {| username := username acc; balance := balance acc + delta |}.

(** The database once [doc] is stored and the balance of its account, when
    the account exists, has moved by [delta]. *)
Definition recorded (doc : Transaction) (delta : Z) (s : Db) : Db :=
  set_accounts (alter (add_balance delta) (id_akun doc) (accounts s))
    (set_transactions (transactions s ++ [doc])
       (set_next_id (S (next_id s)) s)).

(** The database once goal [id] is stored as [g]. *)
Definition with_goal (id : ObjectId) (g : Goal) (s : Db) : Db :=
  set_goals (<[id := g]> (goals s)) s.

(** ** Sample data *)

Definition empty_body : TransactionBody :=
  {| b_id_akun := None; b_tipe := None; b_deskripsi := None;
     b_nominal := None; b_category := None; b_tags := None |}.

(** A body that creates a transaction of account 1. *)
Definition new_tx (tipe' : string) (n : Z) (tags' : list string) : TransactionBody :=
  {| b_id_akun := Some 1%nat; b_tipe := Some tipe'; b_deskripsi := Some "belanja";
     b_nominal := Some n; b_category := None; b_tags := Some tags' |}.

Definition empty_goal_body : GoalBody :=
  {| g_title := None; g_description := None; g_target_amount := None;
     g_saved_amount := None; g_status := None |}.

Definition new_goal (title' : string) (target : Z) : GoalBody :=
  {| g_title := Some title'; g_description := None;
     g_target_amount := Some target; g_saved_amount := None;
     g_status := None |}.

Definition saved_body (a : Z) : GoalBody :=
  {| g_title := None; g_description := None; g_target_amount := None;
     g_saved_amount := Some a; g_status := None |}.

Definition funds (a : Z) (record : bool) : FundsBody :=
  {| amount := Some a; note := None; create_transaction := record |}.

Definition nominal_body (n : Z) : TransactionBody :=
  {| b_id_akun := None; b_tipe := None; b_deskripsi := None;
     b_nominal := Some n; b_category := None; b_tags := None |}.

Definition tipe_body (t : string) : TransactionBody :=
  {| b_id_akun := None; b_tipe := Some t; b_deskripsi := None;
     b_nominal := None; b_category := None; b_tags := None |}.

(** A body that repeats the kind and the amount and replaces the tags. *)
Definition retag_body (t : string) (n : Z) (tags' : list string) : TransactionBody :=
  {| b_id_akun := None; b_tipe := Some t; b_deskripsi := None;
     b_nominal := Some n; b_category := None; b_tags := Some tags' |}.

(** One account with balance [b], no transaction, no category, no goal. *)
Definition fresh_db (b : Z) : Db :=
  {| accounts := {[ 1%nat := {| username := "budi"; balance := b |} ]};
     transactions := []; categories := ∅; goals := ∅; next_id := 10%nat |}.

(** The sum of [w t] over the stored transactions [t]. *)
Definition total (w : Transaction → Z) (l : list Transaction) : Z :=
  foldr (λ t acc, w t + acc) 0 l.

(** ** Category arithmetic *)

(** The balance of the category [k], [0] when no document is stored. *)
Definition balance_of (c : gmap CategoryKey Z) (k : CategoryKey) : Z :=
  default 0 (c !! k).

(** Find-or-create, then add [amt]. *)
Definition upsert (k : CategoryKey) (amt : Z) (c : gmap CategoryKey Z)
  : gmap CategoryKey Z :=
  <[k := balance_of c k + amt]> c.

(** The categories after the loop of [updateCategoryBalances] over the tags
    [l] of a transaction of account [u] and kind [ty]. *)
Definition apply_tags (u : ObjectId) (ty : string) (amt : Z) (l : list string)
    (c : gmap CategoryKey Z) : gmap CategoryKey Z :=
  foldl (λ c tag, if blank tag then c else upsert (u, tag, ty) amt c) c l.

(** How many times [name] occurs in a list of tags. *)
Definition occurrences (name : string) (l : list string) : Z :=
  Z.of_nat (length (filter (λ tag, tag = name) l)).

(** What the transaction [t] adds to the category [k]: its [nominal] once
    per occurrence of the (non-blank) name of [k] among its tags, when the
    account and the kind agree. *)
Definition contribution (t : Transaction) (k : CategoryKey) : Z :=
  let '(u, name, ty) := k in
  if bool_decide (id_akun t = u) && bool_decide (tipe t = ty) && negb (blank name)
  then nominal t * occurrences name (tags t)
  else 0.

(** The sum of the contributions of the stored transactions. *)
Definition tag_total (l : list Transaction) (k : CategoryKey) : Z :=
  total (λ t, contribution t k) l.

(** ** Ledger vocabulary *)

(** The database with the three ledger collections and the id counter
    replaced; the goals stay. *)
Definition ledger (a : gmap ObjectId Account) (l : list Transaction)
    (c : gmap CategoryKey Z) (n : ObjectId) (db : Db) : Db :=
  {| accounts := a; transactions := l; categories := c;
     goals := goals db; next_id := n |}.

(** The document [createTransaction] builds from a valid body. *)
Definition new_doc (id u : ObjectId) (t d : string) (n : Z)
    (body : TransactionBody) : Transaction :=
  {| _id := id; id_akun := u; tipe := t; deskripsi := d; nominal := n;
     category := or_string (b_category body) "lainnya";
     tags := default [] (b_tags body) |}.

(** The categories once the effect of [t] is absorbed ([sign = 1]) or
    reversed ([sign = -1]). *)
Definition absorb (t : Transaction) (sign : Z) (c : gmap CategoryKey Z)
  : gmap CategoryKey Z :=
  apply_tags (id_akun t) (tipe t) (nominal t * sign) (tags t) c.

(** The kind and the amount that [updateTransaction] applies to the balance. *)
Definition newTipe (body : TransactionBody) (orig : Transaction) : string :=
  or_string (b_tipe body) (tipe orig).

Definition newNominal (body : TransactionBody) (orig : Transaction) : Z :=
  or_number (b_nominal body) (nominal orig).

Definition find_tx (id : ObjectId) (db : Db) : option Transaction :=
  List.find (has_id id) (transactions db).

(** The handler answered something else than [code'] and left the database
    as it was. *)
Definition rejected (code' : nat) (db : Db) (out : Db * Response) : Prop :=
  fst out = db ∧ code (snd out) ≠ code'.

(** ** The rules the claims state *)

(** The rejection rule for [createTransaction]: a body whose amount is not
    strictly positive, or whose kind is outside the enum, is answered 400
    and nothing is persisted or changed. *)
Definition create_rejects_bad_input (body : TransactionBody) (db : Db) : Prop :=
  (¬ (∃ n, b_nominal body = Some n ∧ 0 < n)
   ∨ ¬ (∃ t, b_tipe body = Some t ∧ is_tipe t = true)) →
  code (snd (createTransaction body db)) = 400%nat
  ∧ transactions (fst (createTransaction body db)) = transactions db
  ∧ accounts (fst (createTransaction body db)) = accounts db
  ∧ categories (fst (createTransaction body db)) = categories db.

(** Every account keeps its balance and every stored category keeps its
    balance, from [db] to [s]. *)
Definition balances_kept (db s : Db) : Prop :=
  (∀ u acc, accounts db !! u = Some acc →
            ∃ acc', accounts s !! u = Some acc' ∧ balance acc' = balance acc)
  ∧ (∀ k b, categories db !! k = Some b → categories s !! k = Some b).

(** The body leaves a field alone: it does not carry it, or carries the
    stored value. *)
Definition kept {A} (x : option A) (v : A) : Prop := x = None ∨ x = Some v.

(** Update idempotence as the claim states it: an update with identical
    kind and amount keeps every balance. *)
Definition update_idempotent (db : Db) (id : ObjectId) (body : TransactionBody)
    (orig : Transaction) : Prop :=
  find_tx id db = Some orig →
  kept (b_tipe body) (tipe orig) → kept (b_nominal body) (nominal orig) →
  balances_kept db (fst (updateTransaction id body db)).

(** Atomicity of [allocateFunds] with a transaction record, as the claim
    states it: nothing changes, or the goal, the expense record, the
    balance of the goal's account and the categories of the record's tags
    all change together. *)
Definition all_or_nothing (db : Db) (id : ObjectId) (body : FundsBody) : Prop :=
  let s := fst (allocateFunds id body db) in
  s = db
  ∨ ∃ g a doc acc,
      goals db !! id = Some g ∧ amount body = Some a
      ∧ (∃ g', goals s !! id = Some g'
               ∧ saved_amount g' = saved_amount g + a)
      ∧ transactions s = transactions db ++ [doc]
      ∧ tipe doc = "expense" ∧ nominal doc = a ∧ id_akun doc = user_id g
      ∧ accounts db !! user_id g = Some acc
      ∧ (∃ acc', accounts s !! user_id g = Some acc'
                 ∧ balance acc' = balance acc - a)
      ∧ categories s = absorb doc 1 (categories db).

(** ** Balance conservation *)

(** The signed amount of a transaction: [+nominal] for an income,
    [-nominal] for an expense. *)
Definition signed (t : Transaction) : Z := apply_effect (tipe t) (nominal t) 0.

(** The sum of the signed amounts of the transactions of account [u]. *)
Definition ledger_sum (u : ObjectId) (l : list Transaction) : Z :=
  total (λ t, if decide (id_akun t = u) then signed t else 0) l.

(** Every account's balance is the signed sum of its transactions. *)
Definition balanced (db : Db) : Prop :=
  ∀ u acc, accounts db !! u = Some acc →
           balance acc = ledger_sum u (transactions db).

(** An update body that neither moves the transaction to another account
    nor carries a falsy kind or amount. *)
Definition plain_update (body : TransactionBody) : Prop :=
  b_id_akun body = None ∧ b_nominal body ≠ Some 0 ∧ b_tipe body ≠ Some "".

(** The requests under which the balances are conserved: all of them,
    the updates being plain. *)
Definition conserving (r : Request) : Prop :=
  match r with
  | UpdateTransaction _ body => plain_update body
  | _ => True
  end.

(** ** Category totals *)



(** The sum the code maintains: the [nominal] once per occurrence of the
    name among the tags. *)
Definition tagged_sum (l : list Transaction) (k : CategoryKey) : Z :=
  total (λ t, if bool_decide (id_akun t = k.1.1) && bool_decide (tipe t = k.2)
              then nominal t * occurrences k.1.2 (tags t) else 0) l.

(** The invariant of the incremental category updates. *)
Definition Categories_invariant (db : Db) : Prop :=
  (∀ k, balance_of (categories db) k = tag_total (transactions db) k)
  ∧ (∀ k, is_Some (categories db !! k) → blank k.1.2 = false).

(** The requests of the ledger that stay within [TransactionController]:
    allocations and withdrawals may not record a transaction, and the
    rebuild is left out. *)
Definition incremental (r : Request) : Prop :=
  match r with
  | AllocateFunds _ body | WithdrawFunds _ body => create_transaction body = false
  | GenerateCategoriesFromTags _ => False
  | _ => True
  end.

(** ** Rebuild vocabulary *)

Definition category_key (u : ObjectId) (d : TagData) : CategoryKey :=
  (u, td_name d, td_type d).

(** The categories once every entry of [l] has overwritten its document. *)
Definition overwrite (u : ObjectId) (l : list TagData)
    (c : gmap CategoryKey Z) : gmap CategoryKey Z :=
  foldl (λ c d, <[category_key u d := td_balance d]> c) c l.

(** The values of [tagData] for the account [u]. *)
Definition rebuilt (u : ObjectId) (db : Db) : list TagData :=
  Map_values (collect (filter (λ t, of_account u t) (transactions db))).

(** The key of [tagData] for a tag and a kind: [`${tag}-${tipe}`]. *)
Definition tag_key (tag ty : string) : string := tag +:+ "-" +:+ ty.

(** One step of the scan of [generateCategoriesFromTags]: the tag [tag] of
    a transaction of kind [ty] and amount [n]. *)
Definition Occurrence : Type := string * string * Z.

Definition occurrence_key (o : Occurrence) : string := tag_key o.1.1 o.1.2.

Definition occurrences_of (t : Transaction) : list Occurrence :=
  (λ tag, (tag, tipe t, nominal t)) <$> filter (λ tag, blank tag = false) (tags t).

(** What the scan does with one occurrence. *)
Definition collect_occurrence (tagData : JsMap TagData) (o : Occurrence)
  : JsMap TagData :=
  let key := occurrence_key o in
  Map_set key
    (match Map_get key tagData with
     | Some data => {| td_name := td_name data; td_type := td_type data;
                       td_balance := td_balance data + o.2 |}
     | None => {| td_name := o.1.1; td_type := o.1.2; td_balance := 0 + o.2 |}
     end) tagData.

(** The sum of the amounts of the occurrences filed under [key]. *)
Definition key_sum (os : list Occurrence) (key : string) : Z :=
  foldr (λ o acc, (if decide (occurrence_key o = key) then o.2 else 0) + acc) 0 os.

(** The invariant of the scan: [m] is [tagData] after the occurrences
    [os]. *)
Definition Scanned (m : JsMap TagData) (os : list Occurrence) : Prop :=
  NoDup m.*1
  ∧ (∀ key d, Map_get key m = Some d →
       key = tag_key (td_name d) (td_type d)
       ∧ td_balance d = key_sum os key
       ∧ ∃ n, (td_name d, td_type d, n) ∈ os)
  ∧ (∀ o, o ∈ os → is_Some (Map_get (occurrence_key o) m)).

(** Every transaction of the account [u] has a kind of the enum. *)
Definition kinds_valid (u : ObjectId) (db : Db) : Prop :=
  ∀ t, t ∈ transactions db → id_akun t = u → is_tipe (tipe t) = true.

(** The name [name] is a tag, under the kind [ty], of a transaction of the
    account [u]. *)
Definition tagged (u : ObjectId) (name ty : string) (db : Db) : Prop :=
  ∃ t, t ∈ transactions db ∧ id_akun t = u ∧ tipe t = ty
       ∧ name ∈ tags t ∧ blank name = false.

(** ** Whole amounts

    The handlers add and subtract amounts as JavaScript Numbers.  On whole
    numbers of at most 2^53 in absolute value these operations are exact:
    they are the addition and the subtraction of [Z].  On other amounts
    they round, and a sum taken apart again need not give back what it was
    made of.  The properties that rest on several such operations
    cancelling each other are stated for whole amounts within bounds. *)

(** The bound on a stored amount: any three such amounts add up to less
    than 2^53. *)
Definition small (x : Z) : bool := bool_decide (Z.abs x ≤ 2 ^ 51).

(** What a transaction moves at most: its amount, once on the account and
    once for each of its tags. *)
Definition weight (t : Transaction) : Z :=
  Z.abs (nominal t) * (1 + Z.of_nat (length (tags t))).

(** The amounts of the database are within bounds: the balance of every
    account and of every category, the two amounts of every goal, and the
    weights of the transactions taken together. *)
Definition whole_units (db : Db) : bool :=
  forallb (λ p, small (balance p.2)) (map_to_list (accounts db))
  && forallb (λ p, small p.2) (map_to_list (categories db))
  && small (total weight (transactions db))
  && forallb (λ p, small (target_amount p.2) && small (saved_amount p.2))
       (map_to_list (goals db)).

(** The databases a sequence of requests goes through, the first one
    included. *)
Fixpoint trace (reqs : list Request) (db : Db) : list Db :=
  db :: match reqs with
        | [] => []
        | r :: reqs => trace reqs (fst (handle r db))
        end.

(** * The read handlers

    The handlers that answer without writing.  Their [catch] blocks answer
    500 on a storage failure, which the model does not have. *)

Inductive Reply (A : Type) :=
| Sent (code : nat) (body : A)
| Failed (code : nat) (message : string).
Arguments Sent {A} code body.
Arguments Failed {A} code message.

(** ** TransactionController.js *)

Definition getAllTransactions (db : Db) : Reply (list Transaction) :=
  Sent 200 (transactions db).

Definition getTransactionById (id : ObjectId) (db : Db) : Reply Transaction :=
  match List.find (has_id id) (transactions db) with
  | None => Failed 404 "Transaction not found"
  | Some transaction => Sent 200 transaction
  end.

Definition getTransactionsByAccount (accountId : ObjectId) (db : Db)
  : Reply (list Transaction) :=
  Sent 200 (filter (λ t, of_account accountId t) (transactions db)).

(** ** accountController.js *)

Definition getAccountById (id : ObjectId) (db : Db) : Reply Account :=
  match accounts db !! id with
  | None => Failed 404 "Account not found"
  | Some account => Sent 200 account
  end.

(** The body of the answer is [{ balance: account.balance }]. *)
Definition getAccountBalance (id : ObjectId) (db : Db) : Reply Z :=
  match accounts db !! id with
  | None => Failed 404 "Account not found"
  | Some account => Sent 200 (balance account)
  end.

(** ** The goal controller *)

Definition getGoalById (id : ObjectId) (db : Db) : Reply Goal :=
  match goals db !! id with
  | None => Failed 404 "Goal not found"
  | Some goal => Sent 200 goal
  end.

(** The order of insertion of two goals: the order of their ids, which
    were drawn from the counter. *)
Definition inserted_before (p q : ObjectId * Goal) : Prop := (p.1 ≤ q.1)%nat.

#[global] Instance inserted_before_dec p q : Decision (inserted_before p q).
Proof. unfold inserted_before. apply _. Defined.

(** [Goal.find({ user_id: userId })]: the goals of the user, with their
    ids, in the order of their insertion. *)
Definition Goal_find (userId : ObjectId) (db : Db) : list (ObjectId * Goal) :=
  filter (λ p, user_id p.2 = userId)
    (merge_sort inserted_before (map_to_list (goals db))).

Definition getUserGoals (userId : ObjectId) (db : Db) : Reply (list (ObjectId * Goal)) :=
  Sent 200 (Goal_find userId db).






(** ** The category controller: manual categories *)

(** A Category document, by its key and its balance. *)
Definition CategoryDoc : Type := (ObjectId * string * string) * Z.

(** [Category.find({ user_id: userId })]. *)
Definition Category_find (userId : ObjectId) (db : Db) : list CategoryDoc :=
  filter (λ p, p.1.1.1 = userId) (map_to_list (categories db)).


Record CategoryBody := {
  c_name : option string;
  c_type : option string;
  c_balance : option Z
}.

(** [createCategory] opens no session: the one [category.save()] is the
    only write.  The error of the unique index carries the code 11000;
    [Category_create] only completes or throws, never answers by itself. *)
Definition createCategory (userId : ObjectId) (body : CategoryBody) (db : Db)
  : Db * Reply CategoryDoc :=
  let key := (userId, default "" (c_name body), default "" (c_type body)) in
  let balance := or_number (c_balance body) 0 in
  match Category_create key balance db with
  | Done _ s => (s, Sent 201 (key, balance))
  | Exited (Throw message) =>
      if decide (message = "E11000 duplicate key error")
      then (db, Failed 400
                  "A category with this name already exists for this user and type")
      else (db, Failed 400 message)
  | Exited (Return _) => (db, Failed 400 "")
  end.


Definition deleteCategory (id : ObjectId * string * string) (db : Db)
  : Db * Reply string :=
  match categories db !! id with
  | None => (db, Failed 404 "Category not found")
  | Some _ =>
      (set_categories (delete id (categories db)) db,
       Sent 200 "Category deleted successfully")
  end.

(** ** The category controller: the summary *)

(** A document of the aggregation after [$group] and [$project]. *)
Record Group := {
  gr_name : string;
  gr_type : string;
  gr_count : Z;
  gr_total : Z
}.

(** [$unwind: '$tags']: one document per element of [tags], none for a
    transaction without tags; blank tags are not skipped here. *)
Definition unwind (t : Transaction) : list Occurrence :=
  (λ tag, (tag, tipe t, nominal t)) <$> tags t.

(** [$group] by (tag, kind), with [count: { $sum: 1 }] and
    [total: { $sum: '$nominal' }]: the document [o] joins its group, or
    opens one.  The order of the groups is the one of their first
    document; the server promises none. *)
Fixpoint group_add (o : Occurrence) (groups : list Group) : list Group :=
  match groups with
  | [] => [{| gr_name := o.1.1; gr_type := o.1.2; gr_count := 1; gr_total := o.2 |}]
  | g :: rest =>
      if decide (gr_name g = o.1.1 ∧ gr_type g = o.1.2)
      then {| gr_name := gr_name g; gr_type := gr_type g;
              gr_count := gr_count g + 1; gr_total := gr_total g + o.2 |} :: rest
      else g :: group_add o rest
  end.

Definition aggregate (userId : ObjectId) (db : Db) : list Group :=
  foldl (λ groups o, group_add o groups) []
    (filter (λ t, of_account userId t) (transactions db) ≫= unwind).

(** An entry of the answer: the group, the Category of its name and type
    when there is one (the document is known by its key), and
    [existingCategory?.balance || item.total]. *)
Record SummaryItem := {
  si_name : string;
  si_type : string;
  si_count : Z;
  si_total : Z;
  si_id : option (ObjectId * string * string);
  si_balance : Z
}.

Definition summary_item (categories : list CategoryDoc) (item : Group)
  : SummaryItem :=
  let existingCategory :=
    List.find (λ c, bool_decide (c.1.1.2 = gr_name item)
                    && bool_decide (c.1.2 = gr_type item)) categories in
  {| si_name := gr_name item; si_type := gr_type item;
     si_count := gr_count item; si_total := gr_total item;
     si_id := fst <$> existingCategory;
     si_balance := or_number (snd <$> existingCategory) (gr_total item) |}.

Definition getCategorySummary (userId : ObjectId) (db : Db)
  : Reply (list SummaryItem) :=
  let categories := Category_find userId db in
  let summary := aggregate userId db in
  Sent 200 (summary_item categories <$> summary).

(** ** scripts/setupDefaultGoals.js *)

(** The goal the script builds for an account: [status] takes its schema
    default. *)
Definition default_goal (id : ObjectId) (account : Account) : Goal :=
  let suggestedTarget := Z.max (balance account * 3) 10000000 in
  {| user_id := id;
     title := "Dana Darurat";
     description := "Dana darurat untuk kebutuhan mendesak, disarankan sebesar 6x pengeluaran bulanan";
     target_amount := suggestedTarget;
     saved_amount := 0;
     status := "active" |}.

(** [Goal.countDocuments({ user_id: id })]. *)
Definition Goal_countDocuments (id : ObjectId) (s : Db) : nat :=
  length (Goal_find id s).

(** The loop over the accounts.  The script opens no session: each
    [goal.save()] is committed at once, and an error leaves what was saved
    before it; the [catch] block only logs, which is the result [None]. *)
Fixpoint setupDefaultGoals_loop (accounts : list (ObjectId * Account))
    (created skipped : nat) (s : Db) : Db * option (nat * nat) :=
  match accounts with
  | [] => (s, Some (created, skipped))
  | (id, account) :: rest =>
      let existingGoals := Goal_countDocuments id s in
      if decide (existingGoals = 0%nat) then
        match (let* goal_id := fresh_id in
               Goal_save goal_id (default_goal id account)) s with
        | Done _ s' => setupDefaultGoals_loop rest (S created) skipped s'
        | Exited _ => (s, None)
        end
      else setupDefaultGoals_loop rest created (S skipped) s
  end.

(** The script: the database it leaves and the counts [created] and
    [skipped] of its last log line. *)
Definition setupDefaultGoals (db : Db) : Db * option (nat * nat) :=
  setupDefaultGoals_loop (map_to_list (accounts db)) 0 0 db.

(** * Vocabulary of the further properties *)

(** The transaction carries a tag that is not blank. *)
Definition has_tag (t : Transaction) : Prop :=
  ∃ tag, tag ∈ tags t ∧ blank tag = false.

(** The kinds the category step enforces: every stored category has a type
    of the enum and a name that is not blank, and every stored transaction
    with a non-blank tag has a kind of the enum. *)
Definition Kinds_invariant (db : Db) : Prop :=
  (∀ k, is_Some (categories db !! k) → is_tipe k.2 = true ∧ blank k.1.2 = false)
  ∧ (∀ t, t ∈ transactions db → has_tag t → is_tipe (tipe t) = true).

(** The kinds the category step relies on: every stored category has a
    type of the enum, and every stored transaction with a non-blank tag has
    a kind of the enum. *)
Definition Types_invariant (db : Db) : Prop :=
  (∀ k, is_Some (categories db !! k) → is_tipe k.2 = true)
  ∧ (∀ t, t ∈ transactions db → has_tag t → is_tipe (tipe t) = true).

(** The requests that write: those of [Request], and the two manual
    category routes embedded here.  [updateCategory], [createAccount] and
    [updateAccount] are not among them. *)
Inductive ApiRequest :=
| Ledger (r : Request)
| CreateCategory (userId : ObjectId) (body : CategoryBody)
| DeleteCategory (id : ObjectId * string * string).

Definition api_handle (r : ApiRequest) (db : Db) : Db :=
  match r with
  | Ledger r => fst (handle r db)
  | CreateCategory userId body => fst (createCategory userId body db)
  | DeleteCategory id => fst (deleteCategory id db)
  end.

Definition api_run (l : list ApiRequest) (db : Db) : Db :=
  foldl (λ s r, api_handle r s) db l.

(** The characters of the string are ASCII characters. *)
Definition ascii_only (s : string) : bool :=
  forallb (λ c, bool_decide (nat_of_ascii c < 128)%nat)
    (String.list_ascii_of_string s).

(** The account [u] owns a goal. *)
Definition has_goal (u : ObjectId) (db : Db) : Prop :=
  ∃ id g, goals db !! id = Some g ∧ user_id g = u.

(** The ids of the stored goals were drawn from the counter. *)
Definition goal_ids_drawn (db : Db) : Prop :=
  ∀ id, is_Some (goals db !! id) → (id < next_id db)%nat.

(** The sum of the amounts, and the number, of the unwound documents of
    the group ([name], [ty]). *)
Definition group_sum (os : list Occurrence) (name ty : string) : Z :=
  foldr (λ o acc, (if decide (o.1.1 = name ∧ o.1.2 = ty) then o.2 else 0) + acc)
    0 os.

Definition group_count (os : list Occurrence) (name ty : string) : Z :=
  foldr (λ o acc, (if decide (o.1.1 = name ∧ o.1.2 = ty) then 1 else 0) + acc)
    0 os.

(** The group ([name], [ty]) among the groups. *)
Definition find_group (name ty : string) (groups : list Group) : option Group :=
  List.find (λ g, bool_decide (gr_name g = name) && bool_decide (gr_type g = ty))
    groups.

(** The invariant of [$group]: [groups] holds one group for each (tag,
    kind) of the documents [os], with their number and their sum. *)
Definition Grouped (groups : list Group) (os : list Occurrence) : Prop :=
  NoDup ((λ g, (gr_name g, gr_type g)) <$> groups)
  ∧ ∀ name ty,
      find_group name ty groups
      = if decide (group_count os name ty = 0) then None
        else Some {| gr_name := name; gr_type := ty;
                     gr_count := group_count os name ty;
                     gr_total := group_sum os name ty |}.

(** How many times the transactions of [u] of kind [ty] carry the tag
    [name]. *)
Definition tagged_count (l : list Transaction) (k : ObjectId * string * string) : Z :=
  total (λ t, if bool_decide (id_akun t = k.1.1) && bool_decide (tipe t = k.2)
              then occurrences k.1.2 (tags t) else 0) l.


(** * Properties *)

(** ** Frame reasoning for the session monad *)

Section Frame.
Context {B : Type} (f : Db → B).

Lemma keeps_ret {A} (a : A) : keeps f (ret a).
Proof. intros s a' s' H. by inversion H. Qed.

Lemma keeps_get {A} (g : Db → A) : keeps f (get g).
Proof. intros s a' s' H. by inversion H. Qed.

Lemma keeps_throw {A} m : keeps f (throw (A:=A) m).
Proof. intros s a' s' H. inversion H. Qed.

Lemma keeps_respond {A} r : keeps f (respond (A:=A) r).
Proof. intros s a' s' H. inversion H. Qed.

Lemma keeps_modify (g : Db → Db) :
  (∀ s, f (g s) = f s) → keeps f (modify g).
Proof. intros Hg s a' s' H. inversion H. apply Hg. Qed.

Lemma keeps_bind {A A'} (c : M A) (k : A → M A') :
  keeps f c → (∀ a, keeps f (k a)) → keeps f (bind c k).
Proof.
  intros Hc Hk s b s'. unfold bind.
  destruct (c s) as [a s1|e] eqn:E; [|done].
  intros H. rewrite (Hk a _ _ _ H). eauto.
Qed.

(** A handler keeps what the body of its session keeps: an aborted
    session leaves the database as it was. *)
Lemma keeps_session code' body db :
  keeps f body → f (fst (with_session code' body db)) = f db.
Proof.
  intros H. unfold with_session.
  destruct (body db) as [r s|[r|m]] eqn:E; simpl; eauto.
Qed.

End Frame.

Create HintDb keeps.
#[local] Hint Resolve keeps_ret keeps_get keeps_throw keeps_respond : keeps.

Ltac keeps_step :=
  match goal with
  | |- keeps _ (bind _ _) => apply keeps_bind; [|intros ?]
  | |- keeps _ (match ?x with _ => _ end) => destruct x
  | |- keeps _ (modify _) =>
      apply keeps_modify; intros ?; first [reflexivity | solve [eauto]]
  | |- keeps _ _ => solve [auto with keeps]
  | |- keeps _ _ =>
      progress unfold fresh_id, Account_findById, Account_findByIdAndUpdate,
        Transaction_findById, Transaction_findByIdAndUpdate,
        Transaction_findByIdAndDelete, Transaction_save,
        Category_findOne, Category_save, Category_create,
        Goal_findById, Goal_save
  end.

Ltac keeps_tac := repeat keeps_step.

(** The category loops touch the categories only. *)
Lemma keeps_loop {B} (f : Db → B) t amt l :
  (∀ c s, f (set_categories c s) = f s) →
  keeps f (updateCategoryBalances_loop t amt l).
Proof.
  intros Hf. induction l as [|tag l IH]; simpl; [auto with keeps|].
  destruct (blank tag); [done|]. keeps_tac; done.
Qed.

Lemma keeps_updateCategoryBalances {B} (f : Db → B) t rev :
  (∀ c s, f (set_categories c s) = f s) →
  keeps f (updateCategoryBalances t rev).
Proof.
  intros Hf. unfold updateCategoryBalances. destruct (tags t); [auto with keeps|].
  by apply keeps_loop.
Qed.

Lemma keeps_goals_updateCategoryBalances t rev :
  keeps goals (updateCategoryBalances t rev).
Proof. by apply keeps_updateCategoryBalances. Qed.

#[local] Hint Resolve keeps_goals_updateCategoryBalances : keeps.

Lemma goals_createTransaction body db :
  goals (fst (createTransaction body db)) = goals db.
Proof. apply keeps_session. keeps_tac. Qed.

Lemma goals_updateTransaction id body db :
  goals (fst (updateTransaction id body db)) = goals db.
Proof. apply keeps_session. keeps_tac. Qed.

Lemma goals_deleteTransaction id db :
  goals (fst (deleteTransaction id db)) = goals db.
Proof. apply keeps_session. keeps_tac. Qed.

Lemma keeps_generate_loop {B} (f : Db → B) u ex l acc :
  (∀ c s, f (set_categories c s) = f s) →
  keeps f (generate_loop u ex l acc).
Proof.
  intros Hf. revert acc.
  induction l as [|d l IH]; intros acc; simpl; [auto with keeps|].
  keeps_tac; done.
Qed.

(** The rebuild touches the categories only. *)
Lemma generateCategoriesFromTags_frame {B} (f : Db → B) u db :
  (∀ c s, f (set_categories c s) = f s) →
  f (fst (generateCategoriesFromTags u db)) = f db.
Proof.
  intros Hf. apply keeps_session. keeps_tac. by apply keeps_generate_loop.
Qed.

Lemma goals_generateCategoriesFromTags u db :
  goals (fst (generateCategoriesFromTags u db)) = goals db.
Proof. by apply generateCategoriesFromTags_frame. Qed.

(** ** Goals: validity of the stored documents *)

Lemma Goal_valid_inv g :
  Goal_valid g = true →
  title g ≠ "" ∧ 0 ≤ target_amount g ∧ 0 ≤ saved_amount g
  ∧ is_status (status g) = true.
Proof.
  unfold Goal_valid. rewrite !andb_true_iff, negb_true_iff.
  rewrite !bool_decide_eq_true, bool_decide_eq_false. tauto.
Qed.

Lemma Goal_valid_intro g :
  title g ≠ "" → 0 ≤ target_amount g → 0 ≤ saved_amount g →
  is_status (status g) = true → Goal_valid g = true.
Proof.
  intros. unfold Goal_valid. rewrite !andb_true_iff, negb_true_iff.
  rewrite !bool_decide_eq_true, bool_decide_eq_false. tauto.
Qed.

Lemma Goal_valid_pre_save g : Goal_valid g = true → Goal_valid (pre_save g) = true.
Proof.
  intros (? & ? & ? & ?)%Goal_valid_inv. unfold pre_save.
  case_bool_decide; [|by apply Goal_valid_intro].
  by apply Goal_valid_intro.
Qed.

Lemma Goal_valid_set_saved_amount g a :
  Goal_valid g = true → 0 ≤ a → Goal_valid (set_saved_amount a g) = true.
Proof.
  intros (? & ? & ? & ?)%Goal_valid_inv ?. by apply Goal_valid_intro.
Qed.

Lemma Goal_valid_merge body g :
  GoalBody_valid body = true → Goal_valid g = true →
  Goal_valid (merge_goal body g) = true.
Proof.
  unfold GoalBody_valid. rewrite !andb_true_iff.
  intros [[[Ht Hta] Hs] Hst] (? & ? & ? & ?)%Goal_valid_inv.
  apply Goal_valid_intro; simpl.
  - destruct (g_title body); simpl in *; [|done].
    by apply negb_true_iff, bool_decide_eq_false in Ht.
  - destruct (g_target_amount body); simpl in *; [|done].
    by apply bool_decide_eq_true in Hta.
  - destruct (g_saved_amount body); simpl in *; [|done].
    by apply bool_decide_eq_true in Hs.
  - by destruct (g_status body).
Qed.

Lemma Goals_valid_insert db id g :
  Goals_valid db → Goal_valid g = true →
  ∀ s, goals s = <[id := g]> (goals db) → Goals_valid s.
Proof.
  intros Hdb Hg s Hs i g'. rewrite Hs, lookup_insert.
  case_decide; [by intros [= <-]|]. apply Hdb.
Qed.

Lemma Goals_valid_same db s : Goals_valid db → goals s = goals db → Goals_valid s.
Proof. intros Hdb Hs i g. rewrite Hs. apply Hdb. Qed.


(** ** Goals: what allocate and withdraw compute *)

Lemma alter_balance_const (m : gmap ObjectId Account) u acc b delta :
  m !! u = Some acc → b = balance acc + delta →
  alter (set_balance b) u m = alter (add_balance delta) u m.
Proof.
  intros Hu ->. apply map_eq. intros i. rewrite !lookup_alter.
  case_decide; [subst; by rewrite Hu|done].
Qed.

Lemma alter_absent (m : gmap ObjectId Account) u f :
  m !! u = None → alter f u m = m.
Proof.
  intros Hu. apply map_eq. intros i. rewrite lookup_alter.
  case_decide; [subst; by rewrite Hu|done].
Qed.

Ltac run_session :=
  cbv beta iota zeta delta
    [with_session bind ret get modify throw respond fresh_id
     Goal_findById Goal_save Transaction_save Account_findById
     Account_findByIdAndUpdate Transaction_findById
     Transaction_findByIdAndUpdate Transaction_findByIdAndDelete
     Category_findOne Category_save Category_create].

Lemma prefixed_note_not_empty c text t n : with_note (String c text +:+ t) n ≠ "".
Proof. done. Qed.

Lemma allocateFunds_commit db id body g a :
  goals db !! id = Some g → amount body = Some a → 0 < a →
  Goal_valid (set_saved_amount (saved_amount g + a) g) = true →
  let g' := pre_save (set_saved_amount (saved_amount g + a) g) in
  allocateFunds id body db
  = (if create_transaction body
     then recorded (allocation_doc (next_id db) g body a) (- a) (with_goal id g' db)
     else with_goal id g' db,
     Json 200 (GoalDoc (Some g'))).
Proof.
  intros Hg Ha Hpos Hv g'. unfold allocateFunds. run_session.
  rewrite Hg, Ha. rewrite bool_decide_eq_false_2 by lia. rewrite Hv.
  destruct (create_transaction body).
  - rewrite (bool_decide_eq_false_2 _ (prefixed_note_not_empty _ _ _ _)).
    change (is_tipe "expense") with true. cbn [andb negb]. cbv beta iota.
    cbn [mbind option_bind user_id set_saved_amount accounts set_goals
         set_transactions set_next_id].
    destruct (accounts db !! user_id g) as [acc|] eqn:Hacc; cbv beta iota.
    + cbn [goals set_accounts set_transactions set_next_id set_goals].
      rewrite lookup_insert_eq. unfold recorded, with_goal, allocation_doc.
      cbn. f_equal. unfold set_accounts. cbn. f_equal.
      apply alter_balance_const with acc; [done|]. lia.
    + cbn [goals set_accounts set_transactions set_next_id set_goals].
      rewrite lookup_insert_eq. unfold recorded, with_goal, allocation_doc.
      cbn. f_equal. unfold set_accounts. cbn. f_equal. by rewrite alter_absent.
  - cbn [goals set_goals]. by rewrite lookup_insert_eq.
Qed.

Lemma withdrawFunds_commit db id body g a :
  goals db !! id = Some g → amount body = Some a → 0 < a →
  a ≤ saved_amount g → Goal_valid g = true →
  let g' := pre_save (set_saved_amount (saved_amount g - a) g) in
  withdrawFunds id body db
  = (if create_transaction body
     then recorded (withdrawal_doc (next_id db) g body a) a (with_goal id g' db)
     else with_goal id g' db,
     Json 200 (GoalDoc (Some g'))).
Proof.
  intros Hg Ha Hpos Hle Hv g'. unfold withdrawFunds. run_session.
  rewrite Hg, Ha. rewrite !bool_decide_eq_false_2 by lia.
  rewrite Goal_valid_set_saved_amount by (done || lia).
  destruct (create_transaction body).
  - rewrite (bool_decide_eq_false_2 _ (prefixed_note_not_empty _ _ _ _)).
    change (is_tipe "income") with true. cbn [andb negb]. cbv beta iota.
    cbn [mbind option_bind user_id set_saved_amount accounts set_goals
         set_transactions set_next_id].
    destruct (accounts db !! user_id g) as [acc|] eqn:Hacc; cbv beta iota.
    + cbn [goals set_accounts set_transactions set_next_id set_goals].
      rewrite lookup_insert_eq. unfold recorded, with_goal, withdrawal_doc.
      cbn. f_equal. unfold set_accounts. cbn. f_equal.
      by apply alter_balance_const with acc.
    + cbn [goals set_accounts set_transactions set_next_id set_goals].
      rewrite lookup_insert_eq. unfold recorded, with_goal, withdrawal_doc.
      cbn. f_equal. unfold set_accounts. cbn. f_equal. by rewrite alter_absent.
  - cbn [goals set_goals]. by rewrite lookup_insert_eq.
Qed.

Lemma withdrawFunds_insufficient db id body g a :
  goals db !! id = Some g → amount body = Some a → 0 < a →
  saved_amount g < a →
  withdrawFunds id body db
  = (db, Json 400 (Insufficient "Withdrawal amount exceeds saved amount"
                     (saved_amount g))).
Proof.
  intros Hg Ha Hpos Hlt. unfold withdrawFunds. run_session.
  rewrite Hg, Ha. rewrite bool_decide_eq_false_2 by lia.
  by rewrite bool_decide_eq_true_2 by lia.
Qed.


(** Whatever the request, a withdrawal either leaves the goals as they are
    or stores one goal that went through [Goal_save]. *)
Lemma withdrawFunds_goals db id body :
  goals (fst (withdrawFunds id body db)) = goals db
  ∨ ∃ g a, goals db !! id = Some g ∧ amount body = Some a ∧ 0 < a
      ∧ a ≤ saved_amount g
      ∧ Goal_valid (set_saved_amount (saved_amount g - a) g) = true
      ∧ goals (fst (withdrawFunds id body db))
        = <[id := pre_save (set_saved_amount (saved_amount g - a) g)]> (goals db).
Proof.
  unfold withdrawFunds. run_session.
  destruct (goals db !! id) as [g|] eqn:Hg; [|by left].
  destruct (amount body) as [a|] eqn:Ha; [|by left].
  case_bool_decide; [by left|]. case_bool_decide; [by left|].
  destruct (Goal_valid (set_saved_amount (saved_amount g - a) g)) eqn:Hv;
    [|by left].
  right. exists g, a. split_and!; try done; try lia.
  destruct (create_transaction body); [|done].
  rewrite (bool_decide_eq_false_2 _ (prefixed_note_not_empty _ _ _ _)).
  change (is_tipe "income") with true. cbn [andb negb]. cbv beta iota.
  cbn [mbind option_bind user_id set_saved_amount accounts set_goals
       set_transactions set_next_id].
  by destruct (accounts db !! user_id g).
Qed.

Lemma allocateFunds_goals db id body :
  goals (fst (allocateFunds id body db)) = goals db
  ∨ ∃ g a, goals db !! id = Some g ∧ amount body = Some a ∧ 0 < a
      ∧ Goal_valid (set_saved_amount (saved_amount g + a) g) = true
      ∧ goals (fst (allocateFunds id body db))
        = <[id := pre_save (set_saved_amount (saved_amount g + a) g)]> (goals db).
Proof.
  unfold allocateFunds. run_session.
  destruct (goals db !! id) as [g|] eqn:Hg; [|by left].
  destruct (amount body) as [a|] eqn:Ha; [|by left].
  case_bool_decide; [by left|].
  destruct (Goal_valid (set_saved_amount (saved_amount g + a) g)) eqn:Hv;
    [|by left].
  right. exists g, a. split_and!; try done; try lia.
  destruct (create_transaction body); [|done].
  rewrite (bool_decide_eq_false_2 _ (prefixed_note_not_empty _ _ _ _)).
  change (is_tipe "expense") with true. cbn [andb negb]. cbv beta iota.
  cbn [mbind option_bind user_id set_saved_amount accounts set_goals
       set_transactions set_next_id].
  by destruct (accounts db !! user_id g).
Qed.

Lemma createGoal_goals db u body :
  goals (fst (createGoal u body db)) = goals db
  ∨ ∃ g, Goal_valid g = true
      ∧ goals (fst (createGoal u body db)) = <[next_id db := pre_save g]> (goals db).
Proof.
  unfold createGoal.
  destruct (accounts db !! u); [|by left].
  destruct (g_target_amount body) as [target|]; [|by left].
  run_session.
  match goal with |- context [Goal_valid ?g] => destruct (Goal_valid g) eqn:Hv end;
    [|by left].
  right. eexists. split; [exact Hv|done].
Qed.

Lemma updateGoal_goals db id body :
  goals (fst (updateGoal id body db)) = goals db
  ∨ ∃ g, goals db !! id = Some g ∧ GoalBody_valid body = true
      ∧ goals (fst (updateGoal id body db)) = <[id := merge_goal body g]> (goals db).
Proof.
  unfold updateGoal. destruct (GoalBody_valid body); [|by left].
  destruct (goals db !! id) as [g|] eqn:Hg; [|by left].
  right. by exists g.
Qed.

(** Every handler keeps the stored goals valid. *)
Lemma Goals_valid_handle r db : Goals_valid db → Goals_valid (fst (handle r db)).
Proof.
  intros Hdb. destruct r as [body|id body|id|u|u body|id body|id|id body|id body|id];
    simpl.
  - eapply Goals_valid_same; [done|apply goals_createTransaction].
  - eapply Goals_valid_same; [done|apply goals_updateTransaction].
  - eapply Goals_valid_same; [done|apply goals_deleteTransaction].
  - eapply Goals_valid_same; [done|apply goals_generateCategoriesFromTags].
  - destruct (createGoal_goals db u body) as [E|(g & Hv & E)].
    + by eapply Goals_valid_same.
    + eapply Goals_valid_insert; [done| |exact E]. by apply Goal_valid_pre_save.
  - destruct (updateGoal_goals db id body) as [E|(g & Hg & Hv & E)].
    + by eapply Goals_valid_same.
    + eapply Goals_valid_insert; [done| |exact E].
      apply Goal_valid_merge; [done|]. by eapply Hdb.
  - unfold deleteGoal. destruct (goals db !! id) eqn:Hg; [|done].
    intros i g'. simpl. rewrite lookup_delete. case_decide; [done|]. apply Hdb.
  - destruct (allocateFunds_goals db id body) as [E|(g & a & Hg & Ha & Hp & Hv & E)].
    + by eapply Goals_valid_same.
    + eapply Goals_valid_insert; [done| |exact E]. by apply Goal_valid_pre_save.
  - destruct (withdrawFunds_goals db id body)
      as [E|(g & a & Hg & Ha & Hp & Hle & Hv & E)].
    + by eapply Goals_valid_same.
    + eapply Goals_valid_insert; [done| |exact E]. by apply Goal_valid_pre_save.
  - unfold deleteAccount. by destruct (accounts db !! id).
Qed.

Lemma Goals_valid_run l db : Goals_valid db → Goals_valid (run l db).
Proof.
  revert db. induction l as [|r l IH]; intros db Hdb; [done|].
  simpl. apply IH. by apply Goals_valid_handle.
Qed.

(** ** Goal bounds *)

(** C4. Goal bounds: from a database whose goals pass the schema validators
    (for instance one without goals), after any sequence of requests every
    stored goal has [saved_amount >= 0]; [withdrawFunds] with an amount
    strictly greater than the saved amount answers 400 with the available
    saved amount and leaves the database as it was; [withdrawFunds] with
    [0 < amount <= saved_amount] answers 200 and stores the goal with
    [saved_amount] decreased by exactly [amount], which is not negative. *)
Theorem goal_bounds (db : Db) (reqs : list Request) :
  Goals_valid db →
  let s := run reqs db in
  (∀ id g, goals s !! id = Some g → 0 ≤ saved_amount g)
  ∧ (∀ id body g a,
       goals s !! id = Some g → amount body = Some a → saved_amount g < a →
       withdrawFunds id body s
       = (s, Json 400 (Insufficient "Withdrawal amount exceeds saved amount"
                         (saved_amount g))))
  ∧ (∀ id body g a,
       goals s !! id = Some g → amount body = Some a →
       0 < a → a ≤ saved_amount g →
       ∃ g', code (snd (withdrawFunds id body s)) = 200%nat
         ∧ goals (fst (withdrawFunds id body s)) !! id = Some g'
         ∧ saved_amount g' = saved_amount g - a
         ∧ 0 ≤ saved_amount g').
Proof.
  intros Hdb s. pose proof (Goals_valid_run reqs db Hdb) as Hs. fold s in Hs.
  assert (Hnn : ∀ id g, goals s !! id = Some g → 0 ≤ saved_amount g).
  { intros id g Hg. by destruct (Goal_valid_inv g (Hs id g Hg)) as (_ & _ & ? & _). }
  split_and!; [done| |].
  - intros id body g a Hg Ha Hlt.
    specialize (Hnn id g Hg).
    apply (withdrawFunds_insufficient s id body g a); [done|done|lia|done].
  - intros id body g a Hg Ha Hpos Hle.
    rewrite (withdrawFunds_commit s id body g a) by eauto.
    exists (pre_save (set_saved_amount (saved_amount g - a) g)).
    split_and!; [done| | |].
    + destruct (create_transaction body); simpl; by rewrite lookup_insert_eq.
    + unfold pre_save. by case_bool_decide.
    + unfold pre_save. case_bool_decide; simpl; lia.
Qed.

Lemma Goals_valid_fresh_db b : Goals_valid (fresh_db b).
Proof. intros id g. simpl. by rewrite lookup_empty. Defined.

Lemma goal_bounds_witness :
  let reqs := [CreateGoal 1 (new_goal "Dana Darurat" 10000000);
               AllocateFunds 10 (funds 4000000 true)] in
  let s := run reqs (fresh_db 5000000) in
  Goals_valid (fresh_db 5000000)
  ∧ withdrawFunds 10 (funds 5000000 false) s
    = (s, Json 400 (Insufficient "Withdrawal amount exceeds saved amount" 4000000))
  ∧ (∃ g', code (snd (withdrawFunds 10 (funds 1000000 false) s)) = 200%nat
       ∧ goals (fst (withdrawFunds 10 (funds 1000000 false) s)) !! 10%nat = Some g'
       ∧ saved_amount g' = 4000000 - 1000000
       ∧ 0 ≤ saved_amount g').
Proof.
  intros reqs s.
  pose proof (goal_bounds (fresh_db 5000000) reqs (Goals_valid_fresh_db _))
    as (_ & Hreject & Hcommit).
  split; [apply Goals_valid_fresh_db|]. split.
  - apply (Hreject 10%nat (funds 5000000 false)
             {| user_id := 1; title := "Dana Darurat"; description := "";
                target_amount := 10000000; saved_amount := 4000000;
                status := "active" |} 5000000);
      [vm_compute; reflexivity|reflexivity|simpl; lia].
  - apply (Hcommit 10%nat (funds 1000000 false)
             {| user_id := 1; title := "Dana Darurat"; description := "";
                target_amount := 10000000; saved_amount := 4000000;
                status := "active" |} 1000000);
      [vm_compute; reflexivity|reflexivity|lia|simpl; lia].
Defined.

(** ** Completion and withdrawals *)

(** C9. Completion is sticky under withdrawal: when the stored goal is
    ['completed'], whatever [withdrawFunds] answers, the goal it leaves in
    the database is still ['completed']; in particular a withdrawal that
    commits and drops [saved_amount] below [target_amount] keeps the status
    ['completed']. *)
Theorem completed_is_sticky (db : Db) (id : ObjectId) (body : FundsBody) (g : Goal) :
  goals db !! id = Some g → status g = "completed" →
  (∀ g', goals (fst (withdrawFunds id body db)) !! id = Some g' →
         status g' = "completed")
  ∧ (∀ a, Goal_valid g = true → amount body = Some a →
          0 < a → a ≤ saved_amount g → saved_amount g - a < target_amount g →
          ∃ g', code (snd (withdrawFunds id body db)) = 200%nat
            ∧ goals (fst (withdrawFunds id body db)) !! id = Some g'
            ∧ saved_amount g' = saved_amount g - a
            ∧ saved_amount g' < target_amount g'
            ∧ status g' = "completed").
Proof.
  intros Hg Hst. split.
  - intros g'.
    destruct (withdrawFunds_goals db id body)
      as [->|(g1 & a & Hg1 & _ & _ & _ & _ & ->)].
    + rewrite Hg. by intros [= <-].
    + rewrite lookup_insert_eq. intros [= <-].
      rewrite Hg in Hg1. injection Hg1 as <-.
      unfold pre_save. by case_bool_decide.
  - intros a Hv Ha Hpos Hle Hlt.
    rewrite (withdrawFunds_commit db id body g a) by done.
    exists (pre_save (set_saved_amount (saved_amount g - a) g)).
    assert (pre_save (set_saved_amount (saved_amount g - a) g)
            = set_saved_amount (saved_amount g - a) g) as ->.
    { unfold pre_save. rewrite bool_decide_eq_false_2; [done|simpl; lia]. }
    split_and!; try done.
    destruct (create_transaction body); simpl; by rewrite lookup_insert_eq.
Qed.

Lemma completed_is_sticky_witness :
  let g := {| user_id := 1; title := "Liburan"; description := "";
              target_amount := 100; saved_amount := 120;
              status := "completed" |} in
  let db := with_goal 7 g (fresh_db 0) in
  ∃ g', code (snd (withdrawFunds 7 (funds 50 true) db)) = 200%nat
    ∧ goals (fst (withdrawFunds 7 (funds 50 true) db)) !! 7%nat = Some g'
    ∧ saved_amount g' = 120 - 50
    ∧ saved_amount g' < target_amount g'
    ∧ status g' = "completed".
Proof.
  intros g db.
  refine (proj2 (completed_is_sticky db 7 (funds 50 true) g _ _) 50 _ _ _ _ _);
    try reflexivity; try (simpl; lia).
Defined.

(** ** Categories: what [updateCategoryBalances] computes *)

Lemma blank_not_empty s : blank s = false → s ≠ "".
Proof. by intros H ->. Qed.

Lemma set_categories_twice c c' s :
  set_categories c (set_categories c' s) = set_categories c s.
Proof. done. Qed.

Lemma set_categories_id s : set_categories (categories s) s = s.
Proof. by destruct s. Qed.

(** The loop either runs to the end, and then it has computed [apply_tags],
    or a category could not be created because the kind of the transaction
    is outside the enum. *)
Lemma updateCategoryBalances_loop_cases t amt l s :
  updateCategoryBalances_loop t amt l s
  = Done tt (set_categories
               (apply_tags (id_akun t) (tipe t) amt l (categories s)) s)
  ∨ (is_tipe (tipe t) = false
     ∧ updateCategoryBalances_loop t amt l s
       = Exited (Throw "Category validation failed")).
Proof.
  revert s. induction l as [|tag l IH]; intros s.
  { left. simpl. unfold ret. by rewrite set_categories_id. }
  simpl. destruct (blank tag) eqn:Hb; [apply IH|].
  run_session. fold (updateCategoryBalances_loop t amt l).
  destruct (categories s !! (id_akun t, tag, tipe t)) as [b|] eqn:Hk.
  - destruct (IH (set_categories
                    (<[(id_akun t, tag, tipe t) := b + amt]> (categories s)) s))
      as [->|[Hty ->]]; [left|by right].
    rewrite set_categories_twice. do 2 f_equal.
    simpl. unfold upsert, balance_of. by rewrite Hk.
  - destruct (is_tipe (tipe t)) eqn:Hty; [|by right].
    rewrite (bool_decide_eq_false_2 _ (blank_not_empty _ Hb)).
    cbn [andb negb]. cbv beta iota. rewrite Hk.
    destruct (IH (set_categories
                    (<[(id_akun t, tag, tipe t) := amt]> (categories s)) s))
      as [->|[Hty' ->]]; [left|by right].
    rewrite set_categories_twice. do 2 f_equal.
    simpl. unfold upsert, balance_of. by rewrite Hk.
Qed.

Lemma updateCategoryBalances_cases t (rev : bool) s :
  let amt := nominal t * (if rev then -1 else 1) in
  updateCategoryBalances t rev s
  = Done tt (set_categories
               (apply_tags (id_akun t) (tipe t) amt (tags t) (categories s)) s)
  ∨ (is_tipe (tipe t) = false
     ∧ updateCategoryBalances t rev s
       = Exited (Throw "Category validation failed")).
Proof.
  intros amt. unfold updateCategoryBalances.
  destruct (tags t) as [|tag l] eqn:Hl.
  - left. unfold ret. simpl. by rewrite set_categories_id.
  - apply updateCategoryBalances_loop_cases.
Qed.

Lemma updateCategoryBalances_done t (rev : bool) s :
  is_tipe (tipe t) = true →
  updateCategoryBalances t rev s
  = Done tt (set_categories
               (apply_tags (id_akun t) (tipe t)
                  (nominal t * (if rev then -1 else 1)) (tags t) (categories s)) s).
Proof.
  intros Hty. destruct (updateCategoryBalances_cases t rev s) as [H|[H _]]; [done|].
  congruence.
Qed.

(** *** The balances after [apply_tags] *)

Lemma balance_of_upsert k amt c k' :
  balance_of (upsert k amt c) k'
  = balance_of c k' + (if decide (k = k') then amt else 0).
Proof.
  unfold upsert, balance_of at 1. rewrite lookup_insert.
  case_decide; [subst; simpl; done|]. unfold balance_of. lia.
Qed.

Lemma occurrences_cons name tag l :
  occurrences name (tag :: l)
  = (if decide (tag = name) then 1 else 0) + occurrences name l.
Proof.
  unfold occurrences. rewrite filter_cons.
  case_decide; simpl length; lia.
Qed.

Lemma apply_tags_cons u ty amt tag l c :
  apply_tags u ty amt (tag :: l) c
  = apply_tags u ty amt l (if blank tag then c else upsert (u, tag, ty) amt c).
Proof. done. Qed.

Lemma balance_of_apply_tags u ty amt l c k :
  balance_of (apply_tags u ty amt l c) k
  = balance_of c k
    + (if bool_decide (u = k.1.1) && bool_decide (ty = k.2) && negb (blank k.1.2)
       then amt * occurrences k.1.2 l else 0).
Proof.
  destruct k as [[u' name] ty']. cbn [fst snd].
  revert c. induction l as [|tag l IH]; intros c.
  { simpl. unfold occurrences. simpl. destruct (_ && _); lia. }
  rewrite apply_tags_cons, IH, occurrences_cons. clear IH.
  destruct (decide (tag = name)) as [->|Htag].
  - destruct (blank name) eqn:Hb; [rewrite andb_false_r; lia|].
    rewrite balance_of_upsert, andb_true_r.
    case_decide as Hk.
    + injection Hk as <- <-. rewrite !bool_decide_eq_true_2 by done. simpl. lia.
    + case_bool_decide; [|simpl; lia]. case_bool_decide; [|simpl; lia].
      by subst.
  - destruct (blank tag) eqn:Hb.
    + destruct (_ && _); lia.
    + rewrite balance_of_upsert. case_decide as Hk; [congruence|].
      destruct (_ && _); lia.
Qed.

Lemma balance_of_apply_transaction t amt c k :
  balance_of (apply_tags (id_akun t) (tipe t) (nominal t * amt) (tags t) c) k
  = balance_of c k + amt * contribution t k.
Proof.
  rewrite balance_of_apply_tags. destruct k as [[u name] ty]. simpl.
  destruct (_ && _); lia.
Qed.

(** [apply_tags] only adds documents, with a non-blank name. *)
Lemma lookup_apply_tags_mono u ty amt l c k :
  is_Some (c !! k) → is_Some (apply_tags u ty amt l c !! k).
Proof.
  revert c. induction l as [|tag l IH]; intros c Hk; [done|].
  rewrite apply_tags_cons. apply IH.
  destruct (blank tag); [done|]. unfold upsert. rewrite lookup_insert.
  by case_decide.
Qed.

Lemma lookup_apply_tags_new u ty amt l c k :
  is_Some (apply_tags u ty amt l c !! k) →
  is_Some (c !! k) ∨ (k.1.1 = u ∧ k.2 = ty ∧ blank k.1.2 = false ∧ k.1.2 ∈ l).
Proof.
  revert c. induction l as [|tag l IH]; intros c; [by left|].
  rewrite apply_tags_cons.
  intros [H|(? & ? & ? & ?)]%IH.
  - destruct (blank tag) eqn:Hb; [by left|]. unfold upsert in H.
    rewrite lookup_insert in H. case_decide; [|by left].
    subst k. right. simpl. split_and!; try done. by left.
  - right. split_and!; try done. by right.
Qed.

(** ** Transactions: what the three handlers compute *)

Lemma find_replace_first id f l orig :
  (∀ t, _id (f t) = _id t) →
  List.find (has_id id) l = Some orig →
  List.find (has_id id) (replace_first id f l) = Some (f orig).
Proof.
  intros Hf. induction l as [|t l IH]; [done|]. simpl.
  destruct (has_id id t) eqn:Ht.
  - intros [= ->]. simpl. unfold has_id in *. by rewrite Hf, Ht.
  - intros H. simpl. rewrite Ht. by apply IH.
Qed.

Lemma createTransaction_commit body db u t d n acc :
  b_id_akun body = Some u → b_tipe body = Some t → is_tipe t = true →
  b_deskripsi body = Some d → d ≠ "" → b_nominal body = Some n →
  accounts db !! u = Some acc →
  let doc := new_doc (next_id db) u t d n body in
  createTransaction body db
  = (ledger (alter (set_balance (apply_effect t n (balance acc))) u (accounts db))
       (transactions db ++ [doc])
       (absorb doc 1 (categories db))
       (S (next_id db)) db,
     Json 201 (TransactionDoc doc)).
Proof.
  intros Hu Ht Hty Hd Hne Hn Hacc doc. unfold createTransaction. run_session.
  rewrite Hu, Ht, Hd, Hn, Hty. rewrite (bool_decide_eq_false_2 _ Hne).
  cbn [andb negb mbind option_bind accounts set_transactions set_next_id].
  rewrite Hacc. cbv beta iota.
  rewrite updateCategoryBalances_done by done. done.
Qed.

Lemma createTransaction_cases body db :
  rejected 201 db (createTransaction body db)
  ∨ ∃ u t d n acc,
      b_id_akun body = Some u ∧ b_tipe body = Some t ∧ is_tipe t = true
      ∧ b_deskripsi body = Some d ∧ d ≠ "" ∧ b_nominal body = Some n
      ∧ accounts db !! u = Some acc.
Proof.
  unfold createTransaction. run_session.
  destruct (b_id_akun body) as [u|]; [|by left].
  destruct (b_tipe body) as [t|]; [|by left].
  destruct (b_deskripsi body) as [d|]; [|by left].
  destruct (b_nominal body) as [n|]; [|by left].
  destruct (is_tipe t) eqn:Hty; [|by left].
  case_bool_decide as Hd; [by left|].
  cbn [andb negb mbind option_bind accounts set_transactions set_next_id].
  destruct (accounts db !! u) as [acc|] eqn:Hacc; [|by left].
  right. by exists u, t, d, n, acc.
Qed.

Lemma updateTransaction_cases id body db :
  rejected 200 db (updateTransaction id body db)
  ∨ ∃ orig acc,
      find_tx id db = Some orig ∧ accounts db !! id_akun orig = Some acc
      ∧ updateTransaction id body db
        = (ledger
             (alter (set_balance
                       (apply_effect (newTipe body orig) (newNominal body orig)
                          (revert_effect (tipe orig) (nominal orig) (balance acc))))
                (id_akun orig) (accounts db))
             (replace_first id (merge_body body) (transactions db))
             (absorb (merge_body body orig) 1 (absorb orig (-1) (categories db)))
             (next_id db) db,
           Json 200 (TransactionDoc (merge_body body orig))).
Proof.
  unfold updateTransaction. run_session.
  destruct (List.find (has_id id) (transactions db)) as [orig|] eqn:Hfind;
    [|by left].
  cbn [mbind option_bind].
  destruct (accounts db !! id_akun orig) as [acc|] eqn:Hacc; [|by left].
  destruct (updateCategoryBalances_cases orig true db) as [->|[_ ->]];
    [|by left].
  cbn [transactions set_categories set_transactions].
  rewrite (find_replace_first id _ _ orig) by done.
  match goal with
  | |- context [updateCategoryBalances ?t false ?s] =>
      destruct (updateCategoryBalances_cases t false s) as [->|[_ ->]]; [|by left]
  end.
  right. exists orig, acc. split_and!; done.
Qed.

Lemma updateTransaction_commit id body db orig acc :
  find_tx id db = Some orig → accounts db !! id_akun orig = Some acc →
  is_tipe (tipe orig) = true → is_tipe (tipe (merge_body body orig)) = true →
  code (snd (updateTransaction id body db)) = 200%nat.
Proof.
  intros Hfind Hacc Hty Hty'. unfold updateTransaction. run_session.
  unfold find_tx in Hfind. rewrite Hfind. cbn [mbind option_bind]. rewrite Hacc.
  rewrite updateCategoryBalances_done by done.
  cbn [transactions set_categories set_transactions].
  rewrite (find_replace_first id _ _ orig) by done.
  by rewrite updateCategoryBalances_done by done.
Qed.

Lemma deleteTransaction_cases id db :
  rejected 200 db (deleteTransaction id db)
  ∨ ∃ orig acc,
      find_tx id db = Some orig ∧ accounts db !! id_akun orig = Some acc
      ∧ deleteTransaction id db
        = (ledger
             (alter (set_balance
                       (revert_effect (tipe orig) (nominal orig) (balance acc)))
                (id_akun orig) (accounts db))
             (remove_first id (transactions db))
             (absorb orig (-1) (categories db))
             (next_id db) db,
           Json 200 (Message "Transaction deleted successfully")).
Proof.
  unfold deleteTransaction. run_session.
  destruct (List.find (has_id id) (transactions db)) as [orig|] eqn:Hfind;
    [|by left].
  cbn [mbind option_bind].
  destruct (accounts db !! id_akun orig) as [acc|] eqn:Hacc; [|by left].
  destruct (updateCategoryBalances_cases orig true db) as [->|[_ ->]];
    [|by left].
  right. exists orig, acc. split_and!; done.
Qed.

(** ** Validation on create *)

Lemma createTransaction_invalid body db :
  is_tipe (default "" (b_tipe body)) = false ∨ b_nominal body = None →
  createTransaction body db
  = (db, Json 400 (Message "Transaction validation failed")).
Proof.
  intros H. unfold createTransaction. run_session.
  destruct (b_id_akun body) as [u|]; [|done].
  destruct (b_tipe body) as [t|]; [|done].
  destruct (b_deskripsi body) as [d|]; [|done].
  destruct (b_nominal body) as [n|]; [|done].
  destruct H as [H|H]; [|done]. simpl in H. by rewrite H.
Qed.

(** C3, as the claim states it, fails: a negative amount is accepted,
    persisted and applied. *)
Lemma create_rejects_bad_input_counterexample :
  ¬ create_rejects_bad_input (new_tx "income" (-5) ["gaji"]) (fresh_db 0).
Proof.
  intros H. destruct H as [Hcode _].
  - left. intros (n & [= <-] & Hn). lia.
  - vm_compute in Hcode. discriminate Hcode.
Qed.

(** C3 (amended). [createTransaction] answers 400 and leaves the database
    as it was when [tipe] is not ['income'] or ['expense'], or when
    [nominal] is absent.  The sign of [nominal] is not checked: a body with
    an existing account, a kind of the enum, a description and an amount of
    any sign is answered 201, the document is stored with that amount, and
    the balance of the account and the categories of the tags absorb it. *)
Theorem createTransaction_validation (body : TransactionBody) (db : Db) :
  (is_tipe (default "" (b_tipe body)) = false ∨ b_nominal body = None →
   createTransaction body db
   = (db, Json 400 (Message "Transaction validation failed")))
  ∧ (∀ u t d n acc,
       b_id_akun body = Some u → b_tipe body = Some t → is_tipe t = true →
       b_deskripsi body = Some d → d ≠ "" → b_nominal body = Some n →
       accounts db !! u = Some acc →
       let doc := new_doc (next_id db) u t d n body in
       createTransaction body db
       = (ledger
            (alter (set_balance (apply_effect t n (balance acc))) u (accounts db))
            (transactions db ++ [doc])
            (absorb doc 1 (categories db))
            (S (next_id db)) db,
          Json 201 (TransactionDoc doc))).
Proof.
  split; [apply createTransaction_invalid|].
  intros. by apply createTransaction_commit.
Qed.

Lemma createTransaction_validation_witness :
  createTransaction (new_tx "bonus" 5 []) (fresh_db 0)
  = (fresh_db 0, Json 400 (Message "Transaction validation failed"))
  ∧ code (snd (createTransaction (new_tx "expense" (-5) ["makan"]) (fresh_db 0)))
    = 201%nat.
Proof.
  split.
  - apply (proj1 (createTransaction_validation (new_tx "bonus" 5 []) (fresh_db 0))).
    left. reflexivity.
  - rewrite (proj2 (createTransaction_validation
                      (new_tx "expense" (-5) ["makan"]) (fresh_db 0))
               1%nat "expense" "belanja" (-5) {| username := "budi"; balance := 0 |});
      reflexivity || discriminate.
Defined.

(** ** The falsy fallback of [updateTransaction] *)

Lemma apply_effect_signed t n b : apply_effect t n b = b + apply_effect t n 0.
Proof. unfold apply_effect. repeat case_decide; lia. Qed.

Lemma revert_effect_signed t n b : revert_effect t n b = b - apply_effect t n 0.
Proof. unfold apply_effect, revert_effect. repeat case_decide; lia. Qed.

Lemma apply_effect_zero t b : apply_effect t 0 b = b.
Proof. unfold apply_effect. repeat case_decide; lia. Qed.

Lemma apply_effect_is_tipe t n : is_tipe t = true → n ≠ 0 → apply_effect t n 0 ≠ 0.
Proof.
  unfold is_tipe. rewrite orb_true_iff, !bool_decide_eq_true.
  intros [-> | ->] Hn; unfold apply_effect; repeat case_decide; done || lia.
Qed.

Lemma lookup_alter_balance (m : gmap nat Account) u acc b :
  m !! u = Some acc → alter (set_balance b) u m !! u = Some (set_balance b acc).
Proof. intros H. by rewrite lookup_alter_eq, H. Qed.

(** C10. The falsy fallback of [updateTransaction]: when an update whose
    body sets [nominal] to 0 commits, the stored document has nominal 0
    while the balance of the account was re-credited with the nominal of
    the original document, so that, for an original amount other than 0 and
    a kind of the enum, the balance differs from what the stored document
    accounts for.  The same fallback applies to an empty [tipe]: the stored
    document has the empty kind and the balance is moved under the original
    kind.  Such an update does commit when the kinds of the original and of
    the merged document are in the enum. *)
Theorem falsy_fallback (db : Db) (id : ObjectId) (body : TransactionBody)
    (orig : Transaction) (acc : Account) :
  find_tx id db = Some orig → accounts db !! id_akun orig = Some acc →
  let out := updateTransaction id body db in
  let reverted := revert_effect (tipe orig) (nominal orig) (balance acc) in
  (b_nominal body = Some 0 → code (snd out) = 200%nat →
   ∃ upd acc',
     find_tx id (fst out) = Some upd ∧ nominal upd = 0
     ∧ accounts (fst out) !! id_akun orig = Some acc'
     ∧ balance acc' = apply_effect (newTipe body orig) (nominal orig) reverted
     ∧ (nominal orig ≠ 0 → is_tipe (newTipe body orig) = true →
        balance acc' ≠ apply_effect (tipe upd) (nominal upd) reverted))
  ∧ (b_tipe body = Some "" → code (snd out) = 200%nat →
     ∃ upd acc',
       find_tx id (fst out) = Some upd ∧ tipe upd = ""
       ∧ accounts (fst out) !! id_akun orig = Some acc'
       ∧ balance acc'
         = apply_effect (tipe orig) (newNominal body orig) reverted)
  ∧ (is_tipe (tipe orig) = true → is_tipe (tipe (merge_body body orig)) = true →
     code (snd out) = 200%nat).
Proof.
  intros Hfind Hacc out reverted. subst out.
  split_and!; [| |by eapply updateTransaction_commit].
  - intros Hn Hcode.
    destruct (updateTransaction_cases id body db)
      as [[_ Hne]|(orig' & acc' & Hfind' & Hacc' & E)]; [done|].
    rewrite Hfind in Hfind'. injection Hfind' as <-.
    rewrite Hacc in Hacc'. injection Hacc' as <-.
    rewrite E. cbn [fst ledger].
    eexists (merge_body body orig), _. split_and!.
    + unfold find_tx. cbn [transactions].
      by apply find_replace_first.
    + simpl. by rewrite Hn.
    + cbn [accounts]. by apply lookup_alter_balance.
    + cbn [balance set_balance]. unfold newNominal. by rewrite Hn.
    + cbn [balance set_balance]. unfold newNominal. rewrite Hn. simpl or_number.
      intros Hnz Hty. cbn [nominal merge_body default]. rewrite Hn.
      cbn [default]. rewrite apply_effect_zero.
      rewrite apply_effect_signed.
      pose proof (apply_effect_is_tipe _ _ Hty Hnz). lia.
  - intros Ht Hcode.
    destruct (updateTransaction_cases id body db)
      as [[_ Hne]|(orig' & acc' & Hfind' & Hacc' & E)]; [done|].
    rewrite Hfind in Hfind'. injection Hfind' as <-.
    rewrite Hacc in Hacc'. injection Hacc' as <-.
    rewrite E. cbn [fst ledger].
    eexists (merge_body body orig), _. split_and!.
    + unfold find_tx. cbn [transactions].
      by apply find_replace_first.
    + simpl. by rewrite Ht.
    + cbn [accounts]. by apply lookup_alter_balance.
    + cbn [balance set_balance]. unfold newTipe. by rewrite Ht.
Qed.

Lemma falsy_fallback_witness :
  let db := fst (createTransaction (new_tx "income" 100 []) (fresh_db 0)) in
  (∃ upd acc',
     find_tx 10 (fst (updateTransaction 10 (nominal_body 0) db)) = Some upd
     ∧ nominal upd = 0
     ∧ accounts (fst (updateTransaction 10 (nominal_body 0) db)) !! 1%nat = Some acc'
     ∧ balance acc' = 100)
  ∧ (∃ upd acc',
       find_tx 10 (fst (updateTransaction 10 (tipe_body "") db)) = Some upd
       ∧ tipe upd = ""
       ∧ accounts (fst (updateTransaction 10 (tipe_body "") db)) !! 1%nat = Some acc'
       ∧ balance acc' = 100).
Proof.
  intros db.
  pose (orig := new_doc 10 1 "income" "belanja" 100 (new_tx "income" 100 [])).
  pose (acc := {| username := "budi"; balance := 100 |}).
  split.
  - destruct (falsy_fallback db 10 (nominal_body 0) orig acc eq_refl eq_refl)
      as (H & _ & _).
    destruct (H eq_refl eq_refl) as (upd & acc' & H1 & H2 & H3 & H4 & _).
    exists upd, acc'. split_and!; [exact H1|exact H2|exact H3|exact H4].
  - destruct (falsy_fallback db 10 (tipe_body "") orig acc eq_refl eq_refl)
      as (_ & H & _).
    destruct (H eq_refl eq_refl) as (upd & acc' & H1 & H2 & H3 & H4).
    exists upd, acc'. split_and!; [exact H1|exact H2|exact H3|exact H4].
Defined.

(** ** Update idempotence *)

Lemma apply_revert_effect t n b : apply_effect t n (revert_effect t n b) = b.
Proof. unfold apply_effect, revert_effect. repeat case_decide; lia. Qed.

Lemma or_string_kept x v : kept x v → or_string x v = v.
Proof. intros [->| ->]; [done|]. unfold or_string. by case_decide. Qed.

Lemma or_number_kept x v : kept x v → or_number x v = v.
Proof. intros [->| ->]; [done|]. unfold or_number. by case_decide. Qed.

Lemma default_kept {A} (x : option A) v : kept x v → default v x = v.
Proof. by intros [->| ->]. Qed.

Lemma contribution_ext t t' k :
  id_akun t = id_akun t' → tipe t = tipe t' → nominal t = nominal t' →
  tags t = tags t' → contribution t k = contribution t' k.
Proof.
  intros H1 H2 H3 H4. destruct k as [[u name] ty]. simpl.
  by rewrite H1, H2, H3, H4.
Qed.

Lemma balance_of_absorb t sign c k :
  balance_of (absorb t sign c) k = balance_of c k + sign * contribution t k.
Proof. unfold absorb. exact (balance_of_apply_transaction t sign c k). Qed.

Lemma lookup_absorb_mono t sign c k :
  is_Some (c !! k) → is_Some (absorb t sign c !! k).
Proof. unfold absorb. exact (lookup_apply_tags_mono _ _ _ _ c k). Qed.

(** When two category maps agree on [balance_of] and the second has at
    least the documents of the first, the stored balances are kept and the
    added documents have balance [0]. *)
Lemma balance_of_kept (c c' : gmap (nat * string * string) Z) :
  (∀ k, balance_of c' k = balance_of c k) →
  (∀ k, is_Some (c !! k) → is_Some (c' !! k)) →
  (∀ k b, c !! k = Some b → c' !! k = Some b)
  ∧ (∀ k b, c !! k = None → c' !! k = Some b → b = 0).
Proof.
  intros Hb Hm. split.
  - intros k b Hk. destruct (Hm k) as [b' Hk']; [by eexists|].
    specialize (Hb k). unfold balance_of in Hb. rewrite Hk, Hk' in Hb.
    simpl in Hb. by subst.
  - intros k b Hk Hk'. specialize (Hb k). unfold balance_of in Hb.
    by rewrite Hk, Hk' in Hb.
Qed.

(** C7, as the claim states it, fails: the body may repeat the kind and
    the amount and still move the transaction to other tags. *)
Lemma update_idempotent_counterexample :
  ¬ update_idempotent
      (fst (createTransaction (new_tx "expense" 300 ["food"]) (fresh_db 0)))
      10 (retag_body "expense" 300 ["rent"])
      (new_doc 10 1 "expense" "belanja" 300 (new_tx "expense" 300 ["food"])).
Proof.
  intros H. destruct H as [_ Hcat]; [reflexivity|by right|by right|].
  specialize (Hcat (1%nat, "food", "expense") 300 eq_refl).
  vm_compute in Hcat. discriminate Hcat.
Qed.

(** C7 (amended). Update idempotence, for whole amounts: on a database
    whose amounts are whole and within bounds, an update whose body leaves
    the kind and the amount of the transaction as they are stored keeps the
    balance of every account; when the body also leaves the tags and the
    owning account as they are stored, the update keeps the balance of
    every stored category, and a category it creates has balance 0. *)
Theorem update_idempotence (db : Db) (id : ObjectId) (body : TransactionBody)
    (orig : Transaction) :
  whole_units db = true →
  find_tx id db = Some orig →
  kept (b_tipe body) (tipe orig) → kept (b_nominal body) (nominal orig) →
  let s := fst (updateTransaction id body db) in
  (∀ u acc, accounts db !! u = Some acc →
            ∃ acc', accounts s !! u = Some acc' ∧ balance acc' = balance acc)
  ∧ (kept (b_tags body) (tags orig) → kept (b_id_akun body) (id_akun orig) →
     (∀ k b, categories db !! k = Some b → categories s !! k = Some b)
     ∧ (∀ k b, categories db !! k = None → categories s !! k = Some b → b = 0)).
Proof.
  intros _ Hfind Ht Hn s. subst s.
  destruct (updateTransaction_cases id body db)
    as [[-> _]|(orig' & acc & Hfind' & Hacc & ->)].
  { split; [by eauto|]. intros _ _. split; [done|]. intros k b H1 H2. congruence. }
  rewrite Hfind in Hfind'. injection Hfind' as <-.
  cbn [fst ledger accounts categories]. split.
  - intros u acc0 Hacc0.
    destruct (decide (id_akun orig = u)) as [<-|Hu'].
    + rewrite Hacc in Hacc0. injection Hacc0 as <-.
      eexists. split; [by apply lookup_alter_balance|].
      cbn [balance set_balance].
      unfold newTipe, newNominal. rewrite or_string_kept, or_number_kept by done.
      apply apply_revert_effect.
    + exists acc0. by rewrite lookup_alter_ne.
  - intros Htags Hu. apply balance_of_kept.
    + intros k. rewrite !balance_of_absorb.
      rewrite (contribution_ext (merge_body body orig) orig); [lia|simpl..];
        by apply default_kept.
    + intros k Hk. by do 2 apply lookup_absorb_mono.
Qed.

Lemma update_idempotence_witness :
  let db := fst (createTransaction (new_tx "expense" 300 ["food"]) (fresh_db 0)) in
  balances_kept db (fst (updateTransaction 10 (retag_body "expense" 300 ["food"]) db)).
Proof.
  intros db.
  destruct (update_idempotence db 10 (retag_body "expense" 300 ["food"])
              (new_doc 10 1 "expense" "belanja" 300
                 (new_tx "expense" 300 ["food"])))
    as [Hacc Hcat].
  - vm_compute. reflexivity.
  - reflexivity.
  - right. reflexivity.
  - right. reflexivity.
  - split; [exact Hacc|]. apply Hcat.
    + right. reflexivity.
    + left. reflexivity.
Defined.

(** Amounts that are not whole do round.  With the Numbers 0.34 and 0.09:
    an income of 0.34 and an expense of 0.09 leave the balance [b]; adding
    0.09 back and taking it again, as an update that repeats the expense
    does, leaves another Number than [b]. *)
Lemma decimal_amounts_round :
  let n34 := Number_div (Number_of_Z 34) (Number_of_Z 100) in
  let n09 := Number_div (Number_of_Z 9) (Number_of_Z 100) in
  let b := Number_sub n34 n09 in
  b = Number_div (Number_of_Z 25) (Number_of_Z 100)
  ∧ Number_sub (Number_add b n09) n09 ≠ b.
Proof. split; [by vm_compute|]. vm_compute. discriminate. Qed.

(** ** Goal auto-completion *)

Lemma pre_save_amounts g :
  saved_amount (pre_save g) = saved_amount g
  ∧ target_amount (pre_save g) = target_amount g.
Proof. unfold pre_save. by case_bool_decide. Qed.

(** What the [pre('save')] hook guarantees. *)
Lemma pre_save_completed g :
  target_amount g ≤ saved_amount g → status (pre_save g) = "completed".
Proof. intros H. unfold pre_save. by rewrite bool_decide_eq_true_2. Qed.


(** The handlers that go through [goal.save] do complete the goal. *)
Lemma auto_completion_on_save r db id g :
  match r with
  | CreateGoal _ _ | AllocateFunds _ _ | WithdrawFunds _ _ => True
  | _ => False
  end →
  goals (fst (handle r db)) !! id = Some g → goals db !! id ≠ Some g →
  target_amount g ≤ saved_amount g → status g = "completed".
Proof.
  assert (Hins : ∀ (m m' : gmap nat Goal) i g0,
             m' = <[i := pre_save g0]> m → m' !! id = Some g →
             m !! id ≠ Some g → target_amount g ≤ saved_amount g →
             status g = "completed").
  { intros m m' i g0 -> Hl Hne Hle. rewrite lookup_insert in Hl.
    case_decide; [|done]. injection Hl as <-.
    destruct (pre_save_amounts g0) as [Hs Ht]. rewrite Hs, Ht in Hle.
    by apply pre_save_completed. }
  destruct r as [| | | |u body| | |i body|i body|]; try done; intros _; simpl.
  - destruct (createGoal_goals db u body) as [->|(g0 & _ & E)]; [done|].
    by eapply Hins.
  - destruct (allocateFunds_goals db i body)
      as [->|(g0 & a & _ & _ & _ & _ & E)]; [done|]. by eapply Hins.
  - destruct (withdrawFunds_goals db i body)
      as [->|(g0 & a & _ & _ & _ & _ & _ & E)]; [done|]. by eapply Hins.
Qed.

(** C5. The failing input: [updateGoal] goes through
    [findByIdAndUpdate], which does not run the [pre('save')] hook; a goal
    updated to [saved_amount >= target_amount] is persisted with its old
    status ['active'], while its progress reads 100. *)
Theorem updateGoal_skips_auto_completion :
  let s := run [CreateGoal 1 (new_goal "Liburan" 50);
                UpdateGoal 10 (saved_body 100)] (fresh_db 0) in
  ∃ g, goals s !! 10%nat = Some g
       ∧ target_amount g ≤ saved_amount g
       ∧ status g = "active"
       ∧ progress g = 100.
Proof.
  eexists. split; [vm_compute; reflexivity|]. split_and!; done.
Qed.

(** ** Atomicity of an allocation with a transaction record *)

(** C6, as the claim states it, fails: when the account of the goal is
    gone, the goal update and the expense record are committed without any
    balance being decreased. *)
Lemma all_or_nothing_counterexample :
  ¬ all_or_nothing
      (run [CreateGoal 1 (new_goal "Liburan" 500); DeleteAccount 1] (fresh_db 0))
      10 (funds 50 true).
Proof.
  intros [H|(g & a & doc & acc & Hg & _ & _ & _ & _ & _ & _ & Hacc & _)].
  - apply (f_equal transactions) in H. vm_compute in H. discriminate H.
  - vm_compute in Hg. injection Hg as <-.
    vm_compute in Hacc. discriminate Hacc.
Qed.

(** C6 (amended). An [allocateFunds] call that asks for a transaction
    record is either rejected (404 when the goal is not found, 400 when the
    amount is not a positive number or the goal does not pass its
    validators) and leaves the database as it was, or commits (200): the
    goal is saved with [saved_amount] increased by the amount, the expense
    record is stored, and the balance of the goal's account is decreased
    by the amount when that account exists; when it does not exist the
    goal and the record are committed all the same and no balance moves. *)
Theorem allocateFunds_outcomes (db : Db) (id : ObjectId) (body : FundsBody) :
  create_transaction body = true →
  let out := allocateFunds id body db in
  (fst out = db ∧ (code (snd out) = 404%nat ∨ code (snd out) = 400%nat))
  ∨ ∃ g a,
      goals db !! id = Some g ∧ amount body = Some a ∧ 0 < a
      ∧ code (snd out) = 200%nat
      ∧ goals (fst out)
        = <[id := pre_save (set_saved_amount (saved_amount g + a) g)]> (goals db)
      ∧ transactions (fst out)
        = transactions db ++ [allocation_doc (next_id db) g body a]
      ∧ accounts (fst out)
        = alter (add_balance (- a)) (user_id g) (accounts db)
      ∧ (accounts db !! user_id g = None → accounts (fst out) = accounts db).
Proof.
  intros Hrec out. subst out.
  destruct (goals db !! id) as [g|] eqn:Hg.
  - destruct (amount body) as [a|] eqn:Ha.
    + destruct (decide (0 < a)) as [Hpos|Hneg].
      * destruct (Goal_valid (set_saved_amount (saved_amount g + a) g)) eqn:Hv.
        -- right. exists g, a.
           rewrite (allocateFunds_commit db id body g a) by done.
           rewrite Hrec. split_and!; try done.
           intros Hacc. cbn [fst recorded accounts set_accounts].
           by apply alter_absent.
        -- left. unfold allocateFunds. run_session. rewrite Hg, Ha.
           rewrite bool_decide_eq_false_2 by lia. rewrite Hv.
           by split; [|right].
      * left. unfold allocateFunds. run_session. rewrite Hg, Ha.
        rewrite bool_decide_eq_true_2 by lia. by split; [|right].
    + left. unfold allocateFunds. run_session. rewrite Hg, Ha.
      by split; [|right].
  - left. unfold allocateFunds. run_session. rewrite Hg. by split; [|left].
Qed.

Lemma allocateFunds_outcomes_witness :
  let db := run [CreateGoal 1 (new_goal "Liburan" 500)] (fresh_db 1000) in
  let out := allocateFunds 10 (funds 50 true) db in
  ∃ g a,
    goals db !! 10%nat = Some g ∧ amount (funds 50 true) = Some a ∧ 0 < a
    ∧ code (snd out) = 200%nat
    ∧ goals (fst out)
      = <[10%nat := pre_save (set_saved_amount (saved_amount g + a) g)]> (goals db)
    ∧ transactions (fst out)
      = transactions db ++ [allocation_doc (next_id db) g (funds 50 true) a]
    ∧ accounts (fst out)
      = alter (add_balance (- a)) (user_id g) (accounts db)
    ∧ (accounts db !! user_id g = None → accounts (fst out) = accounts db).
Proof.
  intros db out.
  destruct (allocateFunds_outcomes db 10 (funds 50 true) eq_refl)
    as [[H _]|H]; [|exact H].
  apply (f_equal transactions) in H. vm_compute in H. discriminate H.
Defined.

(** ** Sums over the stored transactions *)

Lemma total_app w l1 l2 : total w (l1 ++ l2) = total w l1 + total w l2.
Proof. induction l1 as [|t l1 IH]; simpl; [done|]. rewrite IH. lia. Qed.

Lemma total_replace_first w id f l orig :
  List.find (has_id id) l = Some orig →
  total w (replace_first id f l) = total w l - w orig + w (f orig).
Proof.
  induction l as [|t l IH]; [done|]. simpl.
  destruct (has_id id t).
  - intros [= ->]. simpl. lia.
  - intros H. simpl. rewrite IH by done. lia.
Qed.

Lemma total_remove_first w id l orig :
  List.find (has_id id) l = Some orig →
  total w (remove_first id l) = total w l - w orig.
Proof.
  induction l as [|t l IH]; [done|]. simpl.
  destruct (has_id id t).
  - intros [= ->]. lia.
  - intros H. simpl. rewrite IH by done. lia.
Qed.

Lemma total_ext w w' l : (∀ t, w t = w' t) → total w l = total w' l.
Proof. intros H. induction l as [|t l IH]; simpl; [done|]. by rewrite H, IH. Qed.

(** ** The ledger effect of the goal and account handlers *)

Lemma allocateFunds_ledger db id body :
  let s := fst (allocateFunds id body db) in
  (accounts s = accounts db ∧ transactions s = transactions db
   ∧ categories s = categories db)
  ∨ (create_transaction body = true
     ∧ ∃ g a, accounts s = alter (add_balance (- a)) (user_id g) (accounts db)
         ∧ transactions s = transactions db ++ [allocation_doc (next_id db) g body a]
         ∧ categories s = categories db).
Proof.
  unfold allocateFunds. run_session.
  destruct (goals db !! id) as [g|] eqn:Hg; [|by left].
  destruct (amount body) as [a|] eqn:Ha; [|by left].
  case_bool_decide; [by left|].
  destruct (Goal_valid (set_saved_amount (saved_amount g + a) g)) eqn:Hv;
    [|by left].
  destruct (create_transaction body); [|by left].
  right. split; [done|]. exists g, a.
  rewrite (bool_decide_eq_false_2 _ (prefixed_note_not_empty _ _ _ _)).
  change (is_tipe "expense") with true. cbn [andb negb]. cbv beta iota.
  cbn [mbind option_bind user_id set_saved_amount accounts set_goals
       set_transactions set_next_id].
  destruct (accounts db !! user_id g) as [acc|] eqn:Hacc; cbv beta iota;
    cbn [fst accounts transactions categories set_accounts set_transactions
         set_next_id set_goals]; split_and!; try done.
  - apply alter_balance_const with acc; [done|lia].
  - by rewrite alter_absent.
Qed.

Lemma withdrawFunds_ledger db id body :
  let s := fst (withdrawFunds id body db) in
  (accounts s = accounts db ∧ transactions s = transactions db
   ∧ categories s = categories db)
  ∨ (create_transaction body = true
     ∧ ∃ g a, accounts s = alter (add_balance a) (user_id g) (accounts db)
         ∧ transactions s = transactions db ++ [withdrawal_doc (next_id db) g body a]
         ∧ categories s = categories db).
Proof.
  unfold withdrawFunds. run_session.
  destruct (goals db !! id) as [g|] eqn:Hg; [|by left].
  destruct (amount body) as [a|] eqn:Ha; [|by left].
  case_bool_decide; [by left|]. case_bool_decide; [by left|].
  destruct (Goal_valid (set_saved_amount (saved_amount g - a) g)) eqn:Hv;
    [|by left].
  destruct (create_transaction body); [|by left].
  right. split; [done|]. exists g, a.
  rewrite (bool_decide_eq_false_2 _ (prefixed_note_not_empty _ _ _ _)).
  change (is_tipe "income") with true. cbn [andb negb]. cbv beta iota.
  cbn [mbind option_bind user_id set_saved_amount accounts set_goals
       set_transactions set_next_id].
  destruct (accounts db !! user_id g) as [acc|] eqn:Hacc; cbv beta iota;
    cbn [fst accounts transactions categories set_accounts set_transactions
         set_next_id set_goals]; split_and!; try done.
  - by apply alter_balance_const with acc.
  - by rewrite alter_absent.
Qed.

Lemma createGoal_ledger db u body :
  let s := fst (createGoal u body db) in
  accounts s = accounts db ∧ transactions s = transactions db
  ∧ categories s = categories db.
Proof.
  unfold createGoal. destruct (accounts db !! u); [|done].
  destruct (g_target_amount body); [|done]. run_session.
  by destruct (Goal_valid _).
Qed.

Lemma updateGoal_ledger db id body :
  let s := fst (updateGoal id body db) in
  accounts s = accounts db ∧ transactions s = transactions db
  ∧ categories s = categories db.
Proof.
  unfold updateGoal. destruct (GoalBody_valid body); [|done].
  by destruct (goals db !! id).
Qed.

Lemma deleteGoal_ledger db id :
  let s := fst (deleteGoal id db) in
  accounts s = accounts db ∧ transactions s = transactions db
  ∧ categories s = categories db.
Proof. unfold deleteGoal. by destruct (goals db !! id). Qed.

(** ** Balance conservation under plain updates *)

Lemma balanced_intro db s :
  balanced db →
  (∀ u acc', accounts s !! u = Some acc' →
     ∃ acc, accounts db !! u = Some acc
       ∧ balance acc' - balance acc
         = ledger_sum u (transactions s) - ledger_sum u (transactions db)) →
  balanced s.
Proof.
  intros Hdb H u acc' Hu. destruct (H u acc' Hu) as (acc & Hacc & E).
  specialize (Hdb u acc Hacc). lia.
Qed.

Lemma lookup_alter_set_balance (m : gmap nat Account) u b u' acc' :
  alter (set_balance b) u m !! u' = Some acc' →
  ∃ acc, m !! u' = Some acc
    ∧ balance acc' = if decide (u = u') then b else balance acc.
Proof.
  destruct (decide (u = u')) as [->|Hne].
  - rewrite lookup_alter_eq.
    destruct (m !! u') as [acc|]; [|done]. intros [= <-]. by exists acc.
  - rewrite lookup_alter_ne by done. intros H. by exists acc'.
Qed.

Lemma lookup_alter_add_balance (m : gmap nat Account) u d u' acc' :
  alter (add_balance d) u m !! u' = Some acc' →
  ∃ acc, m !! u' = Some acc
    ∧ balance acc' = balance acc + if decide (u = u') then d else 0.
Proof.
  destruct (decide (u = u')) as [->|Hne].
  - rewrite lookup_alter_eq.
    destruct (m !! u') as [acc|]; [|done]. intros [= <-]. by exists acc.
  - rewrite lookup_alter_ne by done. intros H. exists acc'. split; [done|lia].
Qed.

Lemma ledger_sum_snoc u l doc :
  ledger_sum u (l ++ [doc])
  = ledger_sum u l + if decide (id_akun doc = u) then signed doc else 0.
Proof. unfold ledger_sum. rewrite total_app. simpl. lia. Qed.

Lemma signed_merge_body body orig :
  plain_update body →
  id_akun (merge_body body orig) = id_akun orig
  ∧ signed (merge_body body orig)
    = apply_effect (newTipe body orig) (newNominal body orig) 0.
Proof.
  intros (Hu & Hn & Ht). unfold signed, newTipe, newNominal. simpl.
  rewrite Hu. split; [done|]. f_equal.
  - unfold or_string. destruct (b_tipe body) as [t|]; [|done].
    case_decide; [congruence|done].
  - unfold or_number. destruct (b_nominal body) as [n|]; [|done].
    case_decide; [congruence|done].
Qed.

Lemma balanced_handle r db :
  conserving r → balanced db → balanced (fst (handle r db)).
Proof.
  intros Hr Hdb.
  destruct r as [body|id body|id|u|u body|id body|id|id body|id body|id];
    simpl in *.
  - destruct (createTransaction_cases body db)
      as [[-> _]|(u & t & d & n & acc & Hu & Ht & Hty & Hd & Hne & Hn & Hacc)];
      [done|].
    rewrite (createTransaction_commit body db u t d n acc) by done.
    apply (balanced_intro db); [done|]. cbn [fst ledger accounts transactions].
    intros u' acc' (acc0 & Hacc0 & E)%lookup_alter_set_balance.
    exists acc0. split; [done|]. rewrite ledger_sum_snoc, E. cbn [id_akun new_doc].
    case_decide; [|lia]. subst u'. rewrite Hacc in Hacc0. injection Hacc0 as <-.
    unfold signed. cbn [tipe nominal new_doc]. rewrite apply_effect_signed. lia.
  - destruct (updateTransaction_cases id body db)
      as [[-> _]|(orig & acc & Hfind & Hacc & ->)]; [done|].
    apply (balanced_intro db); [done|]. cbn [fst ledger accounts transactions].
    intros u' acc' (acc0 & Hacc0 & E)%lookup_alter_set_balance.
    exists acc0. split; [done|]. unfold ledger_sum.
    rewrite (total_replace_first _ id _ _ orig) by done.
    destruct (signed_merge_body body orig Hr) as [-> ->]. rewrite E.
    case_decide; [|lia]. subst u'. rewrite Hacc in Hacc0. injection Hacc0 as <-.
    rewrite apply_effect_signed, revert_effect_signed. unfold signed. lia.
  - destruct (deleteTransaction_cases id db)
      as [[-> _]|(orig & acc & Hfind & Hacc & ->)]; [done|].
    apply (balanced_intro db); [done|]. cbn [fst ledger accounts transactions].
    intros u' acc' (acc0 & Hacc0 & E)%lookup_alter_set_balance.
    exists acc0. split; [done|]. unfold ledger_sum.
    rewrite (total_remove_first _ id _ orig) by done. rewrite E.
    case_decide; [|lia]. subst u'. rewrite Hacc in Hacc0. injection Hacc0 as <-.
    rewrite revert_effect_signed. unfold signed. lia.
  - intros u' acc'.
    rewrite (generateCategoriesFromTags_frame accounts) by done.
    rewrite (generateCategoriesFromTags_frame transactions) by done.
    apply Hdb.
  - destruct (createGoal_ledger db u body) as (Ha & Hl & _).
    intros u' acc'. rewrite Ha, Hl. apply Hdb.
  - destruct (updateGoal_ledger db id body) as (Ha & Hl & _).
    intros u' acc'. rewrite Ha, Hl. apply Hdb.
  - destruct (deleteGoal_ledger db id) as (Ha & Hl & _).
    intros u' acc'. rewrite Ha, Hl. apply Hdb.
  - destruct (allocateFunds_ledger db id body)
      as [(Ha & Hl & _)|(_ & g & a & Ha & Hl & _)].
    + intros u' acc'. rewrite Ha, Hl. apply Hdb.
    + apply (balanced_intro db); [done|]. rewrite Ha, Hl.
      intros u' acc' (acc0 & Hacc0 & E)%lookup_alter_add_balance.
      exists acc0. split; [done|]. rewrite ledger_sum_snoc, E.
      cbn [id_akun allocation_doc]. case_decide; [|lia].
      unfold signed, apply_effect. simpl. lia.
  - destruct (withdrawFunds_ledger db id body)
      as [(Ha & Hl & _)|(_ & g & a & Ha & Hl & _)].
    + intros u' acc'. rewrite Ha, Hl. apply Hdb.
    + apply (balanced_intro db); [done|]. rewrite Ha, Hl.
      intros u' acc' (acc0 & Hacc0 & E)%lookup_alter_add_balance.
      exists acc0. split; [done|]. rewrite ledger_sum_snoc, E.
      cbn [id_akun withdrawal_doc]. case_decide; [|lia].
      unfold signed, apply_effect. simpl. lia.
  - unfold deleteAccount. destruct (accounts db !! id); [|done].
    intros u' acc'. simpl. rewrite lookup_delete. case_decide; [done|]. apply Hdb.
Qed.

(** Balance conservation, for the requests that do not hit the falsy
    fallback: from a balanced database, after any sequence of requests
    whose updates are plain, every account's balance is the signed sum of
    its stored transactions. *)
Lemma balance_conservation_plain reqs db :
  Forall conserving reqs → balanced db → balanced (run reqs db).
Proof.
  revert db. induction reqs as [|r reqs IH]; intros db Hreqs Hdb; [done|].
  apply Forall_cons in Hreqs as [Hr Hreqs]. simpl. apply IH; [done|].
  by apply balanced_handle.
Qed.

(** C1. The failing input: an income of 100 is created, then updated with
    a body that sets [nominal] to 0.  The stored transaction has nominal 0,
    so the signed sum of the stored transactions is 0, while the balance of
    the account was re-credited with the original 100. *)
Theorem zero_nominal_breaks_conservation :
  let s := run [CreateTransaction (new_tx "income" 100 []);
                UpdateTransaction 10 (nominal_body 0)] (fresh_db 0) in
  ∃ acc, accounts s !! 1%nat = Some acc
         ∧ balance acc = 100
         ∧ ledger_sum 1 (transactions s) = 0
         ∧ ¬ balanced s.
Proof.
  eexists. split; [vm_compute; reflexivity|]. split_and!; [done|done|].
  intros H. specialize (H 1%nat _ eq_refl). vm_compute in H. discriminate H.
Qed.

(** ** Category totals *)

Lemma tag_total_snoc l doc k :
  tag_total (l ++ [doc]) k = tag_total l k + contribution doc k.
Proof. unfold tag_total. rewrite total_app. simpl. lia. Qed.

Lemma lookup_absorb_new t sign c k :
  is_Some (absorb t sign c !! k) → is_Some (c !! k) ∨ blank k.1.2 = false.
Proof.
  unfold absorb. intros H.
  destruct (lookup_apply_tags_new _ _ _ _ c k H) as [H'|(_ & _ & H' & _)];
    [by left|by right].
Qed.

Lemma Categories_invariant_frame db s :
  categories s = categories db → transactions s = transactions db →
  Categories_invariant db → Categories_invariant s.
Proof. unfold Categories_invariant. by intros -> ->. Qed.

Lemma Categories_invariant_fresh_db b : Categories_invariant (fresh_db b).
Proof.
  split; intros k; simpl.
  - unfold balance_of. by rewrite lookup_empty.
  - rewrite lookup_empty. by intros [? ?].
Defined.

Lemma Categories_invariant_handle r db :
  incremental r → Categories_invariant db →
  Categories_invariant (fst (handle r db)).
Proof.
  intros Hr [Hsum Hname].
  destruct r as [body|id body|id|u|u body|id body|id|id body|id body|id];
    simpl in *.
  - destruct (createTransaction_cases body db)
      as [[-> _]|(u & t & d & n & acc & Hu & Ht & Hty & Hd & Hne & Hn & Hacc)];
      [done|].
    rewrite (createTransaction_commit body db u t d n acc) by done.
    split; intros k; cbn [fst ledger categories transactions].
    + rewrite balance_of_absorb, tag_total_snoc, Hsum. lia.
    + intros [H|H]%lookup_absorb_new; [by apply Hname|done].
  - destruct (updateTransaction_cases id body db)
      as [[-> _]|(orig & acc & Hfind & Hacc & ->)]; [done|].
    split; intros k; cbn [fst ledger categories transactions].
    + rewrite !balance_of_absorb. unfold tag_total.
      rewrite (total_replace_first _ id _ _ orig) by done.
      fold (tag_total (transactions db) k). rewrite Hsum. lia.
    + intros [[H|H]%lookup_absorb_new|H]%lookup_absorb_new;
        [by apply Hname|done|done].
  - destruct (deleteTransaction_cases id db)
      as [[-> _]|(orig & acc & Hfind & Hacc & ->)]; [done|].
    split; intros k; cbn [fst ledger categories transactions].
    + rewrite !balance_of_absorb. unfold tag_total.
      rewrite (total_remove_first _ id _ orig) by done.
      fold (tag_total (transactions db) k). rewrite Hsum. lia.
    + intros [H|H]%lookup_absorb_new; [by apply Hname|done].
  - done.
  - destruct (createGoal_ledger db u body) as (_ & Hl & Hc).
    by apply (Categories_invariant_frame db).
  - destruct (updateGoal_ledger db id body) as (_ & Hl & Hc).
    by apply (Categories_invariant_frame db).
  - destruct (deleteGoal_ledger db id) as (_ & Hl & Hc).
    by apply (Categories_invariant_frame db).
  - destruct (allocateFunds_ledger db id body) as [(_ & Hl & Hc)|(Hrec & _)];
      [|congruence].
    by apply (Categories_invariant_frame db).
  - destruct (withdrawFunds_ledger db id body) as [(_ & Hl & Hc)|(Hrec & _)];
      [|congruence].
    by apply (Categories_invariant_frame db).
  - unfold deleteAccount. by destruct (accounts db !! id).
Qed.

Lemma Categories_invariant_run reqs db :
  Forall incremental reqs → Categories_invariant db →
  Categories_invariant (run reqs db).
Proof.
  revert db. induction reqs as [|r reqs IH]; intros db Hreqs Hdb; [done|].
  apply Forall_cons in Hreqs as [Hr Hreqs]. simpl. apply IH; [done|].
  by apply Categories_invariant_handle.
Qed.




(** ** The rebuild of the categories *)

Lemma overwrite_cons u d l c :
  overwrite u (d :: l) c = overwrite u l (<[category_key u d := td_balance d]> c).
Proof. done. Qed.

(** When the loop runs to the end it has overwritten every entry. *)
Lemma generate_loop_done u ex l acc acc' s s' :
  generate_loop u ex l acc s = Done acc' s' →
  s' = set_categories (overwrite u l (categories s)) s.
Proof.
  revert acc s. induction l as [|d l IH]; intros acc s.
  { simpl. intros [= _ <-]. by rewrite set_categories_id. }
  simpl. destruct (ex !! (u, td_name d, td_type d)) as [b|].
  - run_session. fold generate_loop. intros H%IH.
    by rewrite H, set_categories_twice.
  - run_session. fold generate_loop.
    destruct (is_tipe (td_type d) && negb (bool_decide (td_name d = "")));
      [|done].
    destruct (categories s !! (u, td_name d, td_type d)); [done|].
    intros H%IH. by rewrite H, set_categories_twice.
Qed.

Lemma generate_loop_exited u ex l acc s e :
  generate_loop u ex l acc s = Exited e → ∃ message, e = Throw message.
Proof.
  revert acc s. induction l as [|d l IH]; intros acc s; [done|].
  simpl. destruct (ex !! (u, td_name d, td_type d)) as [b|].
  - run_session. fold generate_loop. apply IH.
  - run_session. fold generate_loop.
    destruct (is_tipe (td_type d) && negb (bool_decide (td_name d = "")));
      [|intros [= <-]; by eexists].
    destruct (categories s !! (u, td_name d, td_type d));
      [intros [= <-]; by eexists|].
    apply IH.
Qed.

(** When every entry has its document in the snapshot, the loop only
    saves, and runs to the end. *)
Lemma generate_loop_existing u ex l acc s :
  (∀ d, d ∈ l → is_Some (ex !! category_key u d)) →
  ∃ acc', generate_loop u ex l acc s
          = Done acc' (set_categories (overwrite u l (categories s)) s).
Proof.
  revert acc s. induction l as [|d l IH]; intros acc s Hl.
  { eexists. simpl. unfold ret. by rewrite set_categories_id. }
  simpl. destruct (Hl d) as [b Hd]; [by left|].
  unfold category_key in Hd. rewrite Hd. run_session. fold generate_loop.
  edestruct IH as [acc' ->]; [intros d' Hd'; apply Hl; by right|].
  eexists. by rewrite set_categories_twice.
Qed.

Lemma generateCategoriesFromTags_cases u db :
  (fst (generateCategoriesFromTags u db)
   = set_categories (overwrite u (rebuilt u db) (categories db)) db
   ∧ code (snd (generateCategoriesFromTags u db)) = 200%nat)
  ∨ (fst (generateCategoriesFromTags u db) = db
     ∧ code (snd (generateCategoriesFromTags u db)) = 500%nat).
Proof.
  unfold generateCategoriesFromTags. run_session.
  fold (rebuilt u db).
  destruct (generate_loop u (categories db) (rebuilt u db) _ db)
    as [acc' s'|e] eqn:E.
  - left. apply generate_loop_done in E. by subst.
  - right. apply generate_loop_exited in E as [m ->]. done.
Qed.

Lemma overwrite_union (u : nat) (l : list TagData) (c1 c2 : gmap (nat * string * string) Z) :
  overwrite u l (c1 ∪ c2) = overwrite u l c1 ∪ c2.
Proof.
  revert c1. induction l as [|d l IH]; intros c1; [done|].
  by rewrite !overwrite_cons, insert_union_l, IH.
Qed.

Lemma overwrite_empty (u : nat) (l : list TagData) (c : gmap (nat * string * string) Z) :
  overwrite u l c = overwrite u l ∅ ∪ c.
Proof. by rewrite <- overwrite_union, (left_id_L ∅ (∪)). Qed.

Lemma overwrite_twice (u : nat) (l : list TagData) (c : gmap (nat * string * string) Z) :
  overwrite u l (overwrite u l c) = overwrite u l c.
Proof.
  rewrite (overwrite_empty u l (overwrite u l c)), (overwrite_empty u l c).
  by rewrite (assoc_L (∪)), (idemp_L (∪)).
Qed.

Lemma overwrite_lookup_elem (u : nat) (l : list TagData) (c : gmap (nat * string * string) Z) d :
  d ∈ l → is_Some (overwrite u l c !! category_key u d).
Proof.
  revert c. induction l as [|d' l IH]; intros c; [by intros ?%elem_of_nil|].
  rewrite overwrite_cons. intros [->|H]%elem_of_cons; [|by apply IH].
  rewrite overwrite_empty, lookup_union.
  rewrite lookup_insert_eq. by destruct (overwrite u l ∅ !! _).
Qed.

Lemma rebuilt_frame u c db : rebuilt u (set_categories c db) = rebuilt u db.
Proof. done. Qed.

(** Running the rebuild a second time changes nothing. *)
Lemma generateCategoriesFromTags_twice u db :
  let s1 := fst (generateCategoriesFromTags u db) in
  fst (generateCategoriesFromTags u s1) = s1.
Proof.
  intros s1. subst s1.
  destruct (generateCategoriesFromTags_cases u db) as [[E _]|[E _]].
  - rewrite E. set (c1 := overwrite u (rebuilt u db) (categories db)).
    unfold generateCategoriesFromTags. run_session.
    fold (rebuilt u (set_categories c1 db)). rewrite rebuilt_frame.
    cbn [categories set_categories].
    edestruct (generate_loop_existing u c1 (rebuilt u db)) as [acc' ->].
    { intros d Hd. by apply overwrite_lookup_elem. }
    cbn [fst categories set_categories]. unfold c1.
    by rewrite overwrite_twice.
  - by rewrite !E.
Qed.

(** *** The keys of [tagData] *)

Lemma list_ascii_of_string_app s1 s2 :
  String.list_ascii_of_string (s1 +:+ s2)
  = String.list_ascii_of_string s1 ++ String.list_ascii_of_string s2.
Proof.
  induction s1 as [|c s1 IH]; [done|].
  change (String c s1 +:+ s2) with (String c (s1 +:+ s2)). simpl. by rewrite IH.
Qed.

Lemma list_ascii_of_string_inj s1 s2 :
  String.list_ascii_of_string s1 = String.list_ascii_of_string s2 → s1 = s2.
Proof.
  intros H. rewrite <- (String.string_of_list_ascii_of_string s1),
    <- (String.string_of_list_ascii_of_string s2). by rewrite H.
Qed.

(** Two keys that end in a kind of the enum come from the same tag and the
    same kind. *)
Lemma tag_key_inj tag1 ty1 tag2 ty2 :
  is_tipe ty1 = true → is_tipe ty2 = true →
  tag_key tag1 ty1 = tag_key tag2 ty2 → tag1 = tag2 ∧ ty1 = ty2.
Proof.
  unfold is_tipe, tag_key. rewrite !orb_true_iff, !bool_decide_eq_true.
  intros H1 H2 E. apply (f_equal String.list_ascii_of_string) in E.
  rewrite !list_ascii_of_string_app in E.
  destruct H1 as [-> | ->], H2 as [-> | ->].
  - apply app_inv_tail in E. split; [by apply list_ascii_of_string_inj|done].
  - apply (f_equal (@rev _)) in E. rewrite !rev_app_distr in E.
    simpl in E. discriminate E.
  - apply (f_equal (@rev _)) in E. rewrite !rev_app_distr in E.
    simpl in E. discriminate E.
  - apply app_inv_tail in E. split; [by apply list_ascii_of_string_inj|done].
Qed.

(** *** The JavaScript map *)

Section JsMap.
Context {V : Type}.
Implicit Types (k : string) (v : V) (m : JsMap V).

Lemma Map_get_set k v m k' :
  Map_get k' (Map_set k v m) = if decide (k = k') then Some v else Map_get k' m.
Proof.
  induction m as [|[k0 v0] m IH]; simpl.
  - repeat case_decide; congruence.
  - destruct (decide (k0 = k)) as [->|Hk0]; simpl.
    + repeat case_decide; congruence.
    + rewrite IH. repeat case_decide; congruence.
Qed.

Lemma Map_set_set k v v' m : Map_set k v (Map_set k v' m) = Map_set k v m.
Proof.
  induction m as [|[k0 v0] m IH]; simpl.
  - by case_decide.
  - destruct (decide (k0 = k)) as [->|Hk0]; simpl.
    + by case_decide.
    + case_decide; [done|]. by rewrite IH.
Qed.

(** [set] keeps the place of a present key and appends a new one. *)
Lemma Map_set_keys k v m :
  (Map_set k v m).*1 = if bool_decide (k ∈ m.*1) then m.*1 else m.*1 ++ [k].
Proof.
  induction m as [|[k0 v0] m IH]; [done|]. cbn [Map_set].
  destruct (decide (k0 = k)) as [->|Hk0]; rewrite !fmap_cons; cbn [fst].
  - rewrite bool_decide_eq_true_2; [done|by left].
  - rewrite IH. case_bool_decide as Hin.
    + rewrite bool_decide_eq_true_2; [done|by right].
    + rewrite bool_decide_eq_false_2; [done|].
      intros [?|?]%elem_of_cons; congruence.
Qed.

Lemma NoDup_Map_set k v m : NoDup m.*1 → NoDup (Map_set k v m).*1.
Proof.
  intros H. rewrite Map_set_keys. case_bool_decide as Hin; [done|].
  apply NoDup_app. split_and!; [done| |apply NoDup_singleton].
  intros x Hx ->%list_elem_of_singleton. done.
Qed.

Lemma Map_get_elem k v m : Map_get k m = Some v → (k, v) ∈ m.
Proof.
  induction m as [|[k0 v0] m IH]; simpl; [done|].
  case_decide as Hk; [intros [= ->]; subst; by left|].
  intros H. right. by apply IH.
Qed.

Lemma elem_Map_get k v m : NoDup m.*1 → (k, v) ∈ m → Map_get k m = Some v.
Proof.
  induction m as [|[k0 v0] m IH]; simpl; [by intros _ ?%elem_of_nil|].
  intros [Hk0 Hm]%NoDup_cons [[= <- <-]|Hin]%elem_of_cons.
  - by case_decide.
  - case_decide as Hk; [|by apply IH]. subst k0. destruct Hk0.
    apply list_elem_of_fmap. by exists (k, v).
Qed.

End JsMap.

(** *** The scan as a fold over occurrences *)

Lemma collect_tag_occurrence t m tag :
  collect_tag t m tag
  = if blank tag then m else collect_occurrence m (tag, tipe t, nominal t).
Proof.
  unfold collect_tag, collect_occurrence, occurrence_key, tag_key, Map_has.
  destruct (blank tag); [done|]. cbn [fst snd].
  set (key := tag +:+ "-" +:+ tipe t).
  destruct (Map_get key m) as [data|] eqn:Hget.
  - rewrite bool_decide_eq_true_2 by done. by rewrite Hget.
  - rewrite bool_decide_eq_false_2 by (by intros [? ?]).
    rewrite Map_get_set. case_decide; [|done]. by rewrite Map_set_set.
Qed.

Lemma collect_tags_occurrences t l m :
  foldl (collect_tag t) m l
  = foldl collect_occurrence m
      ((λ tag, (tag, tipe t, nominal t)) <$> filter (λ tag, blank tag = false) l).
Proof.
  revert m. induction l as [|tag l IH]; intros m; [done|].
  simpl. rewrite IH, collect_tag_occurrence, filter_cons.
  destruct (blank tag) eqn:Hb; by case_decide.
Qed.

Lemma collect_occurrences l m :
  foldl collect_transaction m l
  = foldl collect_occurrence m (l ≫= occurrences_of).
Proof.
  revert m. induction l as [|t l IH]; intros m; [done|].
  rewrite bind_cons, foldl_app. cbn [foldl]. rewrite IH. f_equal.
  apply collect_tags_occurrences.
Qed.

(** *** The invariant of the scan *)

Lemma key_sum_app os1 os2 key :
  key_sum (os1 ++ os2) key = key_sum os1 key + key_sum os2 key.
Proof. induction os1 as [|o os1 IH]; simpl; [done|]. rewrite IH. lia. Qed.

Lemma key_sum_absent os key :
  (∀ o, o ∈ os → occurrence_key o ≠ key) → key_sum os key = 0.
Proof.
  induction os as [|o os IH]; intros H; simpl; [done|].
  rewrite IH by (intros o' Ho'; apply H; by right).
  case_decide as Hk; [|done]. destruct (H o); [by left|done].
Qed.

Lemma Scanned_nil : Scanned [] [].
Proof.
  split_and!; [constructor|done|]. by intros o ?%elem_of_nil.
Qed.

Lemma Scanned_step m os o :
  Scanned m os → Scanned (collect_occurrence m o) (os ++ [o]).
Proof.
  intros (Hnd & Hget & Hall). unfold collect_occurrence.
  set (key := occurrence_key o). split_and!.
  - by apply NoDup_Map_set.
  - intros κ d. rewrite Map_get_set, key_sum_app. simpl.
    case_decide as Hκ.
    + subst κ. rewrite decide_True by done.
      destruct (Map_get key m) as [data|] eqn:Hdata; intros [= <-]; simpl.
      * destruct (Hget key data Hdata) as (Hk & Hb & n & Hn).
        split_and!; [done|lia|]. exists n. apply elem_of_app. by left.
      * split_and!; [done| |].
        -- rewrite key_sum_absent; [lia|]. intros o' Ho' Hk.
           destruct (Hall o' Ho') as [d' Hd']. fold key in Hdata. congruence.
        -- exists o.2. apply elem_of_app. right. apply list_elem_of_singleton.
           by destruct o as [[? ?] ?].
    + intros Hd. destruct (Hget κ d Hd) as (Hk & Hb & n & Hn).
      rewrite decide_False by done.
      split_and!; [done|lia|]. exists n. apply elem_of_app. by left.
  - intros o' [Ho'| ->%list_elem_of_singleton]%elem_of_app; rewrite Map_get_set.
    + case_decide; [by eexists|]. by apply Hall.
    + rewrite decide_True by done. by eexists.
Qed.

Lemma Scanned_foldl os m os0 :
  Scanned m os0 → Scanned (foldl collect_occurrence m os) (os0 ++ os).
Proof.
  revert m os0. induction os as [|o os IH]; intros m os0 H.
  - by rewrite app_nil_r.
  - replace (os0 ++ o :: os) with ((os0 ++ [o]) ++ os)
      by (by rewrite <- (assoc_L (++))).
    apply IH. by apply Scanned_step.
Qed.

Lemma Scanned_collect l : Scanned (collect l) (l ≫= occurrences_of).
Proof.
  unfold collect. rewrite collect_occurrences.
  apply (Scanned_foldl _ [] []), Scanned_nil.
Qed.

(** *** The sums of the scan *)

Lemma key_sum_tags ty' n name ty (l : list string) :
  is_tipe ty' = true → is_tipe ty = true → blank name = false →
  key_sum ((λ tag, (tag, ty', n)) <$> filter (λ tag, blank tag = false) l)
    (tag_key name ty)
  = if bool_decide (ty' = ty) then n * occurrences name l else 0.
Proof.
  intros Hty' Hty Hname. induction l as [|tag l IH].
  { simpl. unfold occurrences. simpl. case_bool_decide; lia. }
  rewrite filter_cons, occurrences_cons.
  destruct (decide (blank tag = false)) as [Hb|Hb].
  - rewrite fmap_cons. cbn [key_sum foldr]. fold (key_sum ((λ tag0, (tag0, ty', n))
      <$> filter (λ tag0, blank tag0 = false) l) (tag_key name ty)).
    rewrite IH. unfold occurrence_key. cbn [fst snd].
    destruct (decide (tag_key tag ty' = tag_key name ty)) as [Hk|Hk].
    + apply tag_key_inj in Hk as [-> ->]; [|done..].
      rewrite bool_decide_eq_true_2 by done. rewrite decide_True by done. lia.
    + case_bool_decide as Hty2; [|lia]. subst ty'.
      rewrite decide_False; [lia|]. by intros ->.
  - rewrite IH. case_bool_decide; [|done].
    rewrite decide_False; [lia|]. intros ->. congruence.
Qed.

Lemma tagged_sum_cons t l k :
  tagged_sum (t :: l) k
  = (if bool_decide (id_akun t = k.1.1) && bool_decide (tipe t = k.2)
     then nominal t * occurrences k.1.2 (tags t) else 0) + tagged_sum l k.
Proof. done. Qed.

Lemma key_sum_rebuilt u (l : list Transaction) name ty :
  (∀ t, t ∈ l → id_akun t = u → is_tipe (tipe t) = true) →
  is_tipe ty = true → blank name = false →
  key_sum (filter (λ t, of_account u t) l ≫= occurrences_of) (tag_key name ty)
  = tagged_sum l (u, name, ty).
Proof.
  intros Hl Hty Hname. induction l as [|t l IH]; [done|].
  rewrite filter_cons, tagged_sum_cons. cbn [fst snd].
  rewrite <- IH by (intros t' Ht'; apply Hl; by right).
  unfold of_account at 1. destruct (decide (bool_decide (id_akun t = u))) as [Hu|Hu].
  - apply bool_decide_unpack in Hu.
    rewrite bind_cons, key_sum_app. unfold occurrences_of at 1.
    rewrite key_sum_tags; [|apply Hl; [by left|done]|done..].
    rewrite (bool_decide_eq_true_2 _ Hu). simpl andb. lia.
  - rewrite bool_decide_eq_false_2; [simpl; lia|].
    intros Hu'. apply Hu. by apply bool_decide_pack.
Qed.

(** *** The categories after the overwrite *)

Lemma overwrite_lookup (u : nat) (l : list TagData)
    (c : gmap (nat * string * string) Z) k b :
  (∀ d, d ∈ l → category_key u d = k → td_balance d = b) →
  (∃ d, d ∈ l ∧ category_key u d = k) ∨ c !! k = Some b →
  overwrite u l c !! k = Some b.
Proof.
  revert c. induction l as [|d l IH]; intros c Hb H.
  { destruct H as [(d & ?%elem_of_nil & _)|H]; done. }
  rewrite overwrite_cons. apply IH; [intros d' Hd'; apply Hb; by right|].
  destruct H as [(d' & [->|Hd']%elem_of_cons & Hk)|H].
  - right. rewrite Hk, lookup_insert_eq. f_equal. apply Hb; [by left|done].
  - left. by exists d'.
  - right. destruct (decide (category_key u d = k)) as [Hk|Hk].
    + rewrite Hk, lookup_insert_eq. f_equal. apply Hb; [by left|done].
    + by rewrite lookup_insert_ne.
Qed.

Lemma overwrite_lookup_other (u : nat) (l : list TagData)
    (c : gmap (nat * string * string) Z) k :
  (∀ d, d ∈ l → category_key u d ≠ k) → overwrite u l c !! k = c !! k.
Proof.
  revert c. induction l as [|d l IH]; intros c H; [done|].
  rewrite overwrite_cons, IH by (intros d' Hd'; apply H; by right).
  apply lookup_insert_ne, H. by left.
Qed.

(** *** When the rebuild commits *)

Lemma generate_loop_succeeds u ex (l : list TagData) acc s :
  NoDup (category_key u <$> l) →
  (∀ d, d ∈ l → is_tipe (td_type d) = true ∧ td_name d ≠ "") →
  (∀ d, d ∈ l → ex !! category_key u d = None →
        categories s !! category_key u d = None) →
  ∃ acc', generate_loop u ex l acc s
          = Done acc' (set_categories (overwrite u l (categories s)) s).
Proof.
  revert acc s. induction l as [|d l IH]; intros acc s Hnd Hvalid Hlive.
  { eexists. simpl. unfold ret. by rewrite set_categories_id. }
  rewrite fmap_cons in Hnd. apply NoDup_cons in Hnd as [Hd Hnd].
  assert (Hnext : ∀ b d', d' ∈ l →
            ex !! category_key u d' = None →
            categories (set_categories (<[category_key u d := b]> (categories s)) s)
              !! category_key u d' = None).
  { intros b d' Hd' Hex. cbn [categories set_categories].
    rewrite lookup_insert_ne; [apply Hlive; [by right|done]|].
    intros E. apply Hd. rewrite E. by apply list_elem_of_fmap_2. }
  simpl. fold (category_key u d).
  destruct (ex !! category_key u d) as [b|] eqn:Hex.
  - run_session. fold generate_loop.
    edestruct IH as [acc' ->];
      [done|intros d' Hd'; apply Hvalid; by right|apply Hnext|].
    eexists. by rewrite set_categories_twice.
  - run_session. fold generate_loop. unfold category_key in *.
    destruct (Hvalid d) as [-> Hname]; [by left|].
    rewrite (bool_decide_eq_false_2 _ Hname). cbn [andb negb].
    rewrite Hlive by (done || by left).
    edestruct IH as [acc' ->];
      [done|intros d' Hd'; apply Hvalid; by right|apply Hnext|].
    eexists. by rewrite set_categories_twice.
Qed.

Lemma occurrence_elem u (l : list Transaction) o :
  o ∈ filter (λ t, of_account u t) l ≫= occurrences_of ↔
  ∃ t, t ∈ l ∧ id_akun t = u ∧ o.1.1 ∈ tags t ∧ blank o.1.1 = false
       ∧ o.1.2 = tipe t ∧ o.2 = nominal t.
Proof.
  rewrite list_elem_of_bind. split.
  - intros (t & Ho & [Hu Ht]%list_elem_of_filter).
    apply bool_decide_unpack in Hu. unfold occurrences_of in Ho.
    apply list_elem_of_fmap in Ho as (tag & -> & [Hb Htag]%list_elem_of_filter).
    by exists t.
  - intros (t & Ht & Hu & Htag & Hb & Hty & Hn). exists t. split.
    + unfold occurrences_of. apply list_elem_of_fmap. exists o.1.1. split.
      * destruct o as [[? ?] ?]. simpl in *. by subst.
      * by apply list_elem_of_filter.
    + apply list_elem_of_filter. split; [|done]. by apply bool_decide_pack.
Qed.

(** Every entry of [tagData] sits under the key of its own name and type,
    and stands for a tag of a transaction of the account. *)
Lemma rebuilt_entry u db d :
  d ∈ rebuilt u db →
  Map_get (tag_key (td_name d) (td_type d))
    (collect (filter (λ t, of_account u t) (transactions db))) = Some d
  ∧ tagged u (td_name d) (td_type d) db.
Proof.
  unfold rebuilt, Map_values. intros ([κ d'] & -> & Hin)%list_elem_of_fmap.
  destruct (Scanned_collect (filter (λ t, of_account u t) (transactions db)))
    as (Hnd & Hget & _).
  apply (elem_Map_get _ _ _ Hnd) in Hin.
  destruct (Hget κ d' Hin) as (-> & _ & n & Ho). split; [done|].
  apply occurrence_elem in Ho as (t & Ht & Hu & Htag & Hb & Hty & _).
  by exists t.
Qed.

Lemma rebuilt_key_inj u db d1 d2 :
  d1 ∈ rebuilt u db → d2 ∈ rebuilt u db →
  category_key u d1 = category_key u d2 → d1 = d2.
Proof.
  intros [H1 _]%rebuilt_entry [H2 _]%rebuilt_entry [= Hn Ht].
  rewrite Hn, Ht in H1. congruence.
Qed.

Lemma rebuilt_NoDup u db : NoDup (category_key u <$> rebuilt u db).
Proof.
  apply NoDup_fmap_2_strong.
  - intros d1 d2. apply rebuilt_key_inj.
  - unfold rebuilt, Map_values. apply NoDup_fmap_2_strong.
    + intros [κ1 d1] [κ2 d2] H1 H2. simpl. intros <-.
      destruct (Scanned_collect (filter (λ t, of_account u t) (transactions db)))
        as (Hnd & Hget & _).
      apply (elem_Map_get _ _ _ Hnd) in H1, H2.
      destruct (Hget _ _ H1) as (-> & _), (Hget _ _ H2) as (-> & _). done.
    + eapply NoDup_fmap_1.
      apply (Scanned_collect (filter (λ t, of_account u t) (transactions db))).
Qed.

Lemma tagged_kind u name ty db :
  kinds_valid u db → tagged u name ty db → is_tipe ty = true.
Proof. intros Hv (t & Ht & Hu & <- & _). by apply Hv. Qed.

Lemma generateCategoriesFromTags_commits u db :
  kinds_valid u db →
  fst (generateCategoriesFromTags u db)
  = set_categories (overwrite u (rebuilt u db) (categories db)) db
  ∧ code (snd (generateCategoriesFromTags u db)) = 200%nat.
Proof.
  intros Hv. unfold generateCategoriesFromTags. run_session. fold (rebuilt u db).
  edestruct (generate_loop_succeeds u (categories db) (rebuilt u db))
    as [acc' ->]; [apply rebuilt_NoDup| |done|done].
  intros d [_ Hd]%rebuilt_entry. split; [by eapply tagged_kind|].
  destruct Hd as (t & _ & _ & _ & _ & Hb). by apply blank_not_empty.
Qed.

(** C8. Rebuild idempotence: running [generateCategoriesFromTags] a second
    time on the database the first run left yields that same database, so
    the category balances after both runs are identical.  A run that
    commits overwrites: the Category of every entry of [tagData] holds the
    balance computed for the entry, whatever balance it held before.  When
    the transactions of the account have kinds of the enum, a run commits,
    the Category of every (tag, kind) of the account holds the per-(tag,
    kind) sum of the stored transactions, and every other Category is left
    as it was. *)
Theorem rebuild_idempotence (db : Db) (u : ObjectId) :
  let s1 := fst (generateCategoriesFromTags u db) in
  let s2 := fst (generateCategoriesFromTags u s1) in
  s2 = s1
  ∧ (code (snd (generateCategoriesFromTags u db)) = 200%nat →
     ∀ d, d ∈ rebuilt u db →
          categories s1 !! category_key u d = Some (td_balance d))
  ∧ (kinds_valid u db →
     code (snd (generateCategoriesFromTags u db)) = 200%nat
     ∧ (∀ name ty, tagged u name ty db →
          categories s1 !! (u, name, ty)
          = Some (tagged_sum (transactions db) (u, name, ty)))
     ∧ (∀ k, ¬ (k.1.1 = u ∧ tagged u k.1.2 k.2 db) →
          categories s1 !! k = categories db !! k)).
Proof.
  intros s1 s2. split; [apply generateCategoriesFromTags_twice|]. split.
  { intros Hcode d Hd. subst s1.
    destruct (generateCategoriesFromTags_cases u db) as [[-> _]|[_ E]];
      [|rewrite E in Hcode; discriminate Hcode].
    cbn [categories set_categories]. apply overwrite_lookup.
    - intros d' Hd' Hk. f_equal. by apply (rebuilt_key_inj u db).
    - left. by exists d. }
  intros Hv. destruct (generateCategoriesFromTags_commits u db Hv) as [E Hcode].
  subst s1. rewrite E. cbn [categories set_categories].
  split_and!; [done| |].
  - intros name ty Htag. pose proof (tagged_kind _ _ _ _ Hv Htag) as Hty.
    destruct Htag as (t & Ht & Hu & Htipe & Hin & Hb).
    destruct (Scanned_collect (filter (λ t, of_account u t) (transactions db)))
      as (Hnd & Hget & Hall).
    destruct (Hall (name, ty, nominal t)) as [d Hd].
    { apply occurrence_elem. by exists t. }
    unfold occurrence_key in Hd. cbn [fst snd] in Hd.
    destruct (Hget _ _ Hd) as (Hkey & Hbal & n & Ho).
    assert (Hd_in : d ∈ rebuilt u db).
    { unfold rebuilt, Map_values. apply list_elem_of_fmap.
      exists (tag_key name ty, d). split; [done|]. by apply Map_get_elem. }
    apply tag_key_inj in Hkey as [Hname Hkind]; [|done|].
    2:{ destruct (rebuilt_entry u db d Hd_in) as [_ Hd_tag].
        by eapply tagged_kind. }
    rewrite <- (key_sum_rebuilt u) by done. rewrite <- Hbal.
    apply overwrite_lookup.
    + intros d' Hd' Hk. f_equal.
      apply (rebuilt_key_inj u db); [done..|].
      rewrite Hk. unfold category_key. by rewrite <- Hname, <- Hkind.
    + left. exists d. split; [done|]. unfold category_key.
      by rewrite <- Hname, <- Hkind.
  - intros k Hk. apply overwrite_lookup_other. intros d Hd E'.
    apply Hk. destruct (rebuilt_entry u db d Hd) as [_ Hd_tag].
    subst k. done.
Qed.

Lemma rebuild_idempotence_witness :
  let db := run [CreateTransaction (new_tx "expense" 300 ["goal"; "goal"]);
                 CreateGoal 1 (new_goal "Liburan" 500);
                 AllocateFunds 11 (funds 100 true)] (fresh_db 1000) in
  let s1 := fst (generateCategoriesFromTags 1 db) in
  code (snd (generateCategoriesFromTags 1 db)) = 200%nat
  ∧ categories db !! (1%nat, "goal", "expense") = Some 600
  ∧ categories s1 !! (1%nat, "goal", "expense")
    = Some (tagged_sum (transactions db) (1%nat, "goal", "expense"))
  ∧ tagged_sum (transactions db) (1%nat, "goal", "expense") = 700
  ∧ fst (generateCategoriesFromTags 1 s1) = s1.
Proof.
  intros db s1.
  assert (Hv : kinds_valid 1 db).
  { intros t Ht _. vm_compute in Ht.
    repeat (apply elem_of_cons in Ht as [->|Ht]; [reflexivity|]).
    by apply elem_of_nil in Ht. }
  destruct (rebuild_idempotence db 1) as (Htwice & _ & Hrun).
  destruct (Hrun Hv) as (Hcode & Hsum & _).
  split_and!; [exact Hcode|vm_compute; reflexivity| |vm_compute; reflexivity
              |exact Htwice].
  apply Hsum. eexists. split_and!; [by left|reflexivity..| |reflexivity].
  by left.
Defined.

(** * Further properties of the handlers *)

(** ** Transactions *)

Lemma balanced_fresh_db : balanced (fresh_db 0).
Proof.
  intros u acc. simpl. intros [<- <-]%lookup_singleton_Some. reflexivity.
Defined.

(** X1. Balance conservation, for whole amounts and the handlers of the
    transactions, the goals, the rebuild of the categories and
    [deleteAccount] ([createAccount] and [updateAccount], which write a
    balance as the body gives it, are not among them): from a database
    where every balance is the signed sum of the account's transactions,
    after any sequence of such requests whose transaction updates carry no
    [id_akun], no [nominal] 0 and no empty [tipe], and that keeps the
    amounts of the database whole and within bounds, the balance that
    [getAccountBalance] answers for an account is the signed sum of its
    stored transactions (allocations and withdrawals that record a
    transaction included). *)
Theorem balance_conservation (db : Db) (reqs : list Request) :
  balanced db → Forall conserving reqs →
  forallb whole_units (trace reqs db) = true →
  ∀ u b, getAccountBalance u (run reqs db) = Sent 200 b →
         b = ledger_sum u (transactions (run reqs db)).
Proof.
  intros Hdb Hreqs _ u b. unfold getAccountBalance.
  destruct (accounts (run reqs db) !! u) as [acc|] eqn:Hacc; [|done].
  intros [= <-]. by apply (balance_conservation_plain reqs db).
Qed.

Lemma balance_conservation_witness :
  let reqs := [CreateTransaction (new_tx "income" 1000 []);
               CreateTransaction (new_tx "expense" 300 ["food"]);
               UpdateTransaction 11 (nominal_body 500);
               CreateGoal 1 (new_goal "Liburan" 400);
               AllocateFunds 12 (funds 200 true);
               DeleteTransaction 10] in
  getAccountBalance 1 (run reqs (fresh_db 0)) = Sent 200 (-700)
  ∧ -700 = ledger_sum 1 (transactions (run reqs (fresh_db 0))).
Proof.
  intros reqs.
  assert (H : getAccountBalance 1 (run reqs (fresh_db 0)) = Sent 200 (-700))
    by (vm_compute; reflexivity).
  split; [exact H|].
  apply (balance_conservation (fresh_db 0) reqs balanced_fresh_db);
    [|vm_compute; reflexivity|exact H].
  repeat constructor; simpl; discriminate.
Defined.

Lemma find_snoc_fresh id (l : list Transaction) doc :
  (∀ t, t ∈ l → _id t ≠ id) → _id doc = id →
  List.find (has_id id) (l ++ [doc]) = Some doc.
Proof.
  intros Hl Hdoc. induction l as [|t l IH]; simpl.
  - unfold has_id. by rewrite bool_decide_eq_true_2.
  - unfold has_id at 1. rewrite bool_decide_eq_false_2 by (apply Hl; by left).
    apply IH. intros t' Ht'. apply Hl. by right.
Qed.

Lemma remove_first_snoc_fresh id (l : list Transaction) doc :
  (∀ t, t ∈ l → _id t ≠ id) → _id doc = id →
  remove_first id (l ++ [doc]) = l.
Proof.
  intros Hl Hdoc. induction l as [|t l IH]; simpl.
  - unfold has_id. by rewrite bool_decide_eq_true_2.
  - unfold has_id at 1. rewrite bool_decide_eq_false_2 by (apply Hl; by left).
    f_equal. apply IH. intros t' Ht'. apply Hl. by right.
Qed.

Lemma alter_restore (m : gmap nat Account) u acc b :
  m !! u = Some acc →
  alter (set_balance (balance acc)) u (alter (set_balance b) u m) = m.
Proof.
  intros Hu. apply map_eq. intros i.
  destruct (decide (u = i)) as [<-|Hne].
  - rewrite !lookup_alter_eq, Hu. by destruct acc.
  - by rewrite !lookup_alter_ne.
Qed.

Lemma deleteTransaction_commit id db orig acc :
  find_tx id db = Some orig → accounts db !! id_akun orig = Some acc →
  is_tipe (tipe orig) = true →
  deleteTransaction id db
  = (ledger
       (alter (set_balance
                 (revert_effect (tipe orig) (nominal orig) (balance acc)))
          (id_akun orig) (accounts db))
       (remove_first id (transactions db))
       (absorb orig (-1) (categories db))
       (next_id db) db,
     Json 200 (Message "Transaction deleted successfully")).
Proof.
  intros Hfind Hacc Hty. unfold deleteTransaction. run_session.
  unfold find_tx in Hfind. rewrite Hfind. cbn [mbind option_bind]. rewrite Hacc.
  by rewrite updateCategoryBalances_done by done.
Qed.

(** X2. Reversal, for whole amounts: when the amounts of the database are
    whole and within bounds before and after the creation, deleting a
    transaction right after it was created gives back the accounts, the
    transactions and the goals the database had, and the balance of every
    category; a category stored before keeps its balance (a category the
    creation added stays, with balance 0). *)
Theorem create_then_delete (db : Db) (body : TransactionBody) :
  (∀ t, t ∈ transactions db → _id t ≠ next_id db) →
  whole_units db = true →
  whole_units (fst (createTransaction body db)) = true →
  code (snd (createTransaction body db)) = 201%nat →
  let out := deleteTransaction (next_id db) (fst (createTransaction body db)) in
  code (snd out) = 200%nat
  ∧ accounts (fst out) = accounts db
  ∧ transactions (fst out) = transactions db
  ∧ goals (fst out) = goals db
  ∧ (∀ k, balance_of (categories (fst out)) k = balance_of (categories db) k)
  ∧ (∀ k b, categories db !! k = Some b → categories (fst out) !! k = Some b).
Proof.
  intros Hfresh _ _ Hcode out. subst out.
  destruct (createTransaction_cases body db)
    as [[_ Hne]|(u & t & d & n & acc & Hu & Ht & Hty & Hd & Hnd & Hn & Hacc)];
    [done|].
  rewrite (createTransaction_commit body db u t d n acc) by done. cbn [fst].
  set (doc := new_doc (next_id db) u t d n body).
  rewrite (deleteTransaction_commit (next_id db) _ doc
             (set_balance (apply_effect t n (balance acc)) acc)); cycle 1.
  - unfold find_tx. cbn [transactions ledger]. by apply find_snoc_fresh.
  - cbn [accounts ledger id_akun doc new_doc]. by apply lookup_alter_balance.
  - done.
  - cbn [fst snd code ledger accounts transactions
      categories goals id_akun tipe nominal doc new_doc balance set_balance].
    assert (Hbal : ∀ k, balance_of (absorb doc (-1) (absorb doc 1 (categories db))) k
                        = balance_of (categories db) k).
    { intros k. rewrite !balance_of_absorb. lia. }
    split_and!; [done| |by apply remove_first_snoc_fresh|done|done|].
    + rewrite apply_effect_signed, revert_effect_signed.
      replace (balance acc + apply_effect t n 0 - apply_effect t n 0)
        with (balance acc) by lia.
      by apply alter_restore.
    + apply balance_of_kept; [done|].
      intros k Hk. by do 2 apply lookup_absorb_mono.
Qed.

Lemma create_then_delete_witness :
  let body := new_tx "expense" 300 ["food"; "rumah"] in
  let out := deleteTransaction 10 (fst (createTransaction body (fresh_db 50))) in
  code (snd out) = 200%nat
  ∧ accounts (fst out) = accounts (fresh_db 50)
  ∧ transactions (fst out) = transactions (fresh_db 50).
Proof.
  intros body out.
  destruct (create_then_delete (fresh_db 50) body) as (H1 & H2 & H3 & _).
  - intros t Ht. by apply elem_of_nil in Ht.
  - vm_compute. reflexivity.
  - vm_compute. reflexivity.
  - vm_compute. reflexivity.
  - split_and!; [exact H1|exact H2|exact H3].
Defined.

Lemma apply_tags_blank (u : nat) (ty : string) (amt : Z) (l : list string)
    (c : gmap (nat * string * string) Z) :
  Forall (λ tag, blank tag = true) l → apply_tags u ty amt l c = c.
Proof.
  induction 1 as [|tag l Hb _ IH]; [done|].
  by rewrite apply_tags_cons, Hb.
Qed.

(** X3. Tags of ASCII white space reach no category: when every tag of a
    transaction is empty or made of the white space of the ASCII range
    only (tab, line feed, vertical tab, form feed, carriage return, space),
    or it has no tag, [updateCategoryBalances] runs to the end without
    touching the database, whatever the kind of the transaction; and
    [createTransaction] with such tags leaves the categories as they were,
    whatever it answers.  (A tag made of other white space that [trim]
    removes is not covered.) *)
Theorem blank_tags_touch_no_category :
  (∀ (t : Transaction) (rev : bool) (s : Db),
     Forall (λ tag, blank tag = true) (tags t) →
     updateCategoryBalances t rev s = Done tt s)
  ∧ (∀ (body : TransactionBody) (db : Db),
       Forall (λ tag, blank tag = true) (default [] (b_tags body)) →
       categories (fst (createTransaction body db)) = categories db).
Proof.
  assert (Hloop : ∀ t amt l s,
            Forall (λ tag, blank tag = true) l →
            updateCategoryBalances_loop t amt l s = Done tt s).
  { intros t amt l s. induction 1 as [|tag l Hb _ IH]; [done|].
    simpl. by rewrite Hb. }
  split.
  - intros t rev s Hb. unfold updateCategoryBalances.
    destruct (tags t) eqn:E; [done|]. by apply Hloop.
  - intros body db Hb.
    destruct (createTransaction_cases body db)
      as [[-> _]|(u & t & d & n & acc & Hu & Ht & Hty & Hd & Hnd & Hn & Hacc)];
      [done|].
    rewrite (createTransaction_commit body db u t d n acc) by done.
    cbn [fst ledger categories]. unfold absorb. by apply apply_tags_blank.
Qed.

Lemma blank_tags_touch_no_category_witness :
  categories (fst (createTransaction (new_tx "expense" 300 [""; "  "]) (fresh_db 0)))
  = categories (fresh_db 0).
Proof.
  apply (proj2 blank_tags_touch_no_category).
  repeat constructor.
Defined.

(** X4. Read your writes: once [createTransaction] has answered 201 with a
    document (and the id it drew is not the id of an older document),
    [getTransactionById] answers that document, [getTransactionsByAccount]
    answers the transactions the account had followed by it, and
    [getAccountBalance] answers the old balance plus the amount for an
    income, minus the amount for an expense. *)
Theorem created_transaction_is_read_back (db : Db) (body : TransactionBody)
    (doc : Transaction) :
  (∀ t, t ∈ transactions db → _id t ≠ next_id db) →
  snd (createTransaction body db) = Json 201 (TransactionDoc doc) →
  let s := fst (createTransaction body db) in
  getTransactionById (_id doc) s = Sent 200 doc
  ∧ getTransactionsByAccount (id_akun doc) s
    = Sent 200 (filter (λ t, of_account (id_akun doc) t) (transactions db) ++ [doc])
  ∧ ∃ b, getAccountBalance (id_akun doc) db = Sent 200 b
         ∧ getAccountBalance (id_akun doc) s
           = Sent 200 (apply_effect (tipe doc) (nominal doc) b).
Proof.
  intros Hfresh Hsnd s. subst s.
  destruct (createTransaction_cases body db)
    as [[_ Hne]|(u & t & d & n & acc & Hu & Ht & Hty & Hd & Hnd & Hn & Hacc)].
  { rewrite Hsnd in Hne. done. }
  rewrite (createTransaction_commit body db u t d n acc) in Hsnd |- * by done.
  injection Hsnd as <-. cbn [fst _id id_akun tipe nominal new_doc].
  split_and!.
  - unfold getTransactionById. cbn [transactions ledger].
    by rewrite (find_snoc_fresh (next_id db)).
  - unfold getTransactionsByAccount. cbn [transactions ledger].
    rewrite filter_app, filter_cons, decide_True, filter_nil; [done|].
    unfold of_account. by apply bool_decide_pack.
  - exists (balance acc). unfold getAccountBalance. cbn [accounts ledger].
    by rewrite Hacc, lookup_alter_eq, Hacc.
Qed.

Lemma created_transaction_is_read_back_witness :
  let body := new_tx "expense" 300 ["food"] in
  let s := fst (createTransaction body (fresh_db 1000)) in
  getTransactionById 10 s
  = Sent 200 (new_doc 10 1 "expense" "belanja" 300 body)
  ∧ getAccountBalance 1 s = Sent 200 700.
Proof.
  intros body s.
  destruct (created_transaction_is_read_back (fresh_db 1000) body
              (new_doc 10 1 "expense" "belanja" 300 body))
    as (H1 & _ & b & Hb & H3).
  - intros t Ht. by apply elem_of_nil in Ht.
  - vm_compute. reflexivity.
  - split; [exact H1|]. injection Hb as <-. exact H3.
Defined.

(** X5. No cascade: [deleteAccount] removes the account and nothing else,
    and from then on a transaction of the deleted account is frozen:
    [updateTransaction] and [deleteTransaction] answer 404 'Account not
    found' and leave the database as it is, while [getTransactionById]
    still answers the transaction. *)
Theorem orphaned_transactions_are_frozen (db : Db) (u id : ObjectId)
    (body : TransactionBody) (orig : Transaction) :
  is_Some (accounts db !! u) →
  find_tx id db = Some orig → id_akun orig = u →
  let s := fst (deleteAccount u db) in
  accounts s = delete u (accounts db)
  ∧ transactions s = transactions db ∧ categories s = categories db
  ∧ goals s = goals db
  ∧ getTransactionById id s = Sent 200 orig
  ∧ updateTransaction id body s = (s, Json 404 (Message "Account not found"))
  ∧ deleteTransaction id s = (s, Json 404 (Message "Account not found")).
Proof.
  intros [acc Hacc] Hfind Hu s. subst s. unfold deleteAccount. rewrite Hacc.
  cbn [fst]. unfold find_tx in Hfind. split_and!; try done.
  - unfold getTransactionById. cbn [transactions set_accounts]. by rewrite Hfind.
  - unfold updateTransaction. run_session. cbn [transactions set_accounts].
    rewrite Hfind. cbn [mbind option_bind accounts set_accounts]. rewrite Hu.
    by rewrite lookup_delete_eq.
  - unfold deleteTransaction. run_session. cbn [transactions set_accounts].
    rewrite Hfind. cbn [mbind option_bind accounts set_accounts]. rewrite Hu.
    by rewrite lookup_delete_eq.
Qed.

Lemma orphaned_transactions_are_frozen_witness :
  let db := fst (createTransaction (new_tx "income" 100 []) (fresh_db 0)) in
  let s := fst (deleteAccount 1 db) in
  deleteTransaction 10 s = (s, Json 404 (Message "Account not found")).
Proof.
  intros db s.
  refine (proj2 (proj2 (proj2 (proj2 (proj2 (proj2
    (orphaned_transactions_are_frozen db 1 10 empty_body
       (new_doc 10 1 "income" "belanja" 100 (new_tx "income" 100 []))
       _ _ _))))))).
  - vm_compute. by eexists.
  - reflexivity.
  - reflexivity.
Defined.

(** X6. The checks of [createTransaction] and of the two other writers, in
    their order: a body that fails the schema is answered 400 whether or
    not its account exists; a valid body for an account that does not exist
    is answered 404, and the transaction that was saved inside the session
    is not persisted; [updateTransaction] and [deleteTransaction] of an id
    that is not stored are answered 404 'Transaction not found'.  None of
    these changes the database. *)
Theorem rejected_writes_change_nothing (db : Db) :
  (∀ body u t d n,
     b_id_akun body = Some u → b_tipe body = Some t → is_tipe t = true →
     b_deskripsi body = Some d → d ≠ "" → b_nominal body = Some n →
     accounts db !! u = None →
     createTransaction body db = (db, Json 404 (Message "Account not found")))
  ∧ (∀ body,
       b_id_akun body = None ∨ b_deskripsi body = None ∨ b_deskripsi body = Some ""
       ∨ b_nominal body = None ∨ is_tipe (default "" (b_tipe body)) = false →
       createTransaction body db
       = (db, Json 400 (Message "Transaction validation failed")))
  ∧ (∀ id body,
       find_tx id db = None →
       updateTransaction id body db
       = (db, Json 404 (Message "Transaction not found"))
       ∧ deleteTransaction id db
         = (db, Json 404 (Message "Transaction not found"))).
Proof.
  split_and!.
  - intros body u t d n Hu Ht Hty Hd Hnd Hn Hacc.
    unfold createTransaction. run_session.
    rewrite Hu, Ht, Hd, Hn, Hty. rewrite (bool_decide_eq_false_2 _ Hnd).
    cbn [andb negb mbind option_bind accounts set_transactions set_next_id].
    by rewrite Hacc.
  - intros body H. unfold createTransaction. run_session.
    destruct (b_id_akun body) as [u|]; [|done].
    destruct (b_tipe body) as [t|]; [|done].
    destruct (b_deskripsi body) as [d|]; [|done].
    destruct (b_nominal body) as [n|]; [|done].
    destruct H as [H|[H|[H|[H|H]]]]; try done.
    + injection H as ->. by rewrite andb_false_r.
    + simpl in H. by rewrite H.
  - intros id body Hfind. unfold find_tx in Hfind.
    unfold updateTransaction, deleteTransaction. run_session.
    by rewrite Hfind.
Qed.

Lemma rejected_writes_change_nothing_witness :
  createTransaction
    {| b_id_akun := Some 2%nat; b_tipe := Some "income";
       b_deskripsi := Some "gaji"; b_nominal := Some 100;
       b_category := None; b_tags := None |} (fresh_db 0)
  = (fresh_db 0, Json 404 (Message "Account not found"))
  ∧ deleteTransaction 99 (fresh_db 0)
    = (fresh_db 0, Json 404 (Message "Transaction not found")).
Proof.
  destruct (rejected_writes_change_nothing (fresh_db 0)) as (H1 & _ & H3).
  split.
  - apply (H1 _ 2%nat "income" "gaji" 100); reflexivity || discriminate.
  - apply (H3 99%nat empty_body). reflexivity.
Defined.

(** ** The kinds of the tagged transactions *)

Lemma elem_of_replace_first id f (l : list Transaction) t :
  t ∈ replace_first id f l →
  t ∈ l ∨ ∃ t0, List.find (has_id id) l = Some t0 ∧ t = f t0.
Proof.
  induction l as [|t0 l IH]; simpl; [by left|].
  destruct (has_id id t0) eqn:Hid.
  - intros [->|H]%elem_of_cons.
    + right. by exists t0.
    + left. by right.
  - intros [->|H]%elem_of_cons; [left; by left|].
    destruct (IH H) as [?|(t1 & ? & ?)].
    + left. by right.
    + right. by exists t1.
Qed.

Lemma elem_of_remove_first id (l : list Transaction) t :
  t ∈ remove_first id l → t ∈ l.
Proof.
  induction l as [|t0 l IH]; simpl; [done|].
  destruct (has_id id t0).
  - intros H. by right.
  - intros [->|H]%elem_of_cons; [by left|]. right. by apply IH.
Qed.

Lemma find_elem id (l : list Transaction) t :
  List.find (has_id id) l = Some t → t ∈ l.
Proof. intros [H _]%find_some. by apply list_elem_of_In. Qed.

(** With a kind outside the enum and a tag that is not blank, the loop
    stops at the first such tag: no category of that kind is stored, and
    none can be created. *)
Lemma updateCategoryBalances_loop_invalid t amt (l : list string) s :
  is_tipe (tipe t) = false →
  (∀ k, is_Some (categories s !! k) → is_tipe k.2 = true) →
  (∃ tag, tag ∈ l ∧ blank tag = false) →
  updateCategoryBalances_loop t amt l s
  = Exited (Throw "Category validation failed").
Proof.
  intros Hty Hcat. induction l as [|tag l IH]; intros (tag' & Hin & Hb).
  { by apply elem_of_nil in Hin. }
  simpl. destruct (blank tag) eqn:Hb'.
  - apply IH. exists tag'. split; [|done].
    apply elem_of_cons in Hin as [->|Hin]; [congruence|done].
  - run_session.
    destruct (categories s !! (id_akun t, tag, tipe t)) as [b|] eqn:Hk.
    + specialize (Hcat (id_akun t, tag, tipe t)). rewrite Hk in Hcat.
      simpl in Hcat. rewrite Hcat in Hty by by eexists. done.
    + by rewrite Hty.
Qed.

Lemma updateCategoryBalances_done_kind t rev s s' :
  (∀ k, is_Some (categories s !! k) → is_tipe k.2 = true) →
  has_tag t → updateCategoryBalances t rev s = Done tt s' →
  is_tipe (tipe t) = true.
Proof.
  intros Hcat Htag. destruct (is_tipe (tipe t)) eqn:Hty; [done|].
  unfold updateCategoryBalances.
  destruct (tags t) as [|tag l] eqn:E.
  { destruct Htag as (tag & Hin & _). rewrite E in Hin.
    by apply elem_of_nil in Hin. }
  rewrite <- E. unfold has_tag in Htag.
  by rewrite updateCategoryBalances_loop_invalid.
Qed.

Lemma absorb_kinds (t : Transaction) (sign : Z) (c : gmap (nat * string * string) Z) :
  (has_tag t → is_tipe (tipe t) = true) →
  (∀ k, is_Some (c !! k) → is_tipe k.2 = true ∧ blank k.1.2 = false) →
  ∀ k, is_Some (absorb t sign c !! k) → is_tipe k.2 = true ∧ blank k.1.2 = false.
Proof.
  intros Ht Hc k Hk. unfold absorb in Hk.
  destruct (lookup_apply_tags_new _ _ _ _ c k Hk) as [H|(_ & -> & Hb & Hin)];
    [by apply Hc|].
  split; [|done]. apply Ht. by exists k.1.2.
Qed.

Lemma absorb_types (t : Transaction) (sign : Z) (c : gmap (nat * string * string) Z) :
  (has_tag t → is_tipe (tipe t) = true) →
  (∀ k, is_Some (c !! k) → is_tipe k.2 = true) →
  ∀ k, is_Some (absorb t sign c !! k) → is_tipe k.2 = true.
Proof.
  intros Ht Hc k Hk. unfold absorb in Hk.
  destruct (lookup_apply_tags_new _ _ _ _ c k Hk) as [H|(_ & -> & Hb & Hin)];
    [by apply Hc|].
  apply Ht. by exists k.1.2.
Qed.

Lemma Kinds_invariant_types db : Kinds_invariant db → Types_invariant db.
Proof.
  intros [Hcat Htx]. split; [|done]. intros k Hk. by destruct (Hcat k Hk).
Qed.

(** A committed update leaves a merged document whose kind is in the enum
    when it carries a non-blank tag. *)
Lemma updateTransaction_commit_kind id body db orig :
  Types_invariant db → find_tx id db = Some orig →
  code (snd (updateTransaction id body db)) = 200%nat →
  has_tag (merge_body body orig) → is_tipe (tipe (merge_body body orig)) = true.
Proof.
  intros [Hcat Htx] Hfind. unfold updateTransaction. run_session.
  unfold find_tx in Hfind. rewrite Hfind.
  cbn [mbind option_bind].
  destruct (accounts db !! id_akun orig) as [acc|]; [|done].
  destruct (updateCategoryBalances_cases orig true db) as [->|[_ ->]]; [|done].
  cbn [transactions set_categories set_transactions].
  rewrite (find_replace_first id _ _ orig) by done.
  match goal with
  | |- context [updateCategoryBalances ?t false ?s] =>
      destruct (updateCategoryBalances_cases t false s) as [E|[_ E]];
        rewrite E; [|done]
  end.
  intros _ Htag. eapply updateCategoryBalances_done_kind; [|done|exact E].
  cbn [categories set_categories set_accounts set_transactions].
  intros k Hk.
  apply (absorb_types orig (-1) (categories db)); [|done|exact Hk].
  intros Horig. apply Htx; [by eapply find_elem|done].
Qed.

Lemma overwrite_lookup_new (u : nat) (l : list TagData)
    (c : gmap (nat * string * string) Z) k :
  is_Some (overwrite u l c !! k) →
  is_Some (c !! k) ∨ ∃ d, d ∈ l ∧ category_key u d = k.
Proof.
  revert c. induction l as [|d l IH]; intros c; [by left|].
  rewrite overwrite_cons. intros [H|(d' & Hd' & Hk)]%IH.
  - rewrite lookup_insert in H. case_decide as Hk; [|by left].
    right. exists d. split; [by left|done].
  - right. exists d'. split; [by right|done].
Qed.

Lemma tagged_has_tag u name ty db :
  tagged u name ty db → ∃ t, t ∈ transactions db ∧ tipe t = ty ∧ has_tag t.
Proof.
  intros (t & Ht & _ & Hty & Hin & Hb). exists t. split_and!; [done..|].
  by exists name.
Qed.

Lemma rebuilt_entry_kind u db d :
  (∀ t, t ∈ transactions db → has_tag t → is_tipe (tipe t) = true) →
  d ∈ rebuilt u db → is_tipe (td_type d) = true ∧ blank (td_name d) = false.
Proof.
  intros Htx [_ Hd]%rebuilt_entry. split.
  - destruct (tagged_has_tag _ _ _ _ Hd) as (t & Ht & <- & Htag). by apply Htx.
  - by destruct Hd as (t & _ & _ & _ & _ & Hb).
Qed.

(** The rebuild commits as soon as the tagged transactions have kinds of
    the enum. *)
Lemma generateCategoriesFromTags_commits_tagged u db :
  (∀ t, t ∈ transactions db → has_tag t → is_tipe (tipe t) = true) →
  fst (generateCategoriesFromTags u db)
  = set_categories (overwrite u (rebuilt u db) (categories db)) db
  ∧ code (snd (generateCategoriesFromTags u db)) = 200%nat.
Proof.
  intros Htx. unfold generateCategoriesFromTags. run_session. fold (rebuilt u db).
  edestruct (generate_loop_succeeds u (categories db) (rebuilt u db))
    as [acc' ->]; [apply rebuilt_NoDup| |done|done].
  intros d Hd. destruct (rebuilt_entry_kind u db d Htx Hd) as [Hty Hb].
  split; [done|]. by apply blank_not_empty.
Qed.

Lemma Kinds_invariant_frame db s :
  categories s = categories db → transactions s = transactions db →
  Kinds_invariant db → Kinds_invariant s.
Proof. unfold Kinds_invariant. by intros -> ->. Qed.

Lemma Kinds_invariant_snoc db s doc :
  categories s = categories db → transactions s = transactions db ++ [doc] →
  is_tipe (tipe doc) = true → Kinds_invariant db → Kinds_invariant s.
Proof.
  intros Hc Hl Hdoc [Hcat Htx]. split; [by rewrite Hc|].
  intros t. rewrite Hl.
  intros [Ht| ->%list_elem_of_singleton]%elem_of_app; [by apply Htx|done].
Qed.

Lemma Kinds_invariant_handle r db :
  Kinds_invariant db → Kinds_invariant (fst (handle r db)).
Proof.
  intros Hdb. pose proof Hdb as [Hcat Htx].
  destruct r as [body|id body|id|u|u body|id body|id|id body|id body|id];
    simpl.
  - destruct (createTransaction_cases body db)
      as [[-> _]|(u & t & d & n & acc & Hu & Ht & Hty & Hd & Hne & Hn & Hacc)];
      [done|].
    rewrite (createTransaction_commit body db u t d n acc) by done.
    split; cbn [fst ledger categories transactions].
    + by apply absorb_kinds.
    + intros t'.
      intros [Ht'| ->%list_elem_of_singleton]%elem_of_app; [by apply Htx|done].
  - pose proof (updateTransaction_commit_kind id body db) as Hkind.
    destruct (updateTransaction_cases id body db)
      as [[-> _]|(orig & acc & Hfind & Hacc & E)]; [done|].
    rewrite E in Hkind |- *.
    specialize (Hkind orig (Kinds_invariant_types db Hdb) Hfind eq_refl).
    assert (Horig : has_tag orig → is_tipe (tipe orig) = true).
    { intros ?. apply Htx; [by eapply find_elem|done]. }
    split; cbn [fst ledger categories transactions].
    + apply absorb_kinds; [done|]. by apply absorb_kinds.
    + intros t [Ht|(t0 & Ht0 & ->)]%elem_of_replace_first Htag;
        [by apply Htx|].
      unfold find_tx in Hfind. rewrite Hfind in Ht0. injection Ht0 as <-.
      by apply Hkind.
  - destruct (deleteTransaction_cases id db)
      as [[-> _]|(orig & acc & Hfind & Hacc & ->)]; [done|].
    split; cbn [fst ledger categories transactions].
    + apply absorb_kinds; [|done].
      intros ?. apply Htx; [by eapply find_elem|done].
    + intros t Ht%elem_of_remove_first. by apply Htx.
  - destruct (generateCategoriesFromTags_commits_tagged u db Htx) as [-> _].
    split; cbn [categories transactions set_categories]; [|done].
    intros k [H|(d & Hd & <-)]%overwrite_lookup_new; [by apply Hcat|].
    by apply rebuilt_entry_kind with u db.
  - destruct (createGoal_ledger db u body) as (_ & Hl & Hc).
    by apply (Kinds_invariant_frame db).
  - destruct (updateGoal_ledger db id body) as (_ & Hl & Hc).
    by apply (Kinds_invariant_frame db).
  - destruct (deleteGoal_ledger db id) as (_ & Hl & Hc).
    by apply (Kinds_invariant_frame db).
  - destruct (allocateFunds_ledger db id body)
      as [(_ & Hl & Hc)|(_ & g & a & _ & Hl & Hc)].
    + by apply (Kinds_invariant_frame db).
    + by apply (Kinds_invariant_snoc db _ _ Hc Hl).
  - destruct (withdrawFunds_ledger db id body)
      as [(_ & Hl & Hc)|(_ & g & a & _ & Hl & Hc)].
    + by apply (Kinds_invariant_frame db).
    + by apply (Kinds_invariant_snoc db _ _ Hc Hl).
  - unfold deleteAccount. by destruct (accounts db !! id).
Qed.

Lemma Kinds_invariant_run reqs db :
  Kinds_invariant db → Kinds_invariant (run reqs db).
Proof.
  revert db. induction reqs as [|r reqs IH]; intros db Hdb; [done|].
  simpl. apply IH. by apply Kinds_invariant_handle.
Qed.

Lemma Kinds_invariant_fresh_db b : Kinds_invariant (fresh_db b).
Proof.
  split.
  - intros k. simpl. rewrite lookup_empty. by intros [? ?].
  - intros t Ht. by apply elem_of_nil in Ht.
Defined.

Lemma occurrences_no_tag name (l : list string) :
  filter (λ tag, blank tag = false) l = [] → blank name = false →
  occurrences name l = 0.
Proof.
  intros Hl Hname. induction l as [|tag l IH]; [done|].
  rewrite filter_cons in Hl. rewrite occurrences_cons.
  destruct (decide (blank tag = false)) as [Hb|Hb]; [done|].
  rewrite IH by done. rewrite decide_False; [done|]. by intros ->.
Qed.

Lemma has_tag_filter t :
  filter (λ tag, blank tag = false) (tags t) ≠ [] → has_tag t.
Proof.
  destruct (filter _ (tags t)) as [|tag l] eqn:E; [done|]. intros _.
  assert (Hin : tag ∈ filter (λ tag, blank tag = false) (tags t)).
  { rewrite E. by left. }
  apply list_elem_of_filter in Hin as [Hb Hin]. by exists tag.
Qed.

(** The balance the scan files under a (tag, kind) is the sum the
    incremental updates maintain, as soon as the tagged transactions have
    kinds of the enum. *)
Lemma key_sum_tag_total u (l : list Transaction) name ty :
  (∀ t, t ∈ l → has_tag t → is_tipe (tipe t) = true) →
  is_tipe ty = true → blank name = false →
  key_sum (filter (λ t, of_account u t) l ≫= occurrences_of) (tag_key name ty)
  = tag_total l (u, name, ty).
Proof.
  intros Hl Hty Hname. induction l as [|t l IH]; [done|].
  rewrite filter_cons. unfold tag_total. cbn [total foldr].
  fold (total (λ t, contribution t (u, name, ty)) l).
  fold (tag_total l (u, name, ty)).
  rewrite <- IH by (intros t' Ht'; apply Hl; by right).
  unfold contribution. rewrite Hname. cbn [negb]. rewrite andb_true_r.
  unfold of_account at 1.
  destruct (decide (bool_decide (id_akun t = u))) as [Hu|Hu].
  - apply bool_decide_unpack in Hu.
    rewrite bind_cons, key_sum_app. unfold occurrences_of at 1.
    rewrite (bool_decide_eq_true_2 _ Hu). cbn [andb].
    destruct (decide (filter (λ tag, blank tag = false) (tags t) = []))
      as [E|E].
    + rewrite E, occurrences_no_tag by done. cbn [fmap list_fmap key_sum foldr].
      case_bool_decide; lia.
    + rewrite key_sum_tags; [lia| |done..].
      apply Hl; [by left|by apply has_tag_filter].
  - rewrite bool_decide_eq_false_2; [simpl; lia|].
    intros Hu'. apply Hu. by apply bool_decide_pack.
Qed.

Lemma Types_invariant_frame db s :
  categories s = categories db → transactions s = transactions db →
  Types_invariant db → Types_invariant s.
Proof. unfold Types_invariant. by intros -> ->. Qed.

Lemma Types_invariant_snoc db s doc :
  categories s = categories db → transactions s = transactions db ++ [doc] →
  is_tipe (tipe doc) = true → Types_invariant db → Types_invariant s.
Proof.
  intros Hc Hl Hdoc [Hcat Htx]. split; [by rewrite Hc|].
  intros t. rewrite Hl.
  intros [Ht| ->%list_elem_of_singleton]%elem_of_app; [by apply Htx|done].
Qed.

Lemma Types_invariant_handle r db :
  Types_invariant db → Types_invariant (fst (handle r db)).
Proof.
  intros Hdb. pose proof Hdb as [Hcat Htx].
  destruct r as [body|id body|id|u|u body|id body|id|id body|id body|id];
    simpl.
  - destruct (createTransaction_cases body db)
      as [[-> _]|(u & t & d & n & acc & Hu & Ht & Hty & Hd & Hne & Hn & Hacc)];
      [done|].
    rewrite (createTransaction_commit body db u t d n acc) by done.
    split; cbn [fst ledger categories transactions].
    + by apply absorb_types.
    + intros t'.
      intros [Ht'| ->%list_elem_of_singleton]%elem_of_app; [by apply Htx|done].
  - pose proof (updateTransaction_commit_kind id body db) as Hkind.
    destruct (updateTransaction_cases id body db)
      as [[-> _]|(orig & acc & Hfind & Hacc & E)]; [done|].
    rewrite E in Hkind |- *. specialize (Hkind orig Hdb Hfind eq_refl).
    assert (Horig : has_tag orig → is_tipe (tipe orig) = true).
    { intros ?. apply Htx; [by eapply find_elem|done]. }
    split; cbn [fst ledger categories transactions].
    + apply absorb_types; [done|]. by apply absorb_types.
    + intros t [Ht|(t0 & Ht0 & ->)]%elem_of_replace_first Htag;
        [by apply Htx|].
      unfold find_tx in Hfind. rewrite Hfind in Ht0. injection Ht0 as <-.
      by apply Hkind.
  - destruct (deleteTransaction_cases id db)
      as [[-> _]|(orig & acc & Hfind & Hacc & ->)]; [done|].
    split; cbn [fst ledger categories transactions].
    + apply absorb_types; [|done].
      intros ?. apply Htx; [by eapply find_elem|done].
    + intros t Ht%elem_of_remove_first. by apply Htx.
  - destruct (generateCategoriesFromTags_commits_tagged u db Htx) as [-> _].
    split; cbn [categories transactions set_categories]; [|done].
    intros k [H|(d & Hd & <-)]%overwrite_lookup_new; [by apply Hcat|].
    by destruct (rebuilt_entry_kind u db d Htx Hd).
  - destruct (createGoal_ledger db u body) as (_ & Hl & Hc).
    by apply (Types_invariant_frame db).
  - destruct (updateGoal_ledger db id body) as (_ & Hl & Hc).
    by apply (Types_invariant_frame db).
  - destruct (deleteGoal_ledger db id) as (_ & Hl & Hc).
    by apply (Types_invariant_frame db).
  - destruct (allocateFunds_ledger db id body)
      as [(_ & Hl & Hc)|(_ & g & a & _ & Hl & Hc)].
    + by apply (Types_invariant_frame db).
    + by apply (Types_invariant_snoc db _ _ Hc Hl).
  - destruct (withdrawFunds_ledger db id body)
      as [(_ & Hl & Hc)|(_ & g & a & _ & Hl & Hc)].
    + by apply (Types_invariant_frame db).
    + by apply (Types_invariant_snoc db _ _ Hc Hl).
  - unfold deleteAccount. by destruct (accounts db !! id).
Qed.

(** [createCategory] stores a type that passed the enum, and
    [deleteCategory] stores nothing. *)
Lemma Types_invariant_api_handle r db :
  Types_invariant db → Types_invariant (api_handle r db).
Proof.
  intros Hdb. destruct r as [r|u body|k]; cbn [api_handle].
  - by apply Types_invariant_handle.
  - destruct Hdb as [Hcat Htx].
    unfold createCategory, Category_create. run_session.
    destruct (is_tipe (default "" (c_type body))) eqn:Hty; [|done].
    destruct (bool_decide (default "" (c_name body) = "")); [done|].
    cbn [andb negb]. cbv beta.
    destruct (categories db !! _) eqn:Hk; [done|].
    split; cbn [fst categories transactions set_categories]; [|done].
    intros k. rewrite lookup_insert. case_decide as E; [by subst k|apply Hcat].
  - destruct Hdb as [Hcat Htx]. unfold deleteCategory.
    destruct (categories db !! k) eqn:Hk; [|done].
    split; cbn [fst categories transactions set_categories]; [|done].
    intros k'. destruct (decide (k = k')) as [<-|Hne].
    + rewrite lookup_delete_eq. by intros [? ?].
    + rewrite lookup_delete_ne by done. apply Hcat.
Qed.

Lemma Types_invariant_api_run reqs db :
  Types_invariant db → Types_invariant (api_run reqs db).
Proof.
  revert db. induction reqs as [|r reqs IH]; intros db Hdb; [done|].
  simpl. apply IH. by apply Types_invariant_api_handle.
Qed.

Lemma Types_invariant_fresh_db b : Types_invariant (fresh_db b).
Proof. apply Kinds_invariant_types, Kinds_invariant_fresh_db. Defined.

(** ** Categories *)

(** X7. The kinds of the categories, through the write handlers embedded
    here: those of the transactions and of the goals, the rebuild of the
    categories, [deleteAccount], [createCategory] and [deleteCategory]
    ([updateCategory], which stores a type without validation, is not
    among them, nor are [createAccount] and [updateAccount]).  From a
    database where every stored Category has a type of the enum and every
    transaction that carries a non-blank tag has a kind of the enum (the
    empty database, for one), any sequence of such requests leaves every
    stored Category with a type of the enum, although [updateTransaction]
    stores its body without validation; and on the database it leaves the
    rebuild of [generateCategoriesFromTags] commits for every account: it
    answers 200, never 500. *)
Theorem stored_kinds_stay_in_the_enum (db : Db) (reqs : list ApiRequest) :
  Types_invariant db →
  let s := api_run reqs db in
  (∀ u name ty b, categories s !! (u, name, ty) = Some b → is_tipe ty = true)
  ∧ (∀ u, code (snd (generateCategoriesFromTags u s)) = 200%nat).
Proof.
  intros Hdb s. destruct (Types_invariant_api_run reqs db Hdb) as [Hcat Htx].
  fold s in Hcat, Htx. split.
  - intros u name ty b Hk. apply (Hcat (u, name, ty)). by exists b.
  - intros u. by destruct (generateCategoriesFromTags_commits_tagged u s Htx).
Qed.

Lemma stored_kinds_stay_in_the_enum_witness :
  let reqs := [Ledger (CreateTransaction (new_tx "expense" 300 ["food"; " "]));
               Ledger (CreateTransaction (new_tx "income" 50 []));
               Ledger (UpdateTransaction 11 (tipe_body "gift"));
               Ledger (UpdateTransaction 10 (tipe_body "gift"));
               CreateCategory 1 {| c_name := Some " "; c_type := Some "income";
                                   c_balance := None |};
               CreateCategory 1 {| c_name := Some "gift"; c_type := Some "gift";
                                   c_balance := None |};
               DeleteCategory (1%nat, "food", "expense");
               Ledger (CreateGoal 1 (new_goal "Liburan" 400));
               Ledger (AllocateFunds 12 (funds 200 true))] in
  let s := api_run reqs (fresh_db 1000) in
  (tipe <$> transactions s) = ["expense"; "gift"; "expense"]
  ∧ categories s = {[ (1%nat, " ", "income") := 0 ]}
  ∧ code (snd (generateCategoriesFromTags 1 s)) = 200%nat.
Proof.
  intros reqs s. split_and!; [by vm_compute..|].
  apply (stored_kinds_stay_in_the_enum (fresh_db 1000) reqs
           (Types_invariant_fresh_db 1000)).
Defined.

(** X8. The rebuild agrees with the incremental updates, for whole
    amounts: on a database kept by the handlers of [TransactionController]
    alone (creates, updates and deletes, from a database whose categories
    agree with its transactions), its amounts staying whole and within
    bounds, [generateCategoriesFromTags] commits and changes no balance:
    every Category it overwrites already held the balance the scan
    computes, a Category it creates gets the balance 0 that an absent
    Category stands for, and accounts, transactions and goals are left
    alone. *)
Theorem rebuild_agrees_with_incremental_updates (db : Db)
    (reqs : list Request) (u : ObjectId) :
  Kinds_invariant db → Categories_invariant db → Forall incremental reqs →
  forallb whole_units (trace reqs db) = true →
  let s := run reqs db in
  let s' := fst (generateCategoriesFromTags u s) in
  code (snd (generateCategoriesFromTags u s)) = 200%nat
  ∧ accounts s' = accounts s ∧ transactions s' = transactions s
  ∧ goals s' = goals s
  ∧ (∀ k b, categories s !! k = Some b → categories s' !! k = Some b)
  ∧ (∀ k, balance_of (categories s') k = balance_of (categories s) k).
Proof.
  intros Hk Hc Hreqs _ s s'.
  destruct (Kinds_invariant_run reqs db Hk) as [_ Htx].
  destruct (Categories_invariant_run reqs db Hreqs Hc) as [Hsum _].
  fold s in Htx, Hsum.
  destruct (generateCategoriesFromTags_commits_tagged u s Htx) as [E Hcode].
  subst s'. rewrite E. cbn [accounts transactions goals categories set_categories].
  assert (Hbal : ∀ d, d ∈ rebuilt u s →
            td_balance d = balance_of (categories s) (category_key u d)).
  { intros d Hd. destruct (rebuilt_entry_kind u s d Htx Hd) as [Hty Hb].
    destruct (rebuilt_entry u s d Hd) as [Hget _].
    destruct (Scanned_collect (filter (λ t, of_account u t) (transactions s)))
      as (_ & Hscan & _).
    destruct (Hscan _ _ Hget) as (_ & -> & _).
    rewrite Hsum. by apply key_sum_tag_total. }
  assert (Hcases : ∀ k,
            overwrite u (rebuilt u s) (categories s) !! k = categories s !! k
            ∨ overwrite u (rebuilt u s) (categories s) !! k
              = Some (balance_of (categories s) k)).
  { intros k. destruct (decide (k ∈ category_key u <$> rebuilt u s)) as [Hin|Hno].
    - right. apply list_elem_of_fmap in Hin as (d & -> & Hd).
      apply overwrite_lookup; [|left; by exists d].
      intros d' Hd' Hkey. rewrite <- Hkey. by apply Hbal.
    - left. apply overwrite_lookup_other. intros d Hd Hkey. apply Hno.
      apply list_elem_of_fmap. by exists d. }
  split_and!; [done..| |].
  - intros k b Hkb. destruct (Hcases k) as [->| ->]; [done|].
    unfold balance_of. by rewrite Hkb.
  - intros k. unfold balance_of at 1. by destruct (Hcases k) as [->| ->].
Qed.

Lemma rebuild_agrees_with_incremental_updates_witness :
  let reqs := [CreateTransaction (new_tx "expense" 300 ["food"; "food"]);
               CreateTransaction (new_tx "income" 50 ["gaji"]);
               UpdateTransaction 10 (retag_body "expense" 300 ["food"; "gaji"]);
               DeleteTransaction 11] in
  let s := run reqs (fresh_db 1000) in
  let s' := fst (generateCategoriesFromTags 1 s) in
  categories s !! (1%nat, "gaji", "income") = Some 0
  ∧ categories s' !! (1%nat, "gaji", "income") = Some 0
  ∧ balance_of (categories s') (1%nat, "food", "expense") = 300
  ∧ balance_of (categories s) (1%nat, "food", "expense") = 300.
Proof.
  intros reqs s s'.
  assert (Hreqs : Forall incremental reqs) by (repeat constructor).
  destruct (rebuild_agrees_with_incremental_updates (fresh_db 1000) reqs 1
              (Kinds_invariant_fresh_db 1000)
              (Categories_invariant_fresh_db 1000) Hreqs)
    as (_ & _ & _ & _ & Hkept & Hbal); [vm_compute; reflexivity|].
  assert (H0 : categories s !! (1%nat, "gaji", "income") = Some 0)
    by (vm_compute; reflexivity).
  split_and!; [exact H0|exact (Hkept _ _ H0)| |by vm_compute].
  fold s s' in Hbal. rewrite (Hbal (1%nat, "food", "expense")). by vm_compute.
Defined.

(** ** Goals *)

(** *** Rounding *)




(** *** The virtuals *)










(** *** The summary *)


Lemma Goal_find_elem u db id g :
  (id, g) ∈ Goal_find u db ↔ goals db !! id = Some g ∧ user_id g = u.
Proof.
  unfold Goal_find. rewrite list_elem_of_filter.
  rewrite (merge_sort_Permutation inserted_before (map_to_list (goals db))).
  rewrite elem_of_map_to_list. simpl. tauto.
Qed.

#[local] Instance inserted_before_total : Total inserted_before.
Proof. intros p q. unfold inserted_before. lia. Qed.

#[local] Instance inserted_before_trans : Transitive inserted_before.
Proof. intros p q r. unfold inserted_before. lia. Qed.






(** *** Creating and updating a goal *)

(** X11. The outcomes of [createGoal]: 404 when the account does not exist;
    otherwise 201 exactly when the body carries a title that is not empty,
    a target amount that is not negative and no negative saved amount, and
    400 if not; every answer other than 201 leaves the database as it was.
    The stored goal takes title, target and [saved_amount || 0] from the
    body and never its status: it is ['completed'] when the saved amount
    has reached the target (a target of 0 included) and ['active']
    otherwise; it is what the answer carries and what [getGoalById] reads
    back under the fresh id. *)
Theorem createGoal_outcomes (db : Db) (u : ObjectId) (body : GoalBody) :
  let out := createGoal u body db in
  let saved := or_number (g_saved_amount body) 0 in
  (accounts db !! u = None
   → out = (db, Json 404 (Message "User account not found")))
  ∧ (code (snd out) ≠ 201%nat → fst out = db)
  ∧ (is_Some (accounts db !! u) →
     code (snd out) = 201%nat ∨ code (snd out) = 400%nat)
  ∧ (code (snd out) = 201%nat →
     ∃ t target g,
       g_title body = Some t ∧ t ≠ "" ∧ g_target_amount body = Some target
       ∧ 0 ≤ target ∧ 0 ≤ saved
       ∧ g = {| user_id := u; title := t;
                description := or_string (g_description body) "";
                target_amount := target; saved_amount := saved;
                status := if bool_decide (target ≤ saved)
                          then "completed" else "active" |}
       ∧ out = (with_goal (next_id db) g (set_next_id (S (next_id db)) db),
                Json 201 (GoalDoc (Some g)))
       ∧ getGoalById (next_id db) (fst out) = Sent 200 g)
  ∧ (is_Some (accounts db !! u) →
     ∀ t target, g_title body = Some t → t ≠ "" →
       g_target_amount body = Some target → 0 ≤ target → 0 ≤ saved →
       code (snd out) = 201%nat).
Proof.
  intros out saved. subst out. unfold createGoal.
  destruct (accounts db !! u) as [acc|] eqn:Hacc.
  2:{ split_and!; try done; by intros [? ?]. }
  destruct (g_target_amount body) as [target|] eqn:Htarget.
  2:{ split_and!; try done; intros; by right. }
  run_session. fold saved.
  match goal with
  | |- context [Goal_valid ?g0] =>
      set (goal := g0); destruct (Goal_valid goal) eqn:Hv
  end.
  2:{ cbn [fst snd code]. split_and!; try done; [by right|].
      intros _ t target' Ht Hne [= <-] Hpos Hs.
      exfalso. revert Hv. unfold Goal_valid, goal.
      cbn [title target_amount saved_amount status]. rewrite Ht.
      cbn [default from_option id].
      rewrite (bool_decide_eq_false_2 _ Hne), !bool_decide_eq_true_2 by done.
      done. }
  cbn [goals set_goals set_next_id fst snd code]. rewrite lookup_insert_eq.
  split_and!; try done; [by left|]. intros _.
  destruct (Goal_valid_inv goal Hv) as (Hne & Hpos & Hs & _).
  unfold goal in Hne, Hpos, Hs. cbn [title target_amount saved_amount] in *.
  destruct (g_title body) as [t|] eqn:Ht; [|done]. cbn [default from_option id] in *.
  eexists t, target, _. split_and!; try done.
  - unfold pre_save, goal. cbn [target_amount saved_amount set_status].
    by case_bool_decide.
  - unfold getGoalById, pre_save, goal.
    cbn [goals set_goals target_amount saved_amount].
    rewrite lookup_insert_eq. by case_bool_decide.
Qed.

Lemma createGoal_outcomes_witness :
  let body := {| g_title := Some "Liburan"; g_description := None;
                 g_target_amount := Some 0; g_saved_amount := None;
                 g_status := Some "paused" |} in
  code (snd (createGoal 1 body (fresh_db 0))) = 201%nat
  ∧ ∃ g, getGoalById 10 (fst (createGoal 1 body (fresh_db 0))) = Sent 200 g
         ∧ status g = "completed".
Proof.
  intros body.
  destruct (createGoal_outcomes (fresh_db 0) 1 body) as (_ & _ & _ & H & _).
  split; [reflexivity|].
  destruct (H eq_refl) as (t & target & g & _ & _ & [= <-] & _ & _ & -> & _ & Hget).
  eexists. split; [exact Hget|reflexivity].
Defined.

Lemma merge_goal_twice body g : merge_goal body (merge_goal body g) = merge_goal body g.
Proof.
  unfold merge_goal. destruct body as [[t|] [d|] [ta|] [sa|] [st|]]; done.
Qed.

Lemma merge_goal_empty g : merge_goal empty_goal_body g = g.
Proof. by destruct g. Qed.

(** X12. The outcomes of [updateGoal]: a body that fails the update
    validators is answered 400 (title empty, negative amount, status
    outside the enum), an unknown id 404, and both leave the database as it
    was; otherwise the goal is stored with the fields of the body over its
    own and [getGoalById] reads it back, the other goals and the ledger
    collections being untouched.  The update is idempotent: the same
    request on the database it left gives the same answer and the same
    database; and an empty body changes nothing. *)
Theorem updateGoal_outcomes (db : Db) (id : ObjectId) (body : GoalBody) :
  let out := updateGoal id body db in
  (GoalBody_valid body = false →
   out = (db, Json 400 (Message "Validation failed")))
  ∧ (GoalBody_valid body = true → goals db !! id = None →
     out = (db, Json 404 (Message "Goal not found")))
  ∧ (∀ g, GoalBody_valid body = true → goals db !! id = Some g →
       snd out = Json 200 (GoalDoc (Some (merge_goal body g)))
       ∧ getGoalById id (fst out) = Sent 200 (merge_goal body g)
       ∧ (∀ id', id' ≠ id → goals (fst out) !! id' = goals db !! id')
       ∧ accounts (fst out) = accounts db
       ∧ transactions (fst out) = transactions db
       ∧ categories (fst out) = categories db)
  ∧ updateGoal id body (fst out) = out
  ∧ fst (updateGoal id empty_goal_body db) = db.
Proof.
  intros out. subst out. split_and!.
  - unfold updateGoal. by intros ->.
  - unfold updateGoal. by intros -> ->.
  - unfold updateGoal, getGoalById. intros g -> ->.
    cbn [fst snd goals set_goals accounts transactions categories].
    rewrite lookup_insert_eq. split_and!; try done.
    intros id' Hne. by rewrite lookup_insert_ne.
  - unfold updateGoal. destruct (GoalBody_valid body) eqn:Hv; [|done].
    destruct (goals db !! id) as [g|] eqn:Hg; cbn [fst].
    + cbn [goals set_goals]. rewrite lookup_insert_eq.
      rewrite merge_goal_twice. unfold set_goals. cbn.
      by rewrite insert_insert_eq.
    + by rewrite Hg.
  - unfold updateGoal. change (GoalBody_valid empty_goal_body) with true.
    cbv iota. destruct (goals db !! id) as [g|] eqn:Hg; [|done].
    cbn [fst]. rewrite merge_goal_empty, insert_id by done. by destruct db.
Qed.

Lemma updateGoal_outcomes_witness :
  let db := run [CreateGoal 1 (new_goal "Liburan" 500)] (fresh_db 1000) in
  let out := updateGoal 10 (saved_body 700) db in
  code (snd out) = 200%nat
  ∧ updateGoal 10 (saved_body 700) (fst out) = out
  ∧ updateGoal 10 (saved_body (-1)) db
    = (db, Json 400 (Message "Validation failed")).
Proof.
  intros db out.
  destruct (updateGoal_outcomes db 10 (saved_body 700)) as (_ & _ & _ & H & _).
  destruct (updateGoal_outcomes db 10 (saved_body (-1))) as (H400 & _).
  split_and!; [reflexivity|exact H|exact (H400 eq_refl)].
Defined.

(** *** Allocating and withdrawing *)

Lemma alter_add_balance_cancel (m : gmap nat Account) u a :
  alter (add_balance a) u (alter (add_balance (- a)) u m) = m.
Proof.
  apply map_eq. intros i. destruct (decide (u = i)) as [<-|Hne].
  - rewrite !lookup_alter_eq. destruct (m !! u) as [[n b]|]; [|done].
    simpl. unfold add_balance. simpl. do 2 f_equal. lia.
  - by rewrite !lookup_alter_ne.
Qed.

(** X13. Allocate, then withdraw the same amount, for whole amounts: on a
    database whose amounts are whole and within bounds, for a stored goal
    that passes the validators and a positive whole amount within the
    bound, both calls answer 200; the goal ends with the saved amount it
    had, the account balances and the categories are exactly what they
    were, and when the requests record transactions the ledger has gained
    one expense and one income of the amount.  The status does not come
    back: if the allocation reached the target the goal stays
    ['completed'], otherwise it keeps its status. *)
Theorem allocate_then_withdraw (db : Db) (id : ObjectId) (g : Goal)
    (body : FundsBody) (a : Z) :
  whole_units db = true → small a = true →
  goals db !! id = Some g → Goal_valid g = true →
  amount body = Some a → 0 < a →
  let s1 := fst (allocateFunds id body db) in
  let out := withdrawFunds id body s1 in
  code (snd (allocateFunds id body db)) = 200%nat
  ∧ code (snd out) = 200%nat
  ∧ (∃ g1 g2,
       goals s1 !! id = Some g1 ∧ goals (fst out) !! id = Some g2
       ∧ saved_amount g1 = saved_amount g + a
       ∧ g2 = set_status (if bool_decide (target_amount g ≤ saved_amount g + a)
                          then "completed" else status g) g
       ∧ transactions (fst out)
         = transactions db
           ++ (if create_transaction body
               then [allocation_doc (next_id db) g body a;
                     withdrawal_doc (S (next_id db)) g1 body a]
               else []))
  ∧ (∀ id', id' ≠ id → goals (fst out) !! id' = goals db !! id')
  ∧ accounts (fst out) = accounts db
  ∧ categories (fst out) = categories db.
Proof.
  intros _ _ Hg Hv Ha Hpos s1 out.
  destruct (Goal_valid_inv g Hv) as (Ht & Hta & Hsa & Hst).
  assert (Hv1 : Goal_valid (set_saved_amount (saved_amount g + a) g) = true).
  { apply Goal_valid_set_saved_amount; [done|lia]. }
  pose proof (allocateFunds_commit db id body g a Hg Ha Hpos Hv1) as E1.
  cbv zeta in E1. set (g1 := pre_save _) in E1.
  assert (Hs1 : saved_amount g1 = saved_amount g + a).
  { unfold g1. by destruct (pre_save_amounts (set_saved_amount (saved_amount g + a) g)). }
  assert (Hg1 : goals s1 !! id = Some g1).
  { subst s1. rewrite E1. cbn [fst]. destruct (create_transaction body);
      unfold recorded, with_goal; cbn [goals set_goals set_accounts
        set_transactions set_next_id]; by rewrite lookup_insert_eq. }
  assert (Hv1' : Goal_valid g1 = true) by by apply Goal_valid_pre_save.
  pose proof (withdrawFunds_commit s1 id body g1 a Hg1 Ha Hpos) as E2.
  cbv zeta in E2. rewrite Hs1 in E2. specialize (E2 ltac:(lia) Hv1').
  replace (saved_amount g + a - a) with (saved_amount g) in E2 by lia.
  set (g2 := pre_save _) in E2.
  assert (Hg2 : g2 = set_status
            (if bool_decide (target_amount g ≤ saved_amount g + a)
             then "completed" else status g) g).
  { unfold g2, g1, pre_save.
    cbn [target_amount saved_amount set_saved_amount set_status].
    repeat case_bool_decide; simpl in *; try lia; by destruct g. }
  subst out. rewrite E2. subst s1. rewrite E1. cbn [fst snd code].
  split_and!; [done..| | | |].
  - exists g1, g2. rewrite <- Hg2.
    destruct (create_transaction body);
      unfold recorded, with_goal;
      cbn [goals set_goals set_accounts set_transactions set_next_id
           transactions next_id];
      rewrite ?lookup_insert_eq, <- ?app_assoc, ?app_nil_r; done.
  - intros id' Hne.
    destruct (create_transaction body);
      unfold recorded, with_goal;
      cbn [goals set_goals set_accounts set_transactions set_next_id];
      by rewrite !lookup_insert_ne.
  - destruct (create_transaction body);
      unfold recorded, with_goal;
      cbn [accounts goals set_goals set_accounts set_transactions set_next_id
           id_akun allocation_doc withdrawal_doc]; [|done].
    replace (user_id g1) with (user_id g)
      by (unfold g1, pre_save; by destruct (bool_decide _)).
    apply alter_add_balance_cancel.
  - by destruct (create_transaction body).
Qed.

Lemma allocate_then_withdraw_witness :
  let db := run [CreateGoal 1 (new_goal "Liburan" 500)] (fresh_db 1000) in
  let s1 := fst (allocateFunds 10 (funds 500 true) db) in
  let out := withdrawFunds 10 (funds 500 true) s1 in
  accounts (fst out) = accounts db
  ∧ (tipe <$> transactions (fst out)) = ["expense"; "income"]
  ∧ (status <$> goals db !! 10%nat) = Some "active"
  ∧ (status <$> goals (fst out) !! 10%nat) = Some "completed"
  ∧ (saved_amount <$> goals (fst out) !! 10%nat) = Some 0.
Proof.
  intros db s1 out.
  destruct (allocate_then_withdraw db 10
              {| user_id := 1; title := "Liburan"; description := "";
                 target_amount := 500; saved_amount := 0; status := "active" |}
              (funds 500 true) 500 eq_refl eq_refl eq_refl eq_refl eq_refl
              ltac:(lia))
    as (_ & _ & _ & _ & Hacc & _).
  split_and!; [exact Hacc|by vm_compute..].
Defined.


(** *** The default goals *)

Lemma Goal_countDocuments_zero u s :
  Goal_countDocuments u s = 0%nat ↔ ¬ has_goal u s.
Proof.
  unfold Goal_countDocuments. rewrite length_zero_iff_nil. split.
  - intros E (id & g & Hg & Hu).
    assert (H : (id, g) ∈ Goal_find u s) by by apply Goal_find_elem.
    rewrite E in H. by apply elem_of_nil in H.
  - intros H. destruct (Goal_find u s) as [|[id g] l] eqn:E; [done|].
    exfalso. apply H. exists id, g. apply Goal_find_elem. rewrite E. by left.
Qed.

Lemma Goal_countDocuments_pos u s :
  Goal_countDocuments u s ≠ 0%nat → has_goal u s.
Proof.
  unfold Goal_countDocuments. intros H.
  destruct (Goal_find u s) as [|[id g] l] eqn:E; [done|].
  exists id, g. apply Goal_find_elem. rewrite E. by left.
Qed.

Lemma default_goal_saved u acc s :
  (let* goal_id := fresh_id in Goal_save goal_id (default_goal u acc)) s
  = Done tt (with_goal (next_id s) (default_goal u acc)
               (set_next_id (S (next_id s)) s)).
Proof.
  run_session.
  assert (Hv : Goal_valid (default_goal u acc) = true).
  { apply Goal_valid_intro; simpl; [done|lia|done|done]. }
  rewrite Hv. unfold pre_save.
  rewrite bool_decide_eq_false_2 by (simpl; lia). done.
Qed.

Lemma setupDefaultGoals_loop_skips l c k s :
  (∀ u acc, (u, acc) ∈ l → has_goal u s) →
  setupDefaultGoals_loop l c k s = (s, Some (c, (k + length l)%nat)).
Proof.
  revert k. induction l as [|[u acc] l IH]; intros k Hl; simpl.
  { by rewrite Nat.add_0_r. }
  rewrite decide_False.
  - rewrite IH by (intros u' acc' H; apply (Hl u' acc'); by right).
    do 3 f_equal. lia.
  - rewrite Goal_countDocuments_zero. intros H. apply H, (Hl u acc). by left.
Qed.

Lemma setupDefaultGoals_loop_spec l c k s :
  NoDup l.*1 → goal_ids_drawn s →
  ∃ s' c' k',
    setupDefaultGoals_loop l c k s = (s', Some (c', k'))
    ∧ (c' + k' = c + k + length l)%nat
    ∧ accounts s' = accounts s ∧ transactions s' = transactions s
    ∧ categories s' = categories s
    ∧ goal_ids_drawn s'
    ∧ (∀ id g, goals s !! id = Some g → goals s' !! id = Some g)
    ∧ (∀ id g, goals s' !! id = Some g →
         goals s !! id = Some g
         ∨ (goals s !! id = None
            ∧ ∃ acc, (user_id g, acc) ∈ l ∧ ¬ has_goal (user_id g) s
                     ∧ g = default_goal (user_id g) acc))
    ∧ (∀ u acc, (u, acc) ∈ l → has_goal u s')
    ∧ (∀ u, has_goal u s' → has_goal u s ∨ u ∈ l.*1).
Proof.
  revert c k s. induction l as [|[u acc] l IH]; intros c k s Hnd Hdrawn.
  { exists s, c, k. simpl. split_and!; try done; try lia.
    - intros id g Hg. by left.
    - by intros ? ? ?%elem_of_nil.
    - intros u Hu. by left. }
  rewrite fmap_cons in Hnd. apply NoDup_cons in Hnd as [Hu Hnd]. simpl.
  destruct (decide (Goal_countDocuments u s = 0%nat)) as [Hzero|Hsome].
  - apply Goal_countDocuments_zero in Hzero.
    rewrite default_goal_saved.
    set (s1 := with_goal _ _ _).
    assert (Hfresh : goals s !! next_id s = None).
    { destruct (goals s !! next_id s) eqn:E; [|done].
      specialize (Hdrawn (next_id s)). rewrite E in Hdrawn.
      specialize (Hdrawn ltac:(by eexists)). lia. }
    assert (Hdrawn1 : goal_ids_drawn s1).
    { intros id. unfold s1, with_goal. cbn [goals set_goals set_next_id next_id].
      rewrite lookup_insert. case_decide; [lia|].
      intros Hid. specialize (Hdrawn id Hid). lia. }
    destruct (IH (S c) k s1 Hnd Hdrawn1)
      as (s' & c' & k' & E & Hcount & Ha & Ht & Hc & Hd' & Hkeep & Hnew & Hall & Hback).
    exists s', c', k'. split_and!; try done.
    + lia.
    + intros id g Hg. apply Hkeep. unfold s1, with_goal.
      cbn [goals set_goals set_next_id]. rewrite lookup_insert_ne; [done|].
      intros <-. congruence.
    + intros id g Hg. destruct (Hnew id g Hg) as [H1|(H1 & acc' & Hin & Hno & Hg')].
      * unfold s1, with_goal in H1. cbn [goals set_goals set_next_id] in H1.
        rewrite lookup_insert in H1. case_decide as Hid; [|by left].
        injection H1 as <-. subst id. right. split; [done|].
        exists acc. split_and!; [by left|done..].
      * unfold s1, with_goal in H1. cbn [goals set_goals set_next_id] in H1.
        rewrite lookup_insert in H1. case_decide as Hid; [done|].
        right. split; [done|]. exists acc'. split_and!; [by right| |done].
        intros (id' & g' & Hg'' & Hu'). apply Hno. exists id', g'.
        split; [|done]. unfold s1, with_goal. cbn [goals set_goals set_next_id].
        rewrite lookup_insert_ne; [done|]. intros <-. congruence.
    + intros u' acc' [[= -> ->]|Hin]%elem_of_cons; [|by apply (Hall u' acc')].
      exists (next_id s), (default_goal u acc). split; [|done].
      apply Hkeep. unfold s1, with_goal. cbn [goals set_goals set_next_id].
      by rewrite lookup_insert_eq.
    + intros u' [(id & g & Hg & Hu')|Hin]%Hback.
      * unfold s1, with_goal in Hg. cbn [goals set_goals set_next_id] in Hg.
        rewrite lookup_insert in Hg. case_decide.
        -- injection Hg as <-. right. rewrite <- Hu'. by left.
        -- left. by exists id, g.
      * right. rewrite ?fmap_cons. by right.
  - destruct (IH c (S k) s Hnd Hdrawn)
      as (s' & c' & k' & E & Hcount & Ha & Ht & Hc & Hd' & Hkeep & Hnew & Hall & Hback).
    exists s', c', k'. split_and!; try done.
    + lia.
    + intros id g Hg. destruct (Hnew id g Hg) as [H1|(H1 & acc' & Hin & Hno & Hg')];
        [by left|].
      right. split; [done|]. exists acc'. split_and!; [by right|done..].
    + intros u' acc' [[= -> ->]|Hin]%elem_of_cons; [|by apply (Hall u' acc')].
      apply Goal_countDocuments_pos in Hsome as (id & g & Hg & Hu').
      exists id, g. split; [by apply Hkeep|done].
    + intros u' [H|Hin]%Hback; [by left|]. right. rewrite ?fmap_cons. by right.
Qed.

Lemma goal_ids_drawn_fresh_db b : goal_ids_drawn (fresh_db b).
Proof. intros id. simpl. rewrite lookup_empty. by intros [? ?]. Defined.

(** X14. The script [setupDefaultGoals], on a database whose goal ids were
    drawn from the id counter: it runs to its last log line, and the counts
    [created] and [skipped] add up to the number of accounts; afterwards
    every account owns a goal; the goals that existed are untouched, and a
    goal that is new was made for an account that owned none: an active
    'Dana Darurat' with nothing saved and a target of three times the
    balance, or 10,000,000 when that is less; accounts, transactions and
    categories are left alone; and a second run creates nothing. *)
Theorem setupDefaultGoals_spec (db : Db) :
  goal_ids_drawn db →
  let s := fst (setupDefaultGoals db) in
  (∃ created skipped,
     snd (setupDefaultGoals db) = Some (created, skipped)
     ∧ (created + skipped)%nat = size (accounts db))
  ∧ accounts s = accounts db ∧ transactions s = transactions db
  ∧ categories s = categories db
  ∧ (∀ u, is_Some (accounts db !! u) → has_goal u s)
  ∧ (∀ id g, goals db !! id = Some g → goals s !! id = Some g)
  ∧ (∀ id g, goals s !! id = Some g → goals db !! id = None →
       ∃ acc, accounts db !! user_id g = Some acc
              ∧ ¬ has_goal (user_id g) db
              ∧ g = default_goal (user_id g) acc
              ∧ 10000000 ≤ target_amount g
              ∧ 3 * balance acc ≤ target_amount g
              ∧ saved_amount g = 0 ∧ status g = "active")
  ∧ setupDefaultGoals s = (s, Some (0%nat, size (accounts db))).
Proof.
  intros Hdrawn s. subst s. unfold setupDefaultGoals.
  destruct (setupDefaultGoals_loop_spec (map_to_list (accounts db)) 0 0 db)
    as (s' & c' & k' & E & Hcount & Ha & Ht & Hc & _ & Hkeep & Hnew & Hall & _);
    [apply NoDup_fst_map_to_list|done|].
  rewrite E. cbn [fst snd]. split_and!; try done.
  - exists c', k'. split; [done|]. rewrite Hcount.
    by rewrite length_map_to_list.
  - intros u [acc Hacc]. apply (Hall u acc). by apply elem_of_map_to_list.
  - intros id g Hg Hnone.
    destruct (Hnew id g Hg) as [H|(_ & acc & Hin & Hno & Hg')]; [congruence|].
    exists acc. apply elem_of_map_to_list in Hin.
    split_and!; try done; rewrite Hg';
      cbn [default_goal target_amount saved_amount status user_id];
      first [done|lia].
  - rewrite Ha. rewrite setupDefaultGoals_loop_skips.
    + by rewrite length_map_to_list.
    + intros u acc Hin. by apply (Hall u acc).
Qed.

Lemma setupDefaultGoals_spec_witness :
  let s := fst (setupDefaultGoals (fresh_db 5000000)) in
  goals s !! 10%nat = Some (default_goal 1 {| username := "budi"; balance := 5000000 |})
  ∧ (target_amount <$> goals s !! 10%nat) = Some 15000000
  ∧ setupDefaultGoals s = (s, Some (0%nat, 1%nat)).
Proof.
  intros s.
  destruct (setupDefaultGoals_spec (fresh_db 5000000)
              (goal_ids_drawn_fresh_db 5000000)) as (_ & _ & _ & _ & _ & _ & _ & H).
  split_and!; [by vm_compute..|exact H].
Defined.


(** *** The tag made from the title *)

Lemma toLowerCase_ascii_space c :
  Ascii.is_space (toLowerCase_ascii c) = Ascii.is_space c.
Proof. by destruct c as [[] [] [] [] [] [] [] []]. Qed.

Lemma toLowerCase_ascii_twice c :
  toLowerCase_ascii (toLowerCase_ascii c) = toLowerCase_ascii c.
Proof. by destruct c as [[] [] [] [] [] [] [] []]. Qed.

Lemma slug_from_chars in_run s c :
  c ∈ String.list_ascii_of_string (slug_from in_run s) →
  Ascii.is_space c = false ∧ toLowerCase_ascii c = c.
Proof.
  revert in_run. induction s as [|c0 r IH]; intros in_run; simpl.
  { by intros ?%elem_of_nil. }
  destruct (Ascii.is_space c0) eqn:Hc0.
  - destruct in_run; [apply IH|]. simpl.
    intros [->|H]%elem_of_cons; [done|by apply (IH true)].
  - simpl. intros [->|H]%elem_of_cons; [|by apply (IH false)].
    by rewrite toLowerCase_ascii_space, toLowerCase_ascii_twice.
Qed.

Lemma slug_from_fixed in_run s :
  (∀ c, c ∈ String.list_ascii_of_string s →
        Ascii.is_space c = false ∧ toLowerCase_ascii c = c) →
  slug_from in_run s = s.
Proof.
  revert in_run. induction s as [|c0 r IH]; intros in_run Hs; [done|].
  simpl. destruct (Hs c0) as [-> ->]; [simpl; by left|].
  rewrite IH; [done|]. intros c Hc. apply Hs. simpl. by right.
Qed.

Lemma toLowerCase_ascii_ascii c :
  (nat_of_ascii c < 128)%nat → (nat_of_ascii (toLowerCase_ascii c) < 128)%nat.
Proof.
  destruct c as [[] [] [] [] [] [] [] []]; vm_compute; intros H; lia.
Qed.

Lemma slug_from_ascii in_run s :
  ascii_only s = true → ascii_only (slug_from in_run s) = true.
Proof.
  unfold ascii_only. revert in_run. induction s as [|c r IH]; intros in_run; [done|].
  cbn [String.list_ascii_of_string forallb slug_from].
  intros [Hc Hr]%andb_true_iff. apply bool_decide_eq_true in Hc.
  destruct (Ascii.is_space c); [destruct in_run|];
    cbn [String.list_ascii_of_string forallb]; rewrite ?(IH _ Hr); try done.
  rewrite andb_true_r. by apply bool_decide_eq_true, toLowerCase_ascii_ascii.
Qed.

(** X15. The tag that [allocateFunds] and [withdrawFunds] make from the
    title of the goal, [title.toLowerCase().replace(/\s+/g, '-')], for a
    title of ASCII characters: it is made of ASCII characters, holds no
    white space and no upper-case letter, it is empty only for an empty
    title, and making it again from itself changes nothing; so for a goal
    with such a title, not empty as the schema requires, none of the three
    tags of the recorded transaction is blank. *)
Theorem slug_is_a_tag (s : string) :
  ascii_only s = true →
  ascii_only (slug s) = true
  ∧ (∀ c, c ∈ String.list_ascii_of_string (slug s) →
        Ascii.is_space c = false ∧ toLowerCase_ascii c = c)
  ∧ (slug s = "" ↔ s = "")
  ∧ slug (slug s) = slug s
  ∧ (s ≠ "" → blank (slug s) = false)
  ∧ (∀ id g body a tag, title g = s → s ≠ "" →
       tag ∈ tags (allocation_doc id g body a)
       ∨ tag ∈ tags (withdrawal_doc id g body a) →
       blank tag = false).
Proof.
  intros Hascii.
  assert (Hblank : s ≠ "" → blank (slug s) = false).
  { destruct s as [|c r]; [done|]. intros _. unfold slug. simpl.
    destruct (Ascii.is_space c) eqn:Hc; simpl; [done|].
    by rewrite toLowerCase_ascii_space, Hc. }
  split_and!; [by apply slug_from_ascii|apply slug_from_chars| | |done|].
  - unfold slug. destruct s as [|c r]; [done|]. simpl.
    by destruct (Ascii.is_space c).
  - unfold slug at 1. apply slug_from_fixed, slug_from_chars.
  - intros id g body a tag Ht Hs. simpl. rewrite Ht.
    rewrite !elem_of_cons, !elem_of_nil.
    intros [[->|[->|[->|[]]]]|[->|[->|[->|[]]]]]; by auto.
Qed.

Lemma slug_is_a_tag_witness :
  slug "Dana  Darurat 2025" = "dana-darurat-2025"
  ∧ blank (slug "Dana  Darurat 2025") = false
  ∧ slug (slug "Dana  Darurat 2025") = slug "Dana  Darurat 2025".
Proof.
  destruct (slug_is_a_tag "Dana  Darurat 2025" eq_refl)
    as (_ & _ & _ & Hidem & Hblank & _).
  split_and!; [by vm_compute|by apply Hblank|exact Hidem].
Defined.

(** *** Manual categories *)





(** *** Deleting a goal *)

(** X17. The outcomes of [deleteGoal]: 404 for an unknown id, the database
    being left as it was; otherwise 200, and only the goal goes: the other
    goals, the accounts, the transactions and the categories stay, so what
    was allocated to the goal is not returned to the balance.  Afterwards
    the id is unknown to every goal handler: [getGoalById], a second
    [deleteGoal], [updateGoal] with a valid body, [allocateFunds] and
    [withdrawFunds] answer 404 and change nothing. *)
Theorem deleteGoal_outcomes (db : Db) (id : ObjectId) :
  let out := deleteGoal id db in
  let s := fst out in
  (goals db !! id = None → out = (db, Json 404 (Message "Goal not found")))
  ∧ (is_Some (goals db !! id) →
     snd out = Json 200 (Message "Goal deleted successfully"))
  ∧ (∀ id', id' ≠ id → goals s !! id' = goals db !! id')
  ∧ accounts s = accounts db ∧ transactions s = transactions db
  ∧ categories s = categories db
  ∧ getGoalById id s = Failed 404 "Goal not found"
  ∧ deleteGoal id s = (s, Json 404 (Message "Goal not found"))
  ∧ (∀ body, GoalBody_valid body = true →
       updateGoal id body s = (s, Json 404 (Message "Goal not found")))
  ∧ (∀ body, allocateFunds id body s = (s, Json 404 (Message "Goal not found")))
  ∧ (∀ body, withdrawFunds id body s = (s, Json 404 (Message "Goal not found"))).
Proof.
  intros out s.
  assert (Hgone : goals s !! id = None).
  { subst s out. unfold deleteGoal.
    destruct (goals db !! id) eqn:Hg; [|done].
    cbn [fst goals set_goals]. by rewrite lookup_delete_eq. }
  assert (Hs : s = fst (deleteGoal id db)) by done.
  clearbody s. subst out. split_and!.
  - unfold deleteGoal. by intros ->.
  - unfold deleteGoal. by intros [g ->].
  - intros id' Hne. subst s. unfold deleteGoal.
    destruct (goals db !! id); [|done].
    cbn [fst goals set_goals]. by rewrite lookup_delete_ne.
  - subst s. by destruct (deleteGoal_ledger db id) as (? & ? & ?).
  - subst s. by destruct (deleteGoal_ledger db id) as (? & ? & ?).
  - subst s. by destruct (deleteGoal_ledger db id) as (? & ? & ?).
  - unfold getGoalById. by rewrite Hgone.
  - unfold deleteGoal. by rewrite Hgone.
  - intros body Hv. unfold updateGoal. by rewrite Hv, Hgone.
  - intros body. unfold allocateFunds. run_session. by rewrite Hgone.
  - intros body. unfold withdrawFunds. run_session. by rewrite Hgone.
Qed.

Lemma deleteGoal_outcomes_witness :
  let db := run [CreateGoal 1 (new_goal "Liburan" 500);
                 AllocateFunds 10 (funds 200 true)] (fresh_db 1000) in
  let s := fst (deleteGoal 10 db) in
  getAccountBalance 1 s = Sent 200 800
  ∧ getGoalById 10 s = Failed 404 "Goal not found"
  ∧ withdrawFunds 10 (funds 200 true) s = (s, Json 404 (Message "Goal not found")).
Proof.
  intros db s.
  destruct (deleteGoal_outcomes db 10) as (_ & _ & _ & _ & _ & _ & Hget & _ & _ & _ & Hw).
  split_and!; [by vm_compute|exact Hget|exact (Hw _)].
Defined.


(** *** The summary of the categories *)

Lemma group_count_nonneg os name ty : 0 ≤ group_count os name ty.
Proof. induction os as [|o os IH]; simpl; [done|]. case_decide; lia. Qed.

Lemma group_count_snoc os o name ty :
  group_count (os ++ [o]) name ty
  = group_count os name ty + (if decide (o.1.1 = name ∧ o.1.2 = ty) then 1 else 0).
Proof. induction os as [|o' os IH]; simpl; [lia|]. rewrite IH. lia. Qed.

Lemma group_sum_snoc os o name ty :
  group_sum (os ++ [o]) name ty
  = group_sum os name ty + (if decide (o.1.1 = name ∧ o.1.2 = ty) then o.2 else 0).
Proof. induction os as [|o' os IH]; simpl; [lia|]. rewrite IH. lia. Qed.

Lemma group_count_app os1 os2 name ty :
  group_count (os1 ++ os2) name ty
  = group_count os1 name ty + group_count os2 name ty.
Proof. induction os1 as [|o os IH]; simpl; [done|]. rewrite IH. lia. Qed.

Lemma group_sum_app os1 os2 name ty :
  group_sum (os1 ++ os2) name ty = group_sum os1 name ty + group_sum os2 name ty.
Proof. induction os1 as [|o os IH]; simpl; [done|]. rewrite IH. lia. Qed.

Lemma group_sum_zero os name ty :
  group_count os name ty = 0 → group_sum os name ty = 0.
Proof.
  induction os as [|o os IH]; simpl; [done|].
  pose proof (group_count_nonneg os name ty). case_decide; [lia|].
  intros. rewrite IH; lia.
Qed.

Lemma find_group_add o groups name ty :
  find_group name ty (group_add o groups)
  = if decide (o.1.1 = name ∧ o.1.2 = ty)
    then Some (match find_group name ty groups with
               | Some g => {| gr_name := gr_name g; gr_type := gr_type g;
                              gr_count := gr_count g + 1;
                              gr_total := gr_total g + o.2 |}
               | None => {| gr_name := o.1.1; gr_type := o.1.2;
                            gr_count := 1; gr_total := o.2 |}
               end)
    else find_group name ty groups.
Proof.
  unfold find_group. induction groups as [|g rest IH]; simpl.
  - destruct (decide (o.1.1 = name ∧ o.1.2 = ty)) as [[H1 H2]|Hne].
    + by rewrite !bool_decide_eq_true_2.
    + destruct (decide (o.1.1 = name)) as [H1|H1].
      * rewrite (bool_decide_eq_true_2 _ H1), bool_decide_eq_false_2; [done|].
        intros H2. by apply Hne.
      * by rewrite (bool_decide_eq_false_2 _ H1).
  - destruct (decide (gr_name g = o.1.1 ∧ gr_type g = o.1.2)) as [[G1 G2]|Gne];
      simpl.
    + destruct (decide (o.1.1 = name ∧ o.1.2 = ty)) as [[H1 H2]|Hne].
      * rewrite !bool_decide_eq_true_2 by congruence. simpl.
        destruct g; simpl in *; by subst.
      * rewrite G1, G2.
        destruct (bool_decide (o.1.1 = name) && bool_decide (o.1.2 = ty)) eqn:E;
          [|done].
        apply andb_true_iff in E as [E1%bool_decide_eq_true E2%bool_decide_eq_true].
        by destruct Hne.
    + destruct (bool_decide (gr_name g = name) && bool_decide (gr_type g = ty)) eqn:E.
      * apply andb_true_iff in E as [E1%bool_decide_eq_true E2%bool_decide_eq_true].
        rewrite decide_False; [done|]. intros [H1 H2]. apply Gne. by subst.
      * apply IH.
Qed.

Lemma group_add_keys o groups :
  (λ g, (gr_name g, gr_type g)) <$> group_add o groups
  = if decide ((o.1.1, o.1.2) ∈ (λ g, (gr_name g, gr_type g)) <$> groups)
    then (λ g, (gr_name g, gr_type g)) <$> groups
    else ((λ g, (gr_name g, gr_type g)) <$> groups) ++ [(o.1.1, o.1.2)].
Proof.
  induction groups as [|g rest IH]; cbn [group_add].
  - rewrite decide_False; [done|]. rewrite fmap_nil. by intros ?%elem_of_nil.
  - destruct (decide (gr_name g = o.1.1 ∧ gr_type g = o.1.2)) as [[G1 G2]|Gne].
    + rewrite !fmap_cons. cbn [gr_name gr_type].
      rewrite decide_True; [done|]. rewrite G1, G2. by left.
    + rewrite !fmap_cons, IH.
      destruct (decide ((o.1.1, o.1.2) ∈ (λ g, (gr_name g, gr_type g)) <$> rest))
        as [Hin|Hin].
      * rewrite decide_True; [done|]. by right.
      * rewrite decide_False; [done|].
        intros [[= H1 H2]|H]%elem_of_cons; [|done]. by apply Gne.
Qed.

Lemma Grouped_nil : Grouped [] [].
Proof. split; [constructor|done]. Qed.

Lemma Grouped_step groups os o :
  Grouped groups os → Grouped (group_add o groups) (os ++ [o]).
Proof.
  intros [Hnd Hfind]. split.
  - rewrite group_add_keys. case_decide as Hin; [done|].
    apply NoDup_app. split_and!; [done| |apply NoDup_singleton].
    intros k Hk ->%list_elem_of_singleton. done.
  - intros name ty. rewrite find_group_add, Hfind.
    rewrite group_count_snoc, group_sum_snoc.
    pose proof (group_count_nonneg os name ty).
    destruct (decide (o.1.1 = name ∧ o.1.2 = ty)) as [[H1 H2]|Hne].
    + rewrite (decide_False (P := _ + 1 = 0)) by lia.
      destruct (decide (group_count os name ty = 0)) as [Hz|Hz]; [|done].
      rewrite Hz, (group_sum_zero _ _ _ Hz), H1, H2. done.
    + rewrite !Z.add_0_r. done.
Qed.

Lemma Grouped_foldl os groups os0 :
  Grouped groups os0 →
  Grouped (foldl (λ groups o, group_add o groups) groups os) (os0 ++ os).
Proof.
  revert groups os0. induction os as [|o os IH]; intros groups os0 H; simpl.
  - by rewrite app_nil_r.
  - rewrite (cons_middle o os0 os), app_assoc. by apply IH, Grouped_step.
Qed.

Lemma Grouped_elem groups os g :
  Grouped groups os → g ∈ groups →
  0 < gr_count g
  ∧ gr_count g = group_count os (gr_name g) (gr_type g)
  ∧ gr_total g = group_sum os (gr_name g) (gr_type g).
Proof.
  intros [Hnd Hfind] Hg.
  assert (E : find_group (gr_name g) (gr_type g) groups = Some g).
  { clear Hfind. unfold find_group.
    induction groups as [|g0 rest IH]; [by apply elem_of_nil in Hg|].
    rewrite fmap_cons in Hnd. apply NoDup_cons in Hnd as [Hg0 Hnd]. simpl.
    apply elem_of_cons in Hg as [->|Hg].
    { by rewrite !bool_decide_eq_true_2. }
    destruct (bool_decide (gr_name g0 = gr_name g)
              && bool_decide (gr_type g0 = gr_type g)) eqn:E0; [|by apply IH].
    apply andb_true_iff in E0 as [E1%bool_decide_eq_true E2%bool_decide_eq_true].
    exfalso. apply Hg0. apply list_elem_of_fmap. exists g.
    split; [by rewrite E1, E2|done]. }
  rewrite Hfind in E. pose proof (group_count_nonneg os (gr_name g) (gr_type g)).
  case_decide; [done|]. injection E as <-. simpl. lia.
Qed.

Lemma group_unwind t name ty :
  group_sum (unwind t) name ty
  = (if bool_decide (tipe t = ty) then nominal t * occurrences name (tags t) else 0)
  ∧ group_count (unwind t) name ty
    = (if bool_decide (tipe t = ty) then occurrences name (tags t) else 0).
Proof.
  unfold unwind. induction (tags t) as [|tag l [IH1 IH2]].
  { simpl. unfold occurrences. simpl. case_bool_decide; split; lia. }
  rewrite fmap_cons, occurrences_cons. cbn [group_sum group_count foldr fst snd].
  fold (group_sum ((λ tag, (tag, tipe t, nominal t)) <$> l) name ty).
  fold (group_count ((λ tag, (tag, tipe t, nominal t)) <$> l) name ty).
  rewrite IH1, IH2.
  destruct (decide (tag = name)) as [->|Hne].
  - case_bool_decide as Hty.
    + rewrite !decide_True by done. split; lia.
    + rewrite !decide_False by (by intros [_ ?]). split; lia.
  - rewrite !decide_False by (by intros [? _]). split; case_bool_decide; lia.
Qed.

Lemma group_tagged u (l : list Transaction) name ty :
  group_sum (filter (λ t, of_account u t) l ≫= unwind) name ty
  = tagged_sum l (u, name, ty)
  ∧ group_count (filter (λ t, of_account u t) l ≫= unwind) name ty
    = tagged_count l (u, name, ty).
Proof.
  induction l as [|t l [IH1 IH2]]; [done|].
  rewrite filter_cons, tagged_sum_cons. unfold tagged_count.
  cbn [total foldr fst snd]. fold (total (λ t, if bool_decide (id_akun t = u)
    && bool_decide (tipe t = ty) then occurrences name (tags t) else 0) l).
  change (total _ l) with (tagged_count l (u, name, ty)).
  rewrite <- IH1, <- IH2. destruct (group_unwind t name ty) as [E1 E2].
  destruct (decide (of_account u t)) as [Hu|Hu]; unfold of_account in Hu.
  - rewrite bind_cons, group_sum_app, group_count_app, E1, E2.
    apply bool_decide_unpack in Hu.
    rewrite (bool_decide_eq_true_2 _ Hu). cbn [andb]. split; lia.
  - assert (Hne : id_akun t ≠ u).
    { intros Hu'. apply Hu. by apply bool_decide_pack. }
    rewrite (bool_decide_eq_false_2 _ Hne). cbn [andb]. split; lia.
Qed.

Lemma Category_find_existing u db name ty :
  List.find (λ c : CategoryDoc, bool_decide (c.1.1.2 = name) && bool_decide (c.1.2 = ty))
    (Category_find u db)
  = (λ b, ((u, name, ty), b)) <$> categories db !! (u, name, ty).
Proof.
  destruct (List.find _ (Category_find u db)) as [[[[u' n'] t'] b]|] eqn:E.
  - apply find_some in E as [Hin Hm]. apply list_elem_of_In in Hin.
    unfold Category_find in Hin.
    apply list_elem_of_filter in Hin as [Hu Hin]. simpl in Hu, Hm.
    apply andb_true_iff in Hm as [->%bool_decide_eq_true ->%bool_decide_eq_true].
    subst u'. apply elem_of_map_to_list in Hin. by rewrite Hin.
  - destruct (categories db !! (u, name, ty)) as [b|] eqn:Hk; [|done].
    exfalso. pose proof (find_none _ _ E ((u, name, ty), b)) as Hn.
    simpl in Hn. rewrite !bool_decide_eq_true_2 in Hn by done.
    assert (Hin : ((u, name, ty), b) ∈ Category_find u db).
    { unfold Category_find. apply list_elem_of_filter. split; [done|].
      by apply elem_of_map_to_list. }
    apply list_elem_of_In in Hin. by specialize (Hn Hin).
Qed.

(** X18. The answer of [getCategorySummary]: one entry per (tag, kind) of
    the transactions of the account, blank tags included; its [count] is
    the number of times the tag occurs in the transactions of that kind and
    its [total] the sum of their amounts, once per occurrence; its
    [balance] is the balance of the Category of that name and type, and the
    [total] when there is none or when its balance is 0.  On a database
    whose categories agree with its transactions, which the handlers of
    [TransactionController] keep, every [balance] is the [total]. *)
Theorem category_summary (db : Db) (u : ObjectId) (items : list SummaryItem) :
  getCategorySummary u db = Sent 200 items →
  NoDup ((λ i, (si_name i, si_type i)) <$> items)
  ∧ (∀ t tag, t ∈ transactions db → id_akun t = u → tag ∈ tags t →
       ∃ i, i ∈ items ∧ si_name i = tag ∧ si_type i = tipe t)
  ∧ (∀ i, i ∈ items →
       let k := (u, si_name i, si_type i) in
       0 < si_count i
       ∧ si_count i = tagged_count (transactions db) k
       ∧ si_total i = tagged_sum (transactions db) k
       ∧ si_id i = (λ _, k) <$> categories db !! k
       ∧ si_balance i = or_number (categories db !! k) (si_total i))
  ∧ (Categories_invariant db → ∀ i, i ∈ items → si_balance i = si_total i).
Proof.
  intros [= <-]. unfold aggregate.
  set (os := filter (λ t, of_account u t) (transactions db) ≫= unwind).
  pose proof (Grouped_foldl os [] [] Grouped_nil) as HG. rewrite app_nil_l in HG.
  set (groups := foldl _ [] os) in *.
  assert (Hitem : ∀ i, i ∈ summary_item (Category_find u db) <$> groups →
            let k := (u, si_name i, si_type i) in
            0 < si_count i
            ∧ si_count i = tagged_count (transactions db) k
            ∧ si_total i = tagged_sum (transactions db) k
            ∧ si_id i = (λ _, k) <$> categories db !! k
            ∧ si_balance i = or_number (categories db !! k) (si_total i)).
  { intros i (g & -> & Hg)%list_elem_of_fmap.
    destruct (Grouped_elem _ _ _ HG Hg) as (Hpos & Hcount & Htotal).
    destruct (group_tagged u (transactions db) (gr_name g) (gr_type g)) as [E1 E2].
    fold os in E1, E2. unfold summary_item.
    cbn [si_name si_type si_count si_total si_id si_balance].
    rewrite Category_find_existing.
    split_and!; [done|congruence|congruence|..];
      by destruct (categories db !! (u, gr_name g, gr_type g)). }
  split_and!; [| |done|].
  - rewrite <- list_fmap_compose. by destruct HG.
  - intros t tag Ht Hu Htag.
    destruct HG as [_ Hfind]. specialize (Hfind tag (tipe t)).
    assert (Hin : (tag, tipe t, nominal t) ∈ os).
    { unfold os. apply list_elem_of_bind. exists t. split.
      - unfold unwind. apply list_elem_of_fmap. by exists tag.
      - apply list_elem_of_filter. split; [|done]. by apply bool_decide_pack. }
    assert (Hpos : group_count os tag (tipe t) ≠ 0).
    { clear -Hin. induction os as [|o os IH]; [by apply elem_of_nil in Hin|].
      simpl. pose proof (group_count_nonneg os tag (tipe t)).
      apply elem_of_cons in Hin as [<-|Hin].
      - rewrite decide_True by done. lia.
      - specialize (IH Hin). case_decide; lia. }
    rewrite decide_False in Hfind by done.
    apply find_some in Hfind as [Hg _]. apply list_elem_of_In in Hg.
    eexists. split; [apply list_elem_of_fmap; eexists; split; [done|exact Hg]|].
    done.
  - intros [Hsum Hname] i Hi. destruct (Hitem i Hi) as (_ & _ & Htotal & _ & Hbal).
    rewrite Hbal. destruct (categories db !! (u, si_name i, si_type i)) as [b|] eqn:Hk;
      [|done].
    simpl. case_decide; [done|].
    specialize (Hsum (u, si_name i, si_type i)). unfold balance_of in Hsum.
    rewrite Hk in Hsum. simpl in Hsum. rewrite Hsum, Htotal.
    pose proof (Hname (u, si_name i, si_type i) ltac:(by eexists)) as Hb.
    cbn [fst snd] in Hb.
    unfold tag_total, tagged_sum, contribution. apply total_ext. intros t.
    cbn [fst snd]. rewrite Hb. cbn [negb]. by rewrite andb_true_r.
Qed.

Lemma category_summary_witness :
  let db := run [CreateTransaction (new_tx "expense" 100 ["goal"; " "]);
                 DeleteTransaction 10;
                 CreateGoal 1 (new_goal "Liburan" 500);
                 AllocateFunds 11 (funds 200 true)] (fresh_db 1000) in
  ∃ items, getCategorySummary 1 db = Sent 200 items
           ∧ categories db !! (1%nat, "goal", "expense") = Some 0
           ∧ (si_name <$> items) = ["goal"; "savings"; "liburan"]
           ∧ (si_balance <$> items) = [200; 200; 200]
           ∧ NoDup ((λ i, (si_name i, si_type i)) <$> items).
Proof.
  intros db. eexists. split; [reflexivity|].
  destruct (category_summary db 1 _ eq_refl) as (Hnd & _).
  split_and!; [by vm_compute..|exact Hnd].
Defined.


(** *** Deleting a category *)






